(** * Citation manager: normalisation, merge, validation, rendering, store

    A shallow embedding of the citation-manager agent
    ([agents/citation_manager/engine.py], [validators.py], [csl_engine.py]
    and [ltm.py]) together with the properties its specification states.

    Conventions of the embedding:
    - a Python [dict] with string keys is a [gmap string value];
      [d.get(k)] is [get d k], which yields [VNone] for a missing key;
    - a Python [str] is a [string] whose characters are the code points
      0..255; [isspace], [lower], [isupper], ... are Python's own tables
      restricted to that range.  Literals of the source that hold a
      character above 255 (the dashes of two messages) are kept as text;
    - code that can raise returns a [result]; [try/except Exception] is
      [catch];
    - the CSL engine, the style files on disk and the SQLite table are
      explicit state: an environment record and a list of rows;
    - [re.search], [re.match] and [re.split] in the extractor are a
      backtracking matcher over the patterns it uses; the operating
      system and the Crossref lookup are a record and a function the
      definitions take as arguments. *)

From Stdlib Require Import ZArith QArith Ascii String List Bool Lia.
From stdpp Require Import base option list gmap strings pretty.

Set Warnings "-register-all".
Local Open Scope string_scope.
Local Open Scope bool_scope.
Local Open Scope list_scope.

(** ** Python values and built-ins *)

Module Py.

(** JSON-shaped values a record can hold (floats and nested objects are
    not needed by the functions embedded here). *)
Inductive value :=
| VNone
| VBool (b : bool)
| VInt (z : Z)
| VStr (s : string)
| VList (l : list value).

Inductive exn :=
| AttributeError
| TypeError
| ValueError
| OverflowError
| RuntimeError (msg : string)
| FileNotFoundError (msg : string)
| ProgrammingError
| EngineError.

Inductive result (A : Type) :=
| Ok (a : A)
| Raise (e : exn).
Arguments Ok {A} a.
Arguments Raise {A} e.

Definition bind {A B} (r : result A) (k : A -> result B) : result B :=
  match r with
  | Ok a => k a
  | Raise e => Raise e
  end.

(** [try: r except Exception: h] *)
Definition catch {A} (r : result A) (h : result A) : result A :=
  match r with
  | Ok a => Ok a
  | Raise _ => h
  end.

#[export] Instance result_bind : MBind result := fun A B k r => bind r k.
#[export] Instance result_ret : MRet result := @Ok.

Definition is_ok {A} (r : result A) : bool :=
  match r with
  | Ok _ => true
  | Raise _ => false
  end.

(** Truth value of [bool(v)]. *)
Definition truthy (v : value) : bool :=
  match v with
  | VNone => false
  | VBool b => b
  | VInt z => negb (z =? 0)%Z
  | VStr s => negb (s =? "")
  | VList l => match l with [] => false | _ => true end
  end.

(** [a or b] *)
Definition por (a b : value) : value := if truthy a then a else b.

(** [d.get(k)] and [d.get(k, dflt)] *)
Definition get (d : gmap string value) (k : string) : value :=
  default VNone (d !! k).
Definition get_default (d : gmap string value) (k : string) (dflt : value) : value :=
  default dflt (d !! k).

(** *** Characters *)

Definition code (c : ascii) : N := N_of_ascii c.

Definition between (lo hi : N) (c : ascii) : bool :=
  ((lo <=? code c) && (code c <=? hi))%N.

(** [str.isspace] on one character; also the class [\s] of [re]. *)
Definition isspace (c : ascii) : bool :=
  between 9 13 c || between 28 32 c || (code c =? 133)%N || (code c =? 160)%N.

Definition isdigit (c : ascii) : bool := between 48 57 c.

Definition is_ascii_upper (c : ascii) : bool := between 65 90 c.
Definition is_ascii_lower (c : ascii) : bool := between 97 122 c.
Definition is_ascii_alpha (c : ascii) : bool := is_ascii_upper c || is_ascii_lower c.

(** Upper-case and lower-case letters among the code points 0..255. *)
Definition char_isupper (c : ascii) : bool :=
  between 65 90 c || between 192 214 c || between 216 222 c.
Definition char_islower (c : ascii) : bool :=
  between 97 122 c || (code c =? 170)%N || (code c =? 181)%N || (code c =? 186)%N
  || between 223 246 c || between 248 255 c.

Definition char_lower (c : ascii) : ascii :=
  if char_isupper c then ascii_of_N (code c + 32) else c.

(** SQLite's [LOWER] folds the 26 ASCII letters only. *)
Definition sql_char_lower (c : ascii) : ascii :=
  if is_ascii_upper c then ascii_of_N (code c + 32) else c.

(** *** Strings *)

Fixpoint lower (s : string) : string :=
  match s with
  | "" => ""
  | String c r => String (char_lower c) (lower r)
  end.

Fixpoint lstrip_by (ws : ascii -> bool) (s : string) : string :=
  match s with
  | "" => ""
  | String c r => if ws c then lstrip_by ws r else s
  end.

Fixpoint rstrip_by (ws : ascii -> bool) (s : string) : string :=
  match s with
  | "" => ""
  | String c r =>
      match rstrip_by ws r with
      | "" => if ws c then "" else String c ""
      | r' => String c r'
      end
  end.

Definition strip_by (ws : ascii -> bool) (s : string) : string :=
  rstrip_by ws (lstrip_by ws s).

(** [s.strip()] *)
Definition strip (s : string) : string := strip_by isspace s.

(** [s.startswith(p)] *)
Fixpoint startswith (p s : string) : bool :=
  match p, s with
  | "", _ => true
  | String a p', String b s' => Ascii.eqb a b && startswith p' s'
  | _, "" => false
  end.

Fixpoint drop (n : nat) (s : string) : string :=
  match n, s with
  | O, _ => s
  | S n', String _ r => drop n' r
  | S _, "" => ""
  end.

(** [s.partition(sep)]: the text before the first occurrence of [sep] and
    the text after it, or [None] when [sep] does not occur. *)
Fixpoint partition (sep s : string) : option (string * string) :=
  if startswith sep s then Some ("", drop (String.length sep) s)
  else match s with
       | "" => None
       | String c r =>
           match partition sep r with
           | Some (a, b) => Some (String c a, b)
           | None => None
           end
       end.

(** [sub in s] *)
Definition contains (sub s : string) : bool :=
  match partition sub s with Some _ => true | None => false end.

(** [s.replace(old, new, 1)] for a non-empty [old]. *)
Definition replace1 (old new s : string) : string :=
  match partition old s with
  | Some (a, b) => a +:+ new +:+ b
  | None => s
  end.

(** [s.replace(old, new)] for a non-empty [old]: every occurrence, left to
    right, not overlapping. *)
Fixpoint replace_all_fuel (fuel : nat) (old new s : string) : string :=
  match fuel with
  | O => s
  | S f =>
      match partition old s with
      | Some (a, b) => a +:+ new +:+ replace_all_fuel f old new b
      | None => s
      end
  end.
Definition replace_all (old new s : string) : string :=
  replace_all_fuel (S (String.length s)) old new s.

(** [s.split(sep, 1)[-1]] *)
Definition split1_last (sep s : string) : string :=
  match partition sep s with
  | Some (_, b) => b
  | None => s
  end.

(** [re.split(cls, s)] for a pattern that is one character class. *)
Fixpoint re_split_class (cls : ascii -> bool) (s : string) : list string :=
  match s with
  | "" => [""]
  | String c r =>
      if cls c then "" :: re_split_class cls r
      else match re_split_class cls r with
           | p :: ps => String c p :: ps
           | [] => [String c ""]
           end
  end.

(** [sep.join(l)] on a list of strings. *)
Fixpoint join (sep : string) (l : list string) : string :=
  match l with
  | [] => ""
  | [x] => x
  | x :: r => x +:+ sep +:+ join sep r
  end.

(** The maximal runs of characters outside [cls]:
    [[w for w in re.split(cls+, s) if w]]. *)
Fixpoint words_by (cls : ascii -> bool) (s : string) : list string :=
  match s with
  | "" => []
  | String c r =>
      if cls c then words_by cls r
      else match r with
           | "" => [String c ""]
           | String d _ =>
               if cls d then String c "" :: words_by cls r
               else match words_by cls r with
                    | w :: ws => String c w :: ws
                    | [] => [String c ""]
                    end
           end
  end.

Fixpoint existsb_str (p : ascii -> bool) (s : string) : bool :=
  match s with
  | "" => false
  | String c r => p c || existsb_str p r
  end.

(** [s.isupper()]: some cased character, and none of them lower-case. *)
Definition isupper (s : string) : bool :=
  existsb_str char_isupper s && negb (existsb_str char_islower s).
(** [s.islower()] *)
Definition islower (s : string) : bool :=
  existsb_str char_islower s && negb (existsb_str char_isupper s).

(** *** Conversions: [str(v)], [repr(v)], [int(v)] *)

Definition squote : ascii := ascii_of_N 39.
Definition dquote : ascii := ascii_of_N 34.
Definition backslash : ascii := ascii_of_N 92.

(** [str.isprintable] on one character. *)
Definition isprintable (c : ascii) : bool :=
  between 32 126 c || (between 161 255 c && negb (code c =? 173)%N).

Definition hex_digit (n : N) : ascii :=
  if (n <? 10)%N then ascii_of_N (48 + n) else ascii_of_N (87 + n).

Definition repr_char (q c : ascii) : string :=
  if Ascii.eqb c backslash then String backslash (String backslash "")
  else if Ascii.eqb c q then String backslash (String q "")
  else if (code c =? 9)%N then String backslash "t"
  else if (code c =? 10)%N then String backslash "n"
  else if (code c =? 13)%N then String backslash "r"
  else if isprintable c then String c ""
  else String backslash
         (String "x" (String (hex_digit (code c / 16)) (String (hex_digit (code c mod 16)) ""))).

Fixpoint repr_chars (q : ascii) (s : string) : string :=
  match s with
  | "" => ""
  | String c r => repr_char q c +:+ repr_chars q r
  end.

(** [repr] of a string: single quotes, unless the text holds a single
    quote and no double quote. *)
Definition repr_str (s : string) : string :=
  let q := if existsb_str (Ascii.eqb squote) s && negb (existsb_str (Ascii.eqb dquote) s)
           then dquote else squote in
  String q (repr_chars q s +:+ String q "").

Fixpoint repr (v : value) : string :=
  match v with
  | VNone => "None"
  | VBool true => "True"
  | VBool false => "False"
  | VInt z => pretty z
  | VStr s => repr_str s
  | VList l => "[" +:+ join ", " (map repr l) +:+ "]"
  end.

(** [str(v)] *)
Definition str (v : value) : string :=
  match v with
  | VStr s => s
  | _ => repr v
  end.

Definition digit_val (c : ascii) : Z := Z.of_N (code c) - 48.

(** Decimal digits with single underscores between them. *)
Fixpoint parse_digits (acc : Z) (after_digit : bool) (s : string) : option Z :=
  match s with
  | "" => if after_digit then Some acc else None
  | String c r =>
      if isdigit c then parse_digits (10 * acc + digit_val c) true r
      else if Ascii.eqb c "_" && after_digit then
        match r with
        | String d _ => if isdigit d then parse_digits acc false r else None
        | "" => None
        end
      else None
  end.

Definition parse_int (s : string) : option Z :=
  match strip s with
  | String "+" r => parse_digits 0 false r
  | String "-" r => Z.opp <$> parse_digits 0 false r
  | t => parse_digits 0 false t
  end.

(** [int(v)] in base ten. *)
Definition int (v : value) : result Z :=
  match v with
  | VBool b => Ok (if b then 1 else 0)%Z
  | VInt z => Ok z
  | VStr s => match parse_int s with Some z => Ok z | None => Raise ValueError end
  | VNone | VList _ => Raise TypeError
  end.

(** [v.strip()] on a value that should be a string. *)
Definition vstrip (v : value) : result string :=
  match v with
  | VStr s => Ok (strip s)
  | _ => Raise AttributeError
  end.

(** [v.lower()] on a value that should be a string. *)
Definition vlower (v : value) : result string :=
  match v with
  | VStr s => Ok (lower s)
  | _ => Raise AttributeError
  end.

End Py.

(** ** Regular expressions, as [re] matches them *)

Module Re.
Import Py.

Inductive regex :=
| Void
| Eps
| Cls (p : ascii -> bool)
| Seq (a b : regex)
| Alt (a b : regex)
| Star (a : regex).

Fixpoint nullable (r : regex) : bool :=
  match r with
  | Void => false
  | Eps => true
  | Cls _ => false
  | Seq a b => nullable a && nullable b
  | Alt a b => nullable a || nullable b
  | Star _ => true
  end.

Fixpoint deriv (c : ascii) (r : regex) : regex :=
  match r with
  | Void => Void
  | Eps => Void
  | Cls p => if p c then Eps else Void
  | Seq a b =>
      if nullable a then Alt (Seq (deriv c a) b) (deriv c b)
      else Seq (deriv c a) b
  | Alt a b => Alt (deriv c a) (deriv c b)
  | Star a => Seq (deriv c a) (Star a)
  end.

(** [re.fullmatch(r, s) is not None] *)
Fixpoint fullmatch (r : regex) (s : string) : bool :=
  match s with
  | "" => nullable r
  | String c t => fullmatch (deriv c r) t
  end.

Definition Opt (r : regex) : regex := Alt Eps r.
Definition Plus (r : regex) : regex := Seq r (Star r).
Definition Chr (c : ascii) : regex := Cls (Ascii.eqb c).
(** One character under [re.IGNORECASE]. *)
Definition ChrI (c : ascii) : regex := Cls (fun x => Ascii.eqb (char_lower x) (char_lower c)).

Fixpoint Repeat (n : nat) (r : regex) : regex :=
  match n with
  | O => Eps
  | S k => Seq r (Repeat k r)
  end.

(** [r{lo,hi}] *)
Definition Range (lo hi : nat) (r : regex) : regex :=
  Seq (Repeat lo r) (Repeat (hi - lo) (Opt r)).

Fixpoint Lit (s : string) : regex :=
  match s with
  | "" => Eps
  | String c t => Seq (Chr c) (Lit t)
  end.

Fixpoint LitI (s : string) : regex :=
  match s with
  | "" => Eps
  | String c t => Seq (ChrI c) (LitI t)
  end.

Definition any : regex := Cls (fun _ => true).

(** [re.match(r, s) is not None] for a pattern [^r]: a prefix matches. *)
Definition match_prefix (r : regex) (s : string) : bool :=
  fullmatch (Seq r (Star any)) s.

(** [re.match(r, s) is not None] for a pattern [^r$]: [$] stands at the
    end of the text or before a line feed that ends it. *)
Definition match_dollar (r : regex) (s : string) : bool :=
  fullmatch (Seq r (Opt (Chr (ascii_of_N 10)))) s.

End Re.

(** ** validators.py *)

Module Validators.
Import Py Re.

(** The class [[-._;()/:A-Z0-9]] under [re.IGNORECASE]. *)
Definition doi_char (c : ascii) : bool :=
  existsb_str (Ascii.eqb c) "-._;()/:" || is_ascii_alpha c || isdigit c.

(** [DOI_REGEX = re.compile(r"^10\.\d{4,9}/[-._;()/:A-Z0-9]+$", re.IGNORECASE)]:
    the pattern between [^] and [$]. *)
Definition DOI_REGEX : regex :=
  Seq (Lit "10.") (Seq (Range 4 9 (Cls isdigit)) (Seq (Chr "/") (Plus (Cls doi_char)))).

(** [DOI_REGEX.match(s)] *)
Definition DOI_REGEX_match (s : string) : bool := match_dollar DOI_REGEX s.

Definition doi_syntax_is_valid (doi : string) : bool :=
  if doi =? "" then false
  else
    let doi := strip doi in
    let doi :=
      if startswith "http://doi.org/" (lower doi) || startswith "https://doi.org/" (lower doi)
      then split1_last "doi.org/" doi
      else doi in
    DOI_REGEX_match doi.

End Validators.

(** ** csl_engine.py *)

Module CslEngine.
Import Py.

(** What [format_with_csl] reads from its surroundings: whether the
    [citeproc] import succeeded, the style file [_style_path] resolves to
    and whether it is on disk, and the body of the [try] block (mapping to
    CSL-JSON and rendering through [citeproc]), which either returns the
    rendered text or raises. *)
Record env := {
  CITEPROC_AVAILABLE : bool;
  _style_path : option string -> string;
  path_exists : string -> bool;
  citeproc_render : string -> gmap string value -> option string -> bool -> result string;
}.

(** [sep.join(v)]: [v] is a list of strings, or a string (joined
    character by character). *)
Fixpoint chars (s : string) : list string :=
  match s with
  | "" => []
  | String c r => String c "" :: chars r
  end.

Fixpoint all_str (l : list value) : result (list string) :=
  match l with
  | [] => Ok []
  | VStr s :: r => r' ← all_str r; Ok (s :: r')
  | _ :: _ => Raise TypeError
  end.

Definition join_value (sep : string) (v : value) : result string :=
  match v with
  | VStr s => Ok (join sep (chars s))
  | VList l => l' ← all_str l; Ok (join sep l')
  | _ => Raise TypeError
  end.

(** The [except Exception:] branch of [format_with_csl]. *)
Definition manual_format (item : gmap string value) : result string :=
  let authors :=
    por (get item "authors")
        (if negb (truthy (get item "author")) then VList [] else VList [get item "author"]) in
  author_str ← (if truthy authors then join_value ", " authors else Ok "Unknown");
  let year := str (por (get item "year") (VStr "n.d.")) in
  title ← vstrip (por (get item "title") (VStr ""));
  journal ← vstrip (por (por (get item "journal") (get item "publisher")) (VStr ""));
  let vol := strip (str (por (get item "volume") (VStr ""))) in
  let iss := strip (str (por (get item "issue") (VStr ""))) in
  let pages := strip (str (por (get item "pages") (VStr ""))) in
  let doi := get item "doi" in
  let url := get item "url" in
  let parts : list value := [] in
  let parts := if negb (author_str =? "") then parts ++ [VStr author_str] else parts in
  let parts := if negb (year =? "") then parts ++ [VStr year] else parts in
  let parts := if negb (title =? "") then parts ++ [VStr title] else parts in
  let parts := if negb (journal =? "") then parts ++ [VStr journal] else parts in
  let vol_iss :=
    (if negb (vol =? "") then vol else "") +:+
    (if negb (iss =? "") then "(" +:+ iss +:+ ")" else "") in
  let parts := if negb (vol_iss =? "") then parts ++ [VStr vol_iss] else parts in
  let parts := if negb (pages =? "") then parts ++ [VStr pages] else parts in
  let tail :=
    if truthy doi
    then VStr ("https://doi.org/" +:+ strip (replace_all "https://doi.org/" "" (str doi)))
    else por url (VStr "") in
  let parts := if truthy tail then parts ++ [tail] else parts in
  join_value ". " (VList (List.filter truthy parts)).

Definition format_with_csl (e : env) (style : option string) (item : gmap string value)
    (source_type : option string) (include_doi : bool) : result string :=
  if negb (CITEPROC_AVAILABLE e) then Raise (RuntimeError "citeproc-py not installed")
  else
    let style_path := _style_path e style in
    if negb (path_exists e style_path)
    then Raise (FileNotFoundError ("CSL style file not found: " +:+ style_path))
    else catch (citeproc_render e style_path item source_type include_doi)
               (manual_format item).

End CslEngine.

(** ** ltm.py *)

Module Ltm.
Import Py.

(** One row of the [citations] table.  [doi] and [title] are [TEXT]
    columns ([None] is [NULL]); the [authors] and [metadata] columns hold
    the JSON text of the value kept here; [id] is the position of the row
    and [created_at] is left out. *)
Record row := {
  row_doi : option string;
  row_title : option string;
  row_authors : value;
  row_style : string;
  row_formatted : string;
  row_metadata : gmap string value;
  row_user_id : option string;
}.

(** The table, oldest row first. *)
Definition store := list row.

(** What SQLite stores in a [TEXT] column for a bound Python value. *)
Definition sql_text (v : value) : result (option string) :=
  match v with
  | VNone => Ok None
  | VStr s => Ok (Some s)
  | VBool b => Ok (Some (if b then "1" else "0"))
  | VInt z =>
      if ((- 2 ^ 63 <=? z) && (z <? 2 ^ 63))%Z then Ok (Some (pretty z))
      else Raise OverflowError
  | VList _ => Raise ProgrammingError
  end.

(** SQLite's [TRIM(x)] removes spaces (code 32) at both ends. *)
Definition sql_trim (s : string) : string := strip_by (Ascii.eqb " ") s.

(** SQLite's [LOWER(x)] *)
Fixpoint sql_lower (s : string) : string :=
  match s with
  | "" => ""
  | String c r => String (sql_char_lower c) (sql_lower r)
  end.

Definition save_citation (db : store) (item : gmap string value) (style formatted : string)
    (user_id : option string) : result store :=
  doi ← sql_text (get item "doi");
  title ← sql_text (get item "title");
  let authors := por (get item "authors") (VList []) in
  Ok (db ++ [ {| row_doi := doi; row_title := title; row_authors := authors;
                 row_style := style; row_formatted := formatted;
                 row_metadata := item; row_user_id := user_id |} ]).

(** [SELECT 1 FROM citations WHERE LOWER(TRIM(col)) = ? LIMIT 1] finds a row. *)
Definition select_lower_trim (col : row -> option string) (norm : string) (db : store) : bool :=
  existsb (fun r => match col r with
                    | Some x => sql_lower (sql_trim x) =? norm
                    | None => false
                    end) db.

Definition exists_duplicate (db : store) (doi title : value) : result bool :=
  by_doi ← (if truthy doi
            then doi_norm ← vstrip (por doi (VStr ""));
                 Ok (select_lower_trim row_doi (lower doi_norm) db)
            else Ok false);
  if by_doi : bool then Ok true
  else
    by_title ← (if truthy title
                then title_norm ← vstrip (por title (VStr ""));
                     Ok (select_lower_trim row_title (lower title_norm) db)
                else Ok false);
    if by_title : bool then Ok true else Ok false.

End Ltm.

(** ** engine.py *)

Module Engine.
Import Py Re Validators CslEngine Ltm.

Definition nonempty (s : string) : bool := negb (s =? "").

(** [x or d] for an optional string argument. *)
Definition sor (x : option string) (d : string) : string :=
  match x with
  | Some s => if nonempty s then s else d
  | None => d
  end.

(** [x in l] for strings. *)
Definition in_list (x : string) (l : list string) : bool := existsb (String.eqb x) l.

(** The class [[;,]]. *)
Definition author_sep (c : ascii) : bool := Ascii.eqb c ";" || Ascii.eqb c ",".

Definition _split_authors (author_str : value) : result (list string) :=
  if negb (truthy author_str) then Ok []
  else
    match author_str with
    | VStr s =>
        let parts :=
          map strip (List.filter (fun p => nonempty (strip p)) (re_split_class author_sep s)) in
        Ok (match parts with [] => [strip s] | _ => parts end)
    | _ => Raise TypeError
    end.

(** [re.sub(r"\s*[-...]\s*", "-", p)]: a hyphen and the white space
    around it become one hyphen.  [pending] is the white space read since
    the last other character; [after_dash] tells that a hyphen was just
    written.  (The other dashes of the class lie above code point 255.) *)
Fixpoint sub_dashes (after_dash : bool) (pending : string) (p : string) : string :=
  match p with
  | "" => pending
  | String c r =>
      if isspace c then
        if after_dash then sub_dashes true "" r
        else sub_dashes false (pending +:+ String c "") r
      else if Ascii.eqb c "-" then String "-" (sub_dashes true "" r)
      else pending +:+ String c (sub_dashes false "" r)
  end.

(** Lines 19-26 of [normalize_metadata]: the DOI branch for a non-empty
    string. *)
Definition normalize_doi (doi : string) : string :=
  let d := strip doi in
  let d :=
    if startswith "http://doi.org/" (lower d) || startswith "https://doi.org/" (lower d)
       || startswith "doi:" (lower d)
    then
      let d := replace1 "doi:" "" (replace1 "DOI:" "" d) in
      if contains "doi.org/" (lower d) then split1_last "doi.org/" d else d
    else d in
  lower (strip d).

Definition normalize_metadata (metadata : option (gmap string value))
    : result (gmap string value) :=
  let md := default ∅ metadata in
  let authors_field := por (get md "author") (get md "authors") in
  authors ← match authors_field with
            | VList _ => Ok authors_field
            | _ => l ← _split_authors (por authors_field (VStr "")); Ok (VList (map VStr l))
            end;
  let doi :=
    match get md "doi" with
    | VStr doi => if nonempty doi then VStr (normalize_doi doi) else get md "doi"
    | _ => get md "doi"
    end in
  let pages :=
    match get md "pages" with
    | VStr pages => if nonempty pages then VStr (sub_dashes false "" (strip pages)) else get md "pages"
    | _ => get md "pages"
    end in
  Ok (list_to_map [
    ("title", get_default md "title" (VStr ""));
    ("authors", authors);
    ("year", get md "year");
    ("journal", get md "journal");
    ("publisher", get md "publisher");
    ("volume", get md "volume");
    ("issue", get md "issue");
    ("pages", pages);
    ("doi", doi);
    ("url", get md "url");
    ("raw_text", get md "raw_text");
    ("source_type", get md "source_type")
  ]).

(** One turn of the loop of [merge_metadata]. *)
Definition merge_step (merged : gmap string value) (kv : string * value) : gmap string value :=
  if negb (truthy (get merged kv.1)) && truthy kv.2 then <[kv.1 := kv.2]> merged else merged.

Definition merge_metadata (base extracted : gmap string value) : gmap string value :=
  foldl merge_step base (map_to_list extracted).

(** [[x] if b else []]: one conditional [append]. *)
Definition when (b : bool) (x : string) : list string := if b then [x] else [].

(** [^https?://] under [re.IGNORECASE] *)
Definition url_scheme : regex := Seq (LitI "http") (Seq (Opt (ChrI "s")) (LitI "://")).

(** [^\d+$] *)
Definition all_digits : regex := Plus (Cls isdigit).

(** [^(?:\d+|[A-Za-z]?\d+\s*[-...]\s*[A-Za-z]?\d+)$] *)
Definition pages_shape : regex :=
  Alt (Plus (Cls isdigit))
      (Seq (Opt (Cls is_ascii_alpha))
        (Seq (Plus (Cls isdigit))
          (Seq (Star (Cls isspace))
            (Seq (Chr "-")
              (Seq (Star (Cls isspace))
                (Seq (Opt (Cls is_ascii_alpha)) (Plus (Cls isdigit)))))))).

(** [re.match(r"^[A-Z]", w)] *)
Definition starts_upper (w : string) : bool :=
  match w with
  | String c _ => is_ascii_upper c
  | "" => false
  end.

Definition keys_for_conf : list string :=
  ["title"; "authors"; "year"; "journal"; "publisher"; "volume"; "issue"; "pages"; "doi"; "url"].

(** The style-aware block at the end of [validate]. *)
Definition style_suggestions (item : gmap string value) (st title : string)
    (style : option string) : list string :=
  if negb (nonempty (sor style "")) then []
  else
    let s := lower (strip (sor style "")) in
    let art := in_list st ["article"; "journal"] in
    let web := in_list st ["web"; "website"] in
    if s =? "apa" then
      (if nonempty title then
         let words := words_by isspace title in
         let caps := length (List.filter starts_upper words) in
         when ((4 <=? length words)%nat && (length words <? 2 * caps)%nat)
           "APA: Convert title to sentence case (capitalize first word and proper nouns)."
       else [])
      ++ when (negb (truthy (get item "doi")) && art)
           "APA: Include DOI if available for journal articles."
    else if s =? "mla" then
      when web "MLA: Include access date for web sources (optional but common)."
      ++ when (art && negb (truthy (get item "pages")))
           "MLA: Add page range for articles when applicable."
    else if s =? "chicago" then
      when (in_list st ["book"] && negb (truthy (get item "publisher")))
        "Chicago: Include publisher for books and consider publisher location."
      ++ when (art && negb (truthy (get item "pages")))
           "Chicago: Provide page range for articles when available."
    else if s =? "harvard" then
      when (art && negb (truthy (get item "pages")))
        "Harvard: Include page numbers for journal articles when applicable."
      ++ when (web && negb (truthy (get item "url")))
           "Harvard: Provide the URL for web sources."
    else if s =? "ieee" then
      when (negb (truthy (get item "doi")) && art)
        "IEEE: Include DOI if available for journal articles."
      ++ when (truthy (get item "journal"))
           "IEEE: Use standard journal abbreviation if known."
    else [].

(** The year block of [validate]: [int(item["year"])] inside [try]. *)
Definition year_errors (item : gmap string value) : list string :=
  if truthy (get item "year") then
    match int (get item "year") with
    | Ok y => when ((y <? 1500)%Z || (2100 <? y)%Z)
                "Year looks out of plausible range (1500–2100)."
    | Raise _ => ["Year must be numeric."]
    end
  else [].

(** [validate] returns [(errors, suggestions, confidence)]; the
    confidence [round(filled / 10, 2)] is the rational [filled / 10]. *)
Definition validate (item : gmap string value) (source_type style : option string)
    : result (list string * list string * Q) :=
  let errors : list string :=
    flat_map (fun f => when (negb (truthy (get item f))) ("Missing required field: " +:+ f))
             ["title"; "year"] in
  let st := lower (sor source_type "article") in
  let suggestions : list string :=
    if in_list st ["article"; "journal"] then
      when (negb (truthy (get item "journal"))) "Add 'journal' for journal articles."
      ++ when (negb (truthy (get item "authors"))) "Provide at least one author."
    else if in_list st ["book"] then
      when (negb (truthy (get item "publisher"))) "Add 'publisher' for books."
    else if in_list st ["web"; "website"] then
      when (negb (truthy (get item "url"))) "Provide a URL for web sources."
    else [] in
  (* DOI checks *)
  let suggestions :=
    suggestions ++ when (negb (truthy (get item "doi"))) "Consider adding DOI if available." in
  let errors :=
    errors ++ when (truthy (get item "doi")
                    && negb (doi_syntax_is_valid (strip (str (por (get item "doi") (VStr ""))))))
                "Invalid DOI syntax." in
  (* URL scheme sanity check *)
  let errors :=
    errors ++ when (truthy (get item "url")
                    && negb (match_prefix url_scheme (strip (str (por (get item "url") (VStr ""))))))
                "URL must start with http:// or https://" in
  (* Capitalization heuristic for title *)
  title ← vstrip (por (get item "title") (VStr ""));
  let suggestions :=
    suggestions ++
    (if nonempty title then
       if isupper title then ["Title appears to be ALL CAPS; adjust capitalization."]
       else when (islower title) "Title appears to be all lowercase; adjust capitalization."
     else []) in
  (* Deep data quality checks *)
  let errors := errors ++ year_errors item in
  let suggestions :=
    suggestions
    ++ when (truthy (get item "volume") && negb (match_dollar all_digits (str (get item "volume"))))
         "Volume should be numeric."
    ++ when (truthy (get item "issue") && negb (match_dollar all_digits (str (get item "issue"))))
         "Issue should be numeric."
    ++ when (truthy (get item "pages")
             && negb (match_dollar pages_shape (strip (str (get item "pages")))))
         "Pages should look like '12-34'." in
  let filled := length (List.filter (fun k => truthy (get item k)) keys_for_conf) in
  let confidence := Qmake (Z.of_nat filled) 10 in
  let suggestions := suggestions ++ style_suggestions item st title style in
  Ok (errors, suggestions, confidence).

(** The key of an item in [detect_duplicates]:
    [(it.get("doi") or "").lower() or (it.get("title") or "").strip().lower()] *)
Definition dup_key (it : gmap string value) : result string :=
  a ← vlower (por (get it "doi") (VStr ""));
  if nonempty a then Ok a
  else b ← vstrip (por (get it "title") (VStr "")); Ok (lower b).

(** The loop of [detect_duplicates], with its two variables. *)
Fixpoint detect_loop (items : list (gmap string value)) (seen : gset string)
    (out : list (gmap string value)) : result (list (gmap string value)) :=
  match items with
  | [] => Ok out
  | it :: rest =>
      key ← dup_key it;
      if negb (nonempty key) then detect_loop rest seen (out ++ [it])
      else if decide (key ∈ seen) then detect_loop rest seen out
      else detect_loop rest ({[key]} ∪ seen) (out ++ [it])
  end.

Definition detect_duplicates (items : list (gmap string value))
    : result (list (gmap string value)) :=
  detect_loop items ∅ [].

(** The text [save_to_ltm] stores when CSL rendering gave nothing. *)
Definition fallback_formatted (item : gmap string value) : string :=
  let raw := strip (str (por (get item "raw_text") (VStr ""))) in
  if nonempty raw then raw
  else
    let title := strip (str (por (get item "title") (VStr "Untitled"))) in
    let year := str (por (get item "year") (VStr "n.d.")) in
    let journal := strip (str (por (por (get item "journal") (get item "publisher")) (VStr ""))) in
    let doi := strip (str (por (get item "doi") (VStr ""))) in
    let pieces :=
      [title]
      ++ when (nonempty year && negb (year =? "n.d.")) ("(" +:+ year +:+ ")")
      ++ when (nonempty journal) journal
      ++ when (nonempty doi) ("DOI: " +:+ doi) in
    if (1 <? length pieces)%nat then join " — " pieces else title.

(** The first guard of [save_to_ltm]: the record carries a title that is
    not blank, a doi, a url or a raw text. *)
Definition has_content (item : gmap string value) : bool :=
  (truthy (get item "title") && nonempty (strip (str (get item "title"))))
  || truthy (get item "doi") || truthy (get item "url") || truthy (get item "raw_text").

(** The second guard: the duplicate lookup ran and found a row. *)
Definition found_duplicate (db : store) (item : gmap string value) : bool :=
  match exists_duplicate db (por (get item "doi") VNone) (por (get item "title") VNone) with
  | Ok b => b
  | Raise _ => false
  end.

(** [save_to_ltm] returns nothing; its effect is the new table. *)
Definition save_to_ltm (e : env) (db : store) (item : gmap string value)
    (style user_id : option string) (force_save : bool) : result store :=
  if negb (has_content item) then Ok db
  else if negb force_save && found_duplicate db item then Ok db
  else
    let formatted :=
      match format_with_csl e (Some (sor style "APA")) item None true with
      | Ok s => s
      | Raise _ => ""
      end in
    let formatted :=
      if negb (nonempty (strip formatted)) then fallback_formatted item else formatted in
    save_citation db item (sor style "APA") formatted user_id.

End Engine.

(** ** Notions used in the statements *)

Module Notions.
Import Py Re Validators CslEngine Ltm Engine.

(** The field [k] of a returned record ([None] when the call raised or the
    key is missing). *)
Definition field (r : result (gmap string value)) (k : string) : option value :=
  match r with
  | Ok d => d !! k
  | Raise _ => None
  end.

(** A text that does not begin with a character of [ws]. *)
Definition clean_start (ws : ascii -> bool) (s : string) : Prop :=
  match s with
  | "" => True
  | String c _ => ws c = false
  end.

(** The value is a text that begins with one of the prefixes
    [normalize_metadata] looks for. *)
Definition has_doi_prefix (v : value) : bool :=
  match v with
  | VStr s =>
      startswith "http://doi.org/" s || startswith "https://doi.org/" s || startswith "doi:" s
  | _ => false
  end.

(** What [normalize_metadata] does to the value under ["doi"]. *)
Definition doi_field (v : value) : value :=
  match v with
  | VStr s => if nonempty s then VStr (normalize_doi s) else v
  | _ => v
  end.

(** The trimmed non-empty segments of a split on [;] and [,], in order. *)
Definition author_segments (s : string) : list string :=
  List.filter nonempty (map strip (re_split_class author_sep s)).

(** The author field of the input is something [_split_authors] accepts:
    a list, a text, or a falsy value. *)
Definition authors_field_ok (md : gmap string value) : bool :=
  match por (get md "author") (get md "authors") with
  | VList _ | VStr _ => true
  | v => negb (truthy v)
  end.

(** The fields [normalize_metadata] copies with [md.get(k)]. *)
Definition copied_fields : list string :=
  ["year"; "journal"; "publisher"; "volume"; "issue"; "url"; "raw_text"; "source_type"].

(** The record of the rendering example. *)
Definition record_X : gmap string value :=
  list_to_map [("title", VStr "X"); ("year", VInt 2020); ("authors", VList [VStr "A B"])].

(** [citeproc] could not be imported. *)
Definition env_without_engine : env := {|
  CITEPROC_AVAILABLE := false;
  _style_path := fun _ => "agents/citation_manager/csl/apa.csl";
  path_exists := fun _ => true;
  citeproc_render := fun _ _ _ _ => Raise EngineError;
|}.

(** [citeproc] is there and so is the style file, but rendering raises. *)
Definition env_failing_engine : env := {|
  CITEPROC_AVAILABLE := true;
  _style_path := fun _ => "agents/citation_manager/csl/apa.csl";
  path_exists := fun _ => true;
  citeproc_render := fun _ _ _ _ => Raise EngineError;
|}.

(** The title is something [.strip()] can be called on after [or ""]:
    a text, or a falsy value. *)
Definition title_is_text (item : gmap string value) : bool :=
  match get item "title" with
  | VStr _ => true
  | v => negb (truthy v)
  end.

(** The errors of a [validate] result. *)
Definition errors_of (r : result (list string * list string * Q)) : option (list string) :=
  match r with
  | Ok (errors, _, _) => Some errors
  | Raise _ => None
  end.

(** What [doi_syntax_is_valid] hands to the pattern once the text is
    trimmed: the text after the first [doi.org/] when it starts with
    [http://doi.org/] or [https://doi.org/] in any letter case. *)
Definition drop_doi_url (doi : string) : string :=
  if startswith "http://doi.org/" (lower doi) || startswith "https://doi.org/" (lower doi)
  then split1_last "doi.org/" doi
  else doi.

(** An item without a key for [detect_duplicates]: no doi, and no title
    or a blank one. *)
Definition keyless (it : gmap string value) : bool :=
  negb (truthy (get it "doi"))
  && match get it "title" with
     | VStr t => negb (nonempty (strip t))
     | v => negb (truthy v)
     end.

(** The doi is a text or falsy, and so is the title when the doi gives no
    key: the key of the item can be computed. *)
Definition key_fields_text (it : gmap string value) : bool :=
  match get it "doi" with
  | VStr d => if nonempty d then true else title_is_text it
  | v => negb (truthy v) && title_is_text it
  end.

(** A title that ends in a line feed, and one that begins with a capital
    U with diaeresis (code point 220). *)
Definition title_with_newline : string := "Deep Learning" +:+ String (ascii_of_N 10) "".
Definition title_with_umlaut : string := String (ascii_of_N 220) "ber die Elektrodynamik".

(** Characters on which SQLite's [LOWER(TRIM(x))] and Python's
    [x.strip().lower()] agree: no white space but the space, no capital
    letter above code point 127. *)
Definition plain_char (c : ascii) : bool :=
  (negb (isspace c) || Ascii.eqb c " ") && (negb (char_isupper c) || is_ascii_upper c).

Fixpoint forallb_str (p : ascii -> bool) (s : string) : bool :=
  match s with
  | "" => true
  | String c r => p c && forallb_str p r
  end.

(** The characters of [s] that satisfy [p], and their number. *)
Fixpoint keep (p : ascii -> bool) (s : string) : string :=
  match s with
  | "" => ""
  | String c r => if p c then String c (keep p r) else keep p r
  end.

Fixpoint count (p : ascii -> bool) (s : string) : nat :=
  match s with
  | "" => 0
  | String c r => (if p c then 1 else 0) + count p r
  end.

Fixpoint concat_str (l : list string) : string :=
  match l with
  | [] => ""
  | x :: r => x +:+ concat_str r
  end.

End Notions.

(** ** csl_engine.py: mapping a record to CSL-JSON *)

Module CslJson.
Import Py CslEngine.
Import Engine (sor).

(** One entry of the CSL [author] list: [{"literal": s}], [{"family": f}]
    or [{"given": g, "family": f}]. *)
Inductive csl_name :=
| NameLiteral (literal : string)
| NameFamily (family : string)
| NameGivenFamily (given family : string).

(** The CSL-JSON item [map_to_csl_json] builds: the keys [id], [type],
    [title] and [author] are always set, the others only when their
    condition holds ([None] is a missing key); [issued] is
    [{"date-parts": [[y]]}]. *)
Record csl_item := {
  csl_id : value;
  csl_type : string;
  csl_title : value;
  csl_author : list csl_name;
  csl_issued : option Z;
  csl_container_title : option value;
  csl_volume : option string;
  csl_issue : option string;
  csl_page : option string;
  csl_publisher : option value;
  csl_DOI : option string;
  csl_URL : option value;
}.

(** [l[:-1]] and [l[-1]] of a list of texts. *)
Definition init_last (l : list string) : list string * string :=
  (List.removelast l, List.last l "").

Definition _split_name (full_name : value) : result csl_name :=
  stripped ← vstrip (por full_name (VStr ""));
  let parts := words_by isspace stripped in
  match parts with
  | [] => Ok (NameLiteral (str (por full_name (VStr ""))))
  | [p] => Ok (NameFamily p)
  | _ => Ok (NameGivenFamily (join " " (fst (init_last parts))) (snd (init_last parts)))
  end.

(** [[f(a) for a in l]] for an [f] that can raise. *)
Fixpoint map_result {A B} (f : A -> result B) (l : list A) : result (list B) :=
  match l with
  | [] => Ok []
  | a :: r => b ← f a; bs ← map_result f r; Ok (b :: bs)
  end.

(** [for a in v]: the elements of a list, the characters of a text. *)
Definition iterate (v : value) : result (list value) :=
  match v with
  | VList l => Ok l
  | VStr s => Ok (map VStr (chars s))
  | _ => Raise TypeError
  end.

(** [typemap.get(key, "article-journal")] *)
Definition typemap (key : string) : string :=
  if key =? "article" then "article-journal"
  else if key =? "book" then "book"
  else if key =? "web" then "webpage"
  else "article-journal".

Definition map_to_csl_json (item : gmap string value) (source_type : option string)
    (include_doi : bool) : result csl_item :=
  let id := por (por (por (get item "id") (get item "doi")) (get item "url")) (VStr "item-1") in
  let type := typemap (lower (sor source_type "article")) in
  let title := por (get item "title") (VStr "") in
  let authors :=
    por (get item "authors")
        (if negb (truthy (get item "author")) then VList [] else VList [get item "author"]) in
  names ← iterate authors;
  mapped_authors ← map_result _split_name names;
  let mapped_authors :=
    match mapped_authors with
    | [] => [NameLiteral "Unknown"]
    | _ => mapped_authors
    end in
  let year := get item "year" in
  let issued :=
    if truthy year then
      match int (VStr (strip (str year))) with
      | Ok y => Some y
      | Raise _ => None
      end
    else None in
  let doi := get item "doi" in
  let url := get item "url" in
  Ok {| csl_id := id;
        csl_type := type;
        csl_title := title;
        csl_author := mapped_authors;
        csl_issued := issued;
        csl_container_title :=
          if truthy (get item "journal") then Some (get item "journal") else None;
        csl_volume :=
          if truthy (get item "volume") then Some (str (get item "volume")) else None;
        csl_issue :=
          if truthy (get item "issue") then Some (str (get item "issue")) else None;
        csl_page :=
          if truthy (get item "pages") then Some (str (get item "pages")) else None;
        csl_publisher :=
          if truthy (get item "publisher") then Some (get item "publisher") else None;
        csl_DOI :=
          if include_doi && truthy doi
          then Some (strip (replace_all "https://doi.org/" "" (str doi)))
          else None;
        csl_URL := if truthy url then Some url else None |}.

End CslJson.

(** ** csl_engine.py: finding the style file *)

Module StylePath.
Import Py CslEngine.

(** What [_style_path] reads from the operating system: the environment
    variable [CSL_STYLE_DIR], the directory of the module
    ([os.path.dirname(__file__)]), [os.path.exists], and [os.listdir]
    ([None] when it raises). *)
Record os_state := {
  environ_CSL_STYLE_DIR : option string;
  module_dirname : string;
  os_path_exists : string -> bool;
  os_listdir : string -> option (list string);
}.

(** [s.endswith(suffix)] *)
Definition endswith (suffix s : string) : bool :=
  (String.length suffix <=? String.length s)%nat
  && (drop (String.length s - String.length suffix) s =? suffix).

(** [os.path.join(a, b)] on POSIX. *)
Definition os_path_join (a b : string) : string :=
  if startswith "/" b then b
  else if (a =? "") || endswith "/" a then a +:+ b
  else a +:+ "/" +:+ b.

(** [STYLE_FILE_MAP.get(style_key, [f"{style_key}.csl"])] *)
Definition STYLE_FILE_MAP (style_key : string) : list string :=
  if style_key =? "apa" then ["apa.csl"]
  else if style_key =? "mla" then
    ["mla.csl"; "modern-language-association.csl"; "modern-language-association (1).csl"]
  else if style_key =? "chicago" then
    ["chicago-author-date.csl"; "chicago-note-bibliography.csl"; "chicago.csl"]
  else if style_key =? "harvard" then ["harvard.csl"; "harvard-cite-them-right.csl"]
  else if style_key =? "ieee" then ["ieee.csl"]
  else [style_key +:+ ".csl"].

(** [tokens_map.get(style_key, [style_key])] *)
Definition tokens_map (style_key : string) : list string :=
  if style_key =? "mla" then ["mla"; "modern-language-association"]
  else if style_key =? "chicago" then ["chicago"; "author-date"; "note-bibliography"]
  else if style_key =? "harvard" then ["harvard"; "cite-them-right"]
  else if style_key =? "apa" then ["apa"]
  else if style_key =? "ieee" then ["ieee"]
  else [style_key].

(** The first loop of [resolve_in_dir]. *)
Fixpoint first_existing (os : os_state) (dir_path : string) (names : list string)
    : option string :=
  match names with
  | [] => None
  | name :: rest =>
      let p := os_path_join dir_path name in
      if os_path_exists os p then Some p else first_existing os dir_path rest
  end.

(** The second loop: the first listed [.csl] file whose lower-cased name
    contains one of the tokens. *)
Fixpoint first_by_token (dir_path : string) (tokens names : list string) : option string :=
  match names with
  | [] => None
  | n :: rest =>
      if existsb (fun t => contains t (lower n)) tokens then Some (os_path_join dir_path n)
      else first_by_token dir_path tokens rest
  end.

Definition resolve_in_dir (os : os_state) (style_key dir_path : string) : option string :=
  match first_existing os dir_path (STYLE_FILE_MAP style_key) with
  | Some p => Some p
  | None =>
      match os_listdir os dir_path with
      | Some listed =>
          first_by_token dir_path (tokens_map style_key)
            (List.filter (endswith ".csl") listed)
      | None => None
      end
  end.

(** [if resolved:] on an optional path. *)
Definition found (resolved : option string) : option string :=
  match resolved with
  | Some p => if p =? "" then None else Some p
  | None => None
  end.

(** The second definition of [_style_path], the one in force. *)
Definition _style_path (os : os_state) (style : option string) : string :=
  let style_key :=
    lower (strip (Engine.sor style "APA")) in
  let candidates := STYLE_FILE_MAP style_key in
  let local_dir := os_path_join (module_dirname os) "csl" in
  let from_env :=
    match environ_CSL_STYLE_DIR os with
    | Some d => if d =? "" then None else found (resolve_in_dir os style_key d)
    | None => None
    end in
  match from_env with
  | Some p => p
  | None =>
      match found (resolve_in_dir os style_key local_dir) with
      | Some p => p
      | None => os_path_join local_dir (hd "" candidates)
      end
  end.


End StylePath.

(** ** Searching with a pattern, as [re.search], [re.match] and [re.split] do *)

Module Search.
Import Py.

(** The patterns the extractor uses: character classes, sequences,
    ordered alternatives, greedy bounded repetition ([hi = None] is no
    upper bound), numbered groups and the word boundary [\b]. *)
Inductive pat :=
| PEps
| PCls (p : ascii -> bool)
| PSeq (a b : pat)
| PAlt (a b : pat)
| PRep (lo : nat) (hi : option nat) (a : pat)
| PGroup (i : nat) (a : pat)
| PWordB.

(** A position in the subject: the character before it, if any, and the
    text after it. *)
Record pos := { before : option ascii; after : string }.

(** The groups set so far, the latest first. *)
Definition caps := list (nat * string).

(** The class [\w] among the code points 0..255. *)
Definition isword (c : ascii) : bool :=
  between 48 57 c || between 65 90 c || (code c =? 95)%N || between 97 122 c
  || (code c =? 170)%N || between 178 179 c || (code c =? 181)%N || between 185 186 c
  || between 188 190 c || between 192 214 c || between 216 246 c || between 248 255 c.

Definition word_before (x : pos) : bool :=
  match before x with Some c => isword c | None => false end.

Definition word_after (x : pos) : bool :=
  match after x with String c _ => isword c | "" => false end.

(** The text between two positions of the same subject. *)
Definition consumed (x y : pos) : string :=
  substring 0 (String.length (after x) - String.length (after y)) (after x).

Section Loop.
Context {R : Type}.
Variable body : pos -> caps -> (pos -> caps -> option R) -> option R.
Variable k : pos -> caps -> option R.

(** Greedy repetition: one more round of [body] is tried first, and the
    rest of the pattern ([k]) only when that fails and [lo] rounds are
    done.  Every round of the bodies repeated here consumes a character,
    so the length of the remaining text bounds the number of rounds. *)
Fixpoint loop (fuel lo : nat) (hi : option nat) (x : pos) (g : caps) : option R :=
  let stop := if (lo =? 0)%nat then k x g else None in
  match fuel with
  | O => stop
  | S fuel' =>
      match hi with
      | Some O => stop
      | _ =>
          match body x g (fun y g' =>
                  if (String.length (after y) <? String.length (after x))%nat
                  then loop fuel' (Nat.pred lo) (Nat.pred <$> hi) y g'
                  else None) with
          | Some r => Some r
          | None => stop
          end
      end
  end.

End Loop.

(** Backtracking match of [p] at [x], continuing with [k]: the first
    way of matching [p] for which [k] succeeds, in the order [re] tries
    them. *)
Fixpoint run {R : Type} (p : pat) (x : pos) (g : caps)
    (k : pos -> caps -> option R) {struct p} : option R :=
  match p with
  | PEps => k x g
  | PCls c =>
      match after x with
      | String a r => if c a then k {| before := Some a; after := r |} g else None
      | "" => None
      end
  | PSeq a b => run a x g (fun y g' => run b y g' k)
  | PAlt a b =>
      match run a x g k with
      | Some r => Some r
      | None => run b x g k
      end
  | PRep lo hi a => loop (run a) k (String.length (after x)) lo hi x g
  | PGroup i a => run a x g (fun y g' => k y ((i, consumed x y) :: g'))
  | PWordB => if xorb (word_before x) (word_after x) then k x g else None
  end.

(** A match: the text before it, the matched text ([group(0)]), the
    groups, and the position after it. *)
Record found := { pre : string; whole : string; groups : caps; post : pos }.

(** [re.match]: a match that starts at [x]. *)
Definition match_at (p : pat) (x : pos) : option found :=
  match run p x [] (fun y g => Some (y, g)) with
  | Some (y, g) => Some {| pre := ""; whole := consumed x y; groups := g; post := y |}
  | None => None
  end.

(** The leftmost match at or after a position. *)
Fixpoint search_at (p : pat) (b : option ascii) (s : string) : option found :=
  match match_at p {| before := b; after := s |} with
  | Some m => Some m
  | None =>
      match s with
      | "" => None
      | String a r =>
          match search_at p (Some a) r with
          | Some m => Some {| pre := String a (pre m); whole := whole m;
                              groups := groups m; post := post m |}
          | None => None
          end
      end
  end.

(** [re.search(p, s)] *)
Definition search (p : pat) (s : string) : option found := search_at p None s.

(** [m.group(i)] for [i > 0]: [None] when the group took no part. *)
Fixpoint group_in (i : nat) (g : caps) : option string :=
  match g with
  | [] => None
  | (j, w) :: r => if (i =? j)%nat then Some w else group_in i r
  end.

Definition group (i : nat) (m : found) : option string := group_in i (groups m).

(** [re.split(p, s)] for a pattern without groups that matches no empty
    text: the pieces between successive matches. *)
Fixpoint split_from (fuel : nat) (p : pat) (b : option ascii) (s : string) : list string :=
  match fuel with
  | O => [s]
  | S fuel' =>
      match search_at p b s with
      | Some m => pre m :: split_from fuel' p (before (post m)) (after (post m))
      | None => [s]
      end
  end.

Definition split (p : pat) (s : string) : list string :=
  split_from (String.length s) p None s.

(** Shorthands: one character, a literal text, [a?], [a*], [a+],
    [a{n}], [a{n,}]. *)
Definition PChr (c : ascii) : pat := PCls (Ascii.eqb c).

Fixpoint PLit (s : string) : pat :=
  match s with
  | "" => PEps
  | String c r => PSeq (PChr c) (PLit r)
  end.

Definition POpt (a : pat) : pat := PRep 0 (Some 1) a.
Definition PStar (a : pat) : pat := PRep 0 None a.
Definition PPlus (a : pat) : pat := PRep 1 None a.
Definition PTimes (n : nat) (a : pat) : pat := PRep n (Some n) a.
Definition PAtLeast (n : nat) (a : pat) : pat := PRep n None a.

End Search.

(** ** engine.py: reading a free-form reference *)

Module RawText.
Import Py Search.
Import Validators (doi_char).

(** [10\.\d{4,9}/[-._;()/:A-Z0-9]+] under [re.I] *)
Definition doi_pattern : pat :=
  PSeq (PLit "10.")
    (PSeq (PRep 4 (Some 9) (PCls isdigit))
       (PSeq (PChr "/") (PPlus (PCls doi_char)))).

(** [https?://\S+] *)
Definition url_pattern : pat :=
  PSeq (PLit "http")
    (PSeq (POpt (PChr "s")) (PSeq (PLit "://") (PPlus (PCls (fun c => negb (isspace c)))))).

(** [\((\d{4})\)|\b(\d{4})\b] *)
Definition year_pattern : pat :=
  PAlt (PSeq (PChr "(") (PSeq (PGroup 1 (PTimes 4 (PCls isdigit))) (PChr ")")))
       (PSeq PWordB (PSeq (PGroup 2 (PTimes 4 (PCls isdigit))) PWordB)).

(** A code point above 255: the curly quotes of the title pattern.  No
    character of a text of this development is one. *)
Definition beyond_latin1 (c : ascii) : bool := false.

(** [[^q]] for a one-character [q]. *)
Definition other_than (q : ascii -> bool) (c : ascii) : bool := negb (q c).

(** One alternative of the title pattern: [q([^q']{3,})q'], group [i]. *)
Definition quoted (i : nat) (opening closing : ascii -> bool) : pat :=
  PSeq (PCls opening)
    (PSeq (PGroup i (PAtLeast 3 (PCls (other_than closing)))) (PCls closing)).

(** The title pattern: a text of three or more characters between
    straight double quotes (group 1), curly double quotes (2), curly
    single quotes (3) or straight single quotes (4). *)
Definition title_pattern : pat :=
  PAlt (quoted 1 (Ascii.eqb dquote) (Ascii.eqb dquote))
    (PAlt (quoted 2 beyond_latin1 beyond_latin1)
       (PAlt (quoted 3 beyond_latin1 beyond_latin1)
          (quoted 4 (Ascii.eqb squote) (Ascii.eqb squote)))).

Definition STOP : list string :=
  ["journal"; "proc."; "proceedings"; "algebra"; "math"; "math."; "appl."; "applied";
   "pure"; "transactions"; "ann."; "soc."; "society"; "forum"].

(** [\bJ\.?\s*[A-Z]] *)
Definition journal_initial : pat :=
  PSeq PWordB
    (PSeq (PChr "J")
       (PSeq (POpt (PChr ".")) (PSeq (PStar (PCls isspace)) (PCls is_ascii_upper)))).

(** [\b\d+\s*\(\d{4}\)\b] *)
Definition volume_year : pat :=
  PSeq PWordB
    (PSeq (PPlus (PCls isdigit))
       (PSeq (PStar (PCls isspace))
          (PSeq (PChr "(")
             (PSeq (PTimes 4 (PCls isdigit)) (PSeq (PChr ")") PWordB))))).

(** [\s+] *)
Definition spaces : pat := PPlus (PCls isspace).

Definition is_some {A} (o : option A) : bool :=
  match o with Some _ => true | None => false end.

(** The characters of [".,()[]"]. *)
Definition token_trim (c : ascii) : bool := existsb_str (Ascii.eqb c) ".,()[]".

Definition is_journalish (s : string) : bool :=
  let low := lower s in
  if is_some (search journal_initial s) then true
  else if is_some (search volume_year s) then true
  else
    let toks := split spaces low in
    existsb (fun t => Engine.in_list (strip_by token_trim t) STOP) toks.

(** [re.match(r"^[a-z]", w)] *)
Definition starts_lower (w : string) : bool :=
  is_some (match_at (PCls is_ascii_lower) {| before := None; after := w |}).

Definition is_titleish (s : string) : bool :=
  let words := List.filter Engine.nonempty (split spaces s) in
  if (length words <? 3)%nat then false
  else
    let lowers := length (List.filter starts_lower words) in
    (Nat.max 2 (length words / 3) <=? lowers)%nat.

(** The loop over the segments: the author segments gathered before it
    stops, and the title candidate if it stops on one. *)
Fixpoint scan_segments (segs : list string) : list string * option string :=
  match segs with
  | [] => ([], None)
  | seg :: rest =>
      if is_journalish seg then ([], None)
      else if is_titleish seg then ([], Some seg)
      else let '(authors, title) := scan_segments rest in (seg :: authors, title)
  end.

(** [[s.strip() for s in l if s.strip()]] *)
Definition stripped_nonblank (l : list string) : list string :=
  map strip (List.filter (fun s => Engine.nonempty (strip s)) l).

(** [list(dict.fromkeys(l))]: the first occurrence of every element. *)
Fixpoint first_occurrences (seen l : list string) : list string :=
  match l with
  | [] => []
  | x :: r =>
      if Engine.in_list x seen then first_occurrences seen r
      else x :: first_occurrences (x :: seen) r
  end.

(** The characters of [" ."]. *)
Definition space_or_dot (c : ascii) : bool := Ascii.eqb c " " || Ascii.eqb c ".".

(** [;|,| and ] *)
Definition name_separator : pat := PAlt (PChr ";") (PAlt (PChr ",") (PLit " and ")).

(** [m.group(i)] as a value, and [if m.group(i)] *)
Definition group_value (o : option string) : value :=
  match o with Some w => VStr w | None => VNone end.

(** The first of the groups 1 to 4 that is truthy. *)
Definition first_group (m : found) : option string :=
  List.find Engine.nonempty (omap (fun i => group i m) [1; 2; 3; 4]).

(** The [else] branch: title and authors guessed from the segments
    between commas. *)
Definition guess_title_authors (raw : string) (extracted : gmap string value)
    : gmap string value :=
  let segs := stripped_nonblank (split (PChr ",") raw) in
  let '(author_segments, title_candidate) := scan_segments segs in
  let extracted :=
    match title_candidate with
    | Some seg =>
        if Engine.nonempty seg
        then <["title" := VStr (strip_by space_or_dot (strip seg))]> extracted
        else extracted
    | None => extracted
    end in
  let names_raw := join ", " author_segments in
  let candidates := stripped_nonblank (split name_separator names_raw) in
  let filtered :=
    List.filter
      (fun c => negb (is_journalish c)
                && negb (length (words_by isspace (lower c)) <? 2)%nat)
      candidates in
  match filtered with
  | [] => extracted
  | _ => <["authors" := VList (map VStr (first_occurrences [] filtered))]> extracted
  end.

Definition extract_from_raw_text (raw : string) : gmap string value :=
  if raw =? "" then ∅
  else
    let m_doi := search doi_pattern raw in
    let m_url := search url_pattern raw in
    let m_year := search year_pattern raw in
    let m_title := search title_pattern raw in
    let extracted : gmap string value := ∅ in
    let extracted := <["doi" := group_value (whole <$> m_doi)]> extracted in
    let extracted := <["url" := group_value (whole <$> m_url)]> extracted in
    let extracted :=
      match m_year with
      | Some m => <["year" := por (group_value (group 1 m)) (group_value (group 2 m))]> extracted
      | None => extracted
      end in
    match m_title with
    | Some m =>
        match first_group m with
        | Some t => <["title" := VStr t]> extracted
        | None => extracted
        end
    | None => guess_title_authors raw extracted
    end.

End RawText.

(** ** csl_engine.py: a bibliography of several items *)

Module Bibliography.
Import Py CslEngine CslJson.

Definition newline : string := String (ascii_of_N 10) "".

(** [it.get("source_type")] as the [source_type] argument of
    [map_to_csl_json], which calls [.lower()] on it unless it is falsy. *)
Definition source_type_of (it : gmap string value) : result (option string) :=
  match get it "source_type" with
  | VStr s => Ok (Some s)
  | v => if truthy v then Raise AttributeError else Ok None
  end.

(** [citeproc_bibliography] stands for the body of the [try] block:
    rendering the CSL items through [citeproc] and joining the entries,
    which returns the text or raises.  The items are mapped to CSL-JSON
    before the [try], so an item that cannot be mapped makes the function
    raise. *)
Definition format_bibliography_with_csl (e : env)
    (citeproc_bibliography : string -> list csl_item -> result string)
    (style : option string) (items : list (gmap string value)) (include_doi : bool)
    : result string :=
  if negb (CITEPROC_AVAILABLE e) then Raise (RuntimeError "citeproc-py not installed")
  else
    let style_path := _style_path e style in
    if negb (path_exists e style_path)
    then Raise (FileNotFoundError ("CSL style file not found: " +:+ style_path))
    else
      csl_items ← map_result
                    (fun it => source_type ← source_type_of it;
                               map_to_csl_json it source_type include_doi)
                    items;
      catch (citeproc_bibliography style_path csl_items)
            (entries ← map_result manual_format items; Ok (join newline entries)).

End Bibliography.

(** ** engine.py: a batch of raw items *)

Module Batch.
Import Py Engine RawText.

(** An item of the batch: a reference as text, or a dict of metadata. *)
Inductive batch_item :=
| Text (raw : string)
| Record (raw : gmap string value).

(** [extract_from_raw_text(v)] for the value [raw.get("raw_text") or ""]:
    a value that is not a text is falsy, and gives [{}], or makes
    [re.search] raise. *)
Definition extract_from_value (v : value) : result (gmap string value) :=
  match v with
  | VStr s => Ok (extract_from_raw_text s)
  | _ => if truthy v then Raise TypeError else Ok ∅
  end.

(** [fetch] stands for [fetch_metadata_from_doi], the Crossref lookup:
    it returns a dict or [None] and never raises. *)
Definition process_item (fetch : value -> option (gmap string value)) (raw : batch_item)
    : result (gmap string value) :=
  match raw with
  | Text raw =>
      let extracted := extract_from_raw_text raw in
      md ← normalize_metadata (Some ∅);
      Ok (merge_metadata md extracted)
  | Record raw =>
      md ← normalize_metadata (Some raw);
      extracted ← extract_from_value (por (get raw "raw_text") (VStr ""));
      let merged := merge_metadata md extracted in
      if truthy (get merged "doi") && negb (truthy (get merged "title")) then
        match fetch (get merged "doi") with
        | Some fetched =>
            if bool_decide (fetched = ∅) then Ok merged
            else Ok (merge_metadata merged fetched)
        | None => Ok merged
        end
      else Ok merged
  end.

Definition process_batch_items (fetch : value -> option (gmap string value))
    (items : list batch_item) : result (list (gmap string value)) :=
  CslJson.map_result (process_item fetch) items.

End Batch.

(** ** Further notions used in the statements *)

Module MoreNotions.
Import Py Re Validators CslEngine Ltm Engine Notions.


(** No white space stands next to a hyphen. *)
Fixpoint tidy_dashes (s : string) : bool :=
  match s with
  | "" => true
  | String c r =>
      match r with
      | "" => true
      | String d _ =>
          negb (isspace c && Ascii.eqb d "-") && negb (Ascii.eqb c "-" && isspace d)
          && tidy_dashes r
      end
  end.

(** What [normalize_metadata] does to the value under ["pages"]. *)
Definition pages_field (v : value) : value :=
  match v with
  | VStr p => if nonempty p then VStr (sub_dashes false "" (strip p)) else v
  | _ => v
  end.

(** The text begins with [http://] or [https://], in any letter case. *)
Definition has_http_scheme (s : string) : bool :=
  startswith "http://" (lower s) || startswith "https://" (lower s).

(** The shape of a DOI: [10.], four to nine digits, a slash, and one or
    more characters among letters, digits and [-._;()/:]. *)
Definition doi_shape (s : string) : Prop :=
  exists digits suffix : string,
    s = "10." +:+ digits +:+ "/" +:+ suffix
    /\ 4 <= String.length digits <= 9
    /\ forallb_str isdigit digits = true
    /\ suffix <> ""
    /\ forallb_str doi_char suffix = true.

(** The key under which [detect_duplicates] remembers an item, if it has
    one. *)
Definition item_key (it : gmap string value) : option string :=
  match dup_key it with
  | Ok k => if nonempty k then Some k else None
  | Raise _ => None
  end.

(** The keys of the items of a list that have one, in order. *)
Definition keys_of (l : list (gmap string value)) : list string := omap item_key l.

(** The item has a key the duplicate lookup handles reliably: a
    non-empty doi of plain characters, or no doi and a non-blank title of
    plain characters. *)
Definition plainly_keyed (item : gmap string value) : bool :=
  match get item "doi" with
  | VStr d => if nonempty d then forallb_str plain_char d
              else match get item "title" with
                   | VStr t => nonempty (strip t) && forallb_str plain_char t
                   | _ => false
                   end
  | v => negb (truthy v)
         && match get item "title" with
            | VStr t => nonempty (strip t) && forallb_str plain_char t
            | _ => false
            end
  end.

Definition is_text (v : value) : bool :=
  match v with VStr _ => true | _ => false end.

(** The fields the manual concatenation reads have the types it expects:
    authors a text or a list of texts (or nothing), title, journal and
    publisher texts or falsy, and the url a text or falsy when there is no
    doi. *)
Definition renderable (item : gmap string value) : bool :=
  match por (get item "authors")
            (if negb (truthy (get item "author")) then VList [] else VList [get item "author"])
  with
  | VStr _ => true
  | VList l => forallb is_text l
  | v => negb (truthy v)
  end
  && title_is_text item
  && is_text (por (por (get item "journal") (get item "publisher")) (VStr ""))
  && (truthy (get item "doi") || is_text (por (get item "url") (VStr ""))).

(** The value whose elements become the names of a citation:
    [item.get("authors") or ([] if not item.get("author") else [item.get("author")])]. *)
Definition author_values (item : gmap string value) : value :=
  por (get item "authors")
      (if negb (truthy (get item "author")) then VList [] else VList [get item "author"]).

(** [d] stands in [raw] as it is. *)
Definition piece_of (d raw : string) : Prop := exists a b : string, raw = a +:+ d +:+ b.

(** The record [normalize_metadata] returns for an empty dict. *)
Definition batch_blank : gmap string value :=
  list_to_map
    [("title", VStr ""); ("authors", VList []); ("year", VNone); ("journal", VNone);
     ("publisher", VNone); ("volume", VNone); ("issue", VNone); ("pages", VNone);
     ("doi", VNone); ("url", VNone); ("raw_text", VNone); ("source_type", VNone)].

End MoreNotions.

(** * Properties *)

Import Py Re Validators CslEngine Ltm Engine Notions.

(** ** Characters and strings *)

Ltac by_cases_on_char c :=
  destruct c as [[] [] [] [] [] [] [] []]; vm_compute; reflexivity.

Lemma isspace_char_lower (c : ascii) : isspace (char_lower c) = isspace c.
Proof. by_cases_on_char c. Qed.

Lemma char_lower_idem (c : ascii) : char_lower (char_lower c) = char_lower c.
Proof. by_cases_on_char c. Qed.

Lemma lower_idem (s : string) : lower (lower s) = lower s.
Proof.
  induction s as [|c r IH]; simpl; [reflexivity|].
  now rewrite char_lower_idem, IH.
Qed.

Lemma lower_empty_iff (s : string) : lower s = "" <-> s = "".
Proof. destruct s; simpl; split; intros H; congruence. Qed.

Lemma nonempty_lower (s : string) : nonempty (lower s) = nonempty s.
Proof. destruct s; reflexivity. Qed.

Lemma nonempty_false (s : string) : nonempty s = false <-> s = "".
Proof. destruct s; cbn; split; intros H; (reflexivity || discriminate H). Qed.

Lemma nonempty_true (s : string) : nonempty s = true <-> s <> "".
Proof. destruct s; cbn; split; intros H; try reflexivity; try discriminate; now contradict H. Qed.

Section Strip.
Variable ws : ascii -> bool.

Lemma lstrip_by_clean (s : string) : clean_start ws (lstrip_by ws s).
Proof.
  induction s as [|c r IH]; simpl; [exact I|].
  destruct (ws c) eqn:E; [exact IH|exact E].
Qed.

Lemma lstrip_by_fixed (s : string) : clean_start ws s -> lstrip_by ws s = s.
Proof. destruct s as [|c r]; simpl; [reflexivity|]. now intros ->. Qed.

Lemma rstrip_by_cons_keep (c : ascii) (r : string) :
  ws c = false -> rstrip_by ws (String c r) = String c (rstrip_by ws r).
Proof. intros E. simpl. rewrite E. now destruct (rstrip_by ws r). Qed.

Lemma rstrip_by_clean (s : string) : clean_start ws s -> clean_start ws (rstrip_by ws s).
Proof.
  destruct s as [|c r]; [intros _; exact I|].
  intros E. simpl in E. now rewrite rstrip_by_cons_keep.
Qed.

Lemma rstrip_by_idem (s : string) : rstrip_by ws (rstrip_by ws s) = rstrip_by ws s.
Proof.
  induction s as [|c r IH]; [reflexivity|].
  simpl. destruct (rstrip_by ws r) as [|d t] eqn:E.
  - destruct (ws c) eqn:Ec; simpl; [reflexivity|now rewrite Ec].
  - change (rstrip_by ws (String c (String d t)) = String c (String d t)).
    cbn [rstrip_by]. cbn [rstrip_by] in IH. now rewrite IH.
Qed.

Lemma strip_by_idem (s : string) : strip_by ws (strip_by ws s) = strip_by ws s.
Proof.
  unfold strip_by.
  rewrite (lstrip_by_fixed (rstrip_by ws (lstrip_by ws s))).
  - apply rstrip_by_idem.
  - apply rstrip_by_clean, lstrip_by_clean.
Qed.
End Strip.

Lemma strip_idem (s : string) : strip (strip s) = strip s.
Proof. apply strip_by_idem. Qed.

Lemma lstrip_lower (s : string) :
  lstrip_by isspace (lower s) = lower (lstrip_by isspace s).
Proof.
  induction s as [|c r IH]; simpl; [reflexivity|].
  rewrite isspace_char_lower. now destruct (isspace c).
Qed.

Lemma rstrip_lower (s : string) :
  rstrip_by isspace (lower s) = lower (rstrip_by isspace s).
Proof.
  induction s as [|c r IH]; simpl; [reflexivity|].
  rewrite IH, isspace_char_lower.
  destruct (rstrip_by isspace r); simpl; [now destruct (isspace c)|reflexivity].
Qed.

Lemma strip_lower (s : string) : strip (lower s) = lower (strip s).
Proof. unfold strip, strip_by. now rewrite lstrip_lower, rstrip_lower. Qed.

(** *** [replace] runs out of text before it runs out of fuel *)

Lemma drop_length (n : nat) (s : string) : String.length (drop n s) <= String.length s.
Proof.
  revert s. induction n as [|n IH]; intros s; [reflexivity|].
  destruct s as [|c r]; simpl; [lia|]. specialize (IH r). lia.
Qed.

Lemma partition_shorter (sep s a b : string) :
  sep <> "" -> partition sep s = Some (a, b) -> String.length b < String.length s.
Proof.
  intros Hsep. revert a b. induction s as [|c r IH]; intros a b.
  - destruct sep; [now contradict Hsep|]. simpl. discriminate.
  - cbn [partition]. destruct (startswith sep (String c r)).
    + intros [= <- <-]. destruct sep as [|d sep']; [now contradict Hsep|].
      simpl. pose proof (drop_length (String.length sep') r). lia.
    + destruct (partition sep r) as [[a' b']|] eqn:E; [|discriminate].
      intros [= <- <-]. specialize (IH a' b' eq_refl). simpl. lia.
Qed.

Lemma replace_all_fuel_enough (old new : string) :
  old <> "" ->
  forall (f1 f2 : nat) (s : string),
    String.length s < f1 -> String.length s < f2 ->
    replace_all_fuel f1 old new s = replace_all_fuel f2 old new s.
Proof.
  intros Hold. induction f1 as [|f1 IH]; intros f2 s H1 H2; [lia|].
  destruct f2 as [|f2]; [lia|]. cbn [replace_all_fuel].
  destruct (partition old s) as [[a b]|] eqn:E; [|reflexivity].
  pose proof (partition_shorter old s a b Hold E).
  rewrite (IH f2 b) by lia. reflexivity.
Qed.

(** [replace_all] satisfies the equation of [str.replace]. *)
Lemma replace_all_unfold (old new s : string) :
  old <> "" ->
  replace_all old new s =
    match partition old s with
    | Some (a, b) => a +:+ new +:+ replace_all old new b
    | None => s
    end.
Proof.
  intros Hold. unfold replace_all. cbn [replace_all_fuel].
  destruct (partition old s) as [[a b]|] eqn:E; [|reflexivity].
  pose proof (partition_shorter old s a b Hold E).
  rewrite (replace_all_fuel_enough old new Hold (String.length s) (S (String.length b)) b)
    by lia.
  reflexivity.
Qed.

(** ** Merger *)

Lemma merge_step_keeps (merged : gmap string value) (kv : string * value) (k : string) :
  truthy (get merged k) = true -> merge_step merged kv !! k = merged !! k.
Proof.
  intros Hk. unfold merge_step. destruct kv as [k' v]; simpl.
  destruct (decide (k' = k)) as [->|Hne].
  - now rewrite Hk.
  - destruct (negb (truthy (get merged k')) && truthy v); [|reflexivity].
    now rewrite lookup_insert_ne.
Qed.

Lemma foldl_merge_step_keeps (l : list (string * value)) :
  forall (base : gmap string value) (k : string),
    truthy (get base k) = true -> foldl merge_step base l !! k = base !! k.
Proof.
  induction l as [|kv l IH]; intros base k Hk; simpl; [reflexivity|].
  rewrite IH.
  - now apply merge_step_keeps.
  - unfold get. rewrite merge_step_keeps by exact Hk. exact Hk.
Qed.

(** C1. A key that is truthy in [base] keeps its value in
    [merge_metadata base incoming], whatever [incoming] holds: the merged
    record has the same entry, and so reads the same through [get]. *)
Theorem merge_metadata_keeps_truthy (base incoming : gmap string value) (k : string) :
  truthy (get base k) = true ->
  merge_metadata base incoming !! k = base !! k
  /\ get (merge_metadata base incoming) k = get base k.
Proof.
  intros Hk.
  assert (H : merge_metadata base incoming !! k = base !! k)
    by now apply foldl_merge_step_keeps.
  split; [exact H|]. unfold get. now rewrite H.
Qed.

Lemma merge_metadata_keeps_truthy_witness :
  merge_metadata {[ "title" := VStr "Trusted" ]} {[ "title" := VStr "Guess" ]} !! "title"
  = ({[ "title" := VStr "Trusted" ]} : gmap string value) !! "title"
  /\ get (merge_metadata {[ "title" := VStr "Trusted" ]} {[ "title" := VStr "Guess" ]}) "title"
     = get {[ "title" := VStr "Trusted" ]} "title".
Proof.
  apply (merge_metadata_keeps_truthy {[ "title" := VStr "Trusted" ]}
           {[ "title" := VStr "Guess" ]} "title").
  reflexivity.
Defined.

Lemma merge_step_other (merged : gmap string value) (k' k : string) (v : value) :
  k' <> k -> merge_step merged (k', v) !! k = merged !! k.
Proof.
  intros Hne. unfold merge_step; simpl.
  destruct (negb (truthy (get merged k')) && truthy v); [|reflexivity].
  now rewrite lookup_insert_ne.
Qed.

Lemma foldl_merge_step_lookup (l : list (string * value)) :
  NoDup l.*1 ->
  forall (base : gmap string value) (k : string),
    foldl merge_step base l !! k =
      if truthy (get base k) then base !! k
      else match (list_to_map l : gmap string value) !! k with
           | Some v => if truthy v then Some v else base !! k
           | None => base !! k
           end.
Proof.
  induction l as [|[k' v] l IH]; intros Hnd base k.
  - simpl. rewrite lookup_empty. now destruct (truthy (get base k)).
  - simpl in Hnd. apply NoDup_cons in Hnd as [Hk' Hnd].
    cbn [foldl list_to_map foldr]. rewrite (IH Hnd).
    destruct (decide (k' = k)) as [->|Hne].
    + rewrite lookup_insert_eq.
      rewrite (not_elem_of_list_to_map_1 l k) by exact Hk'.
      unfold merge_step; simpl.
      destruct (truthy (get base k)) eqn:Hb; simpl.
      * now rewrite Hb.
      * destruct (truthy v) eqn:Hv.
        -- rewrite lookup_insert_eq. now destruct (truthy (get (<[k:=v]> base) k)).
        -- now rewrite Hb.
    + unfold get. rewrite merge_step_other by exact Hne.
      now rewrite lookup_insert_ne by exact Hne.
Qed.

(** The merged record, key by key: the entry of [base] where it is truthy,
    else the entry of [incoming] where that one is truthy, else the entry
    of [base] again. *)
Lemma merge_metadata_lookup (base incoming : gmap string value) (k : string) :
  merge_metadata base incoming !! k =
    if truthy (get base k) then base !! k
    else if truthy (get incoming k) then incoming !! k
    else base !! k.
Proof.
  unfold merge_metadata.
  rewrite foldl_merge_step_lookup by apply NoDup_fst_map_to_list.
  rewrite list_to_map_to_list. unfold get at 3.
  destruct (incoming !! k); reflexivity.
Qed.

(** ** Normalizer *)

(** The shape of the record [normalize_metadata] returns. *)
Lemma normalize_metadata_inv (metadata : option (gmap string value)) (r : gmap string value) :
  normalize_metadata metadata = Ok r ->
  let md := default ∅ metadata in
  exists authors : value,
    r = list_to_map [
      ("title", get_default md "title" (VStr ""));
      ("authors", authors);
      ("year", get md "year");
      ("journal", get md "journal");
      ("publisher", get md "publisher");
      ("volume", get md "volume");
      ("issue", get md "issue");
      ("pages", match get md "pages" with
                | VStr pages =>
                    if nonempty pages then VStr (sub_dashes false "" (strip pages))
                    else get md "pages"
                | _ => get md "pages"
                end);
      ("doi", doi_field (get md "doi"));
      ("url", get md "url");
      ("raw_text", get md "raw_text");
      ("source_type", get md "source_type")
    ].
Proof.
  intros H md. unfold normalize_metadata in H.
  match type of H with
  | mbind _ ?a = _ => destruct a as [authors|e] eqn:Ea
  end; [|discriminate H].
  exists authors. cbn in H. injection H as <-.
  unfold doi_field. subst md.
  destruct (get (default ∅ metadata) "doi"); reflexivity.
Qed.

Ltac lookup_in_record :=
  cbn [list_to_map foldr fst snd uncurry];
  repeat (rewrite lookup_insert_ne by discriminate);
  rewrite ?lookup_insert_eq.

Lemma normalize_metadata_doi (metadata : option (gmap string value)) (r : gmap string value) :
  normalize_metadata metadata = Ok r ->
  r !! "doi" = Some (doi_field (get (default ∅ metadata) "doi")).
Proof.
  intros H. destruct (normalize_metadata_inv _ _ H) as [authors ->].
  lookup_in_record. reflexivity.
Qed.

(** A record that only carries a doi is always normalised. *)
Lemma normalize_metadata_doi_only (v : value) :
  exists r, normalize_metadata (Some {[ "doi" := v ]}) = Ok r.
Proof.
  unfold normalize_metadata. cbn [default from_option]. unfold id.
  assert (Ha : get {[ "doi" := v ]} "author" = VNone).
  { unfold get. now rewrite lookup_singleton_ne by discriminate. }
  assert (Hb : get {[ "doi" := v ]} "authors" = VNone).
  { unfold get. now rewrite lookup_singleton_ne by discriminate. }
  rewrite Ha, Hb. cbn. eexists. reflexivity.
Qed.

(** A text that is already trimmed, lower-cased and free of the prefixes
    is left as it is. *)
Lemma normalize_doi_fixed (d : string) :
  strip d = d -> lower d = d -> has_doi_prefix (VStr d) = false ->
  normalize_doi d = d.
Proof.
  intros Hs Hl Hp. unfold normalize_doi. rewrite Hs, Hl.
  unfold has_doi_prefix in Hp. rewrite Hp. now rewrite Hs, Hl.
Qed.

Lemma normalize_doi_trimmed (s : string) : strip (normalize_doi s) = normalize_doi s.
Proof. unfold normalize_doi. now rewrite strip_lower, strip_idem. Qed.

Lemma normalize_doi_lowered (s : string) : lower (normalize_doi s) = normalize_doi s.
Proof. unfold normalize_doi. now rewrite lower_idem. Qed.

Lemma doi_field_fixed (v : value) :
  has_doi_prefix (doi_field v) = false -> doi_field (doi_field v) = doi_field v.
Proof.
  destruct v as [| | |s|]; try reflexivity.
  cbn [doi_field]. destruct (nonempty s) eqn:Es; intros Hp; cbn [doi_field].
  - destruct (nonempty (normalize_doi s)); [|reflexivity].
    f_equal. apply normalize_doi_fixed;
      [apply normalize_doi_trimmed|apply normalize_doi_lowered|exact Hp].
  - now rewrite Es.
Qed.

(** C3. A prefix written in mixed case is recognised (the test reads the
    lower-cased text) but not removed (the removal looks for [DOI:],
    [doi:] and [doi.org/] as written): the doi comes back lower-cased with
    its prefix still in front. *)
Theorem normalize_metadata_mixed_case_prefix_kept :
  field (normalize_metadata (Some {[ "doi" := VStr "Doi:10.1000/xyz123" ]})) "doi"
  = Some (VStr "doi:10.1000/xyz123")
  /\ field (normalize_metadata (Some {[ "doi" := VStr "HTTPS://DOI.ORG/10.1000/xyz123" ]})) "doi"
     = Some (VStr "https://doi.org/10.1000/xyz123").
Proof. split; vm_compute; reflexivity. Qed.

(** The prefixes in the spellings the removal knows are stripped. *)
Example normalize_metadata_known_prefixes :
  map (fun s => field (normalize_metadata (Some {[ "doi" := VStr s ]})) "doi")
      [ "doi:10.1000/XYZ123"; "DOI:10.1000/xyz123"; " https://doi.org/10.1000/Xyz123 ";
        "http://doi.org/10.1000/xyz123"; "10.1000/XYZ123" ]
  = repeat (Some (VStr "10.1000/xyz123")) 5.
Proof. vm_compute. reflexivity. Qed.

(** C4, as stated, fails: one pass removes one [doi:] only, so the doi of
    the first pass still carries a prefix and the second pass changes it. *)
Lemma normalize_metadata_doi_not_idempotent :
  field (normalize_metadata (Some {[ "doi" := VStr "doi:doi:10.1000/xyz123" ]})) "doi"
  = Some (VStr "doi:10.1000/xyz123")
  /\ field (normalize_metadata (Some {[ "doi" := VStr "doi:10.1000/xyz123" ]})) "doi"
     = Some (VStr "10.1000/xyz123")
  /\ VStr "doi:10.1000/xyz123" <> VStr "10.1000/xyz123".
Proof. repeat split; try (vm_compute; reflexivity). discriminate. Qed.

(** C4, amended. When the doi that [normalize_metadata] returns does not
    itself begin with [doi:], [http://doi.org/] or [https://doi.org/],
    normalising it again returns it unchanged. *)
Theorem normalize_metadata_doi_idempotent (x r : gmap string value) :
  normalize_metadata (Some x) = Ok r ->
  has_doi_prefix (get r "doi") = false ->
  exists r', normalize_metadata (Some {[ "doi" := get r "doi" ]}) = Ok r'
             /\ get r' "doi" = get r "doi".
Proof.
  intros Hr Hp.
  pose proof (normalize_metadata_doi _ _ Hr) as Hd. cbn [default from_option] in Hd.
  assert (Hg : get r "doi" = doi_field (get x "doi")) by (unfold get at 1; now rewrite Hd).
  destruct (normalize_metadata_doi_only (get r "doi")) as [r' Hr'].
  exists r'. split; [exact Hr'|].
  pose proof (normalize_metadata_doi _ _ Hr') as Hd'. cbn [default from_option] in Hd'.
  unfold get at 1. rewrite Hd'. cbn [default from_option id].
  unfold get at 1. rewrite lookup_singleton_eq. cbn [default from_option id].
  rewrite Hg in Hp |- *. now apply doi_field_fixed.
Qed.

Lemma normalize_metadata_doi_idempotent_witness :
  exists r', normalize_metadata
               (Some {[ "doi" := get (list_to_map [
                  ("title", VStr ""); ("authors", VList []); ("year", VNone);
                  ("journal", VNone); ("publisher", VNone); ("volume", VNone);
                  ("issue", VNone); ("pages", VNone); ("doi", VStr "10.1000/xyz123");
                  ("url", VNone); ("raw_text", VNone); ("source_type", VNone)]) "doi" ]})
             = Ok r'
             /\ get r' "doi" = get (list_to_map [
                  ("title", VStr ""); ("authors", VList []); ("year", VNone);
                  ("journal", VNone); ("publisher", VNone); ("volume", VNone);
                  ("issue", VNone); ("pages", VNone); ("doi", VStr "10.1000/xyz123");
                  ("url", VNone); ("raw_text", VNone); ("source_type", VNone)]) "doi".
Proof.
  apply (normalize_metadata_doi_idempotent {[ "doi" := VStr " DOI:10.1000/XYZ123" ]}).
  - vm_compute. reflexivity.
  - vm_compute. reflexivity.
Defined.

Lemma normalize_metadata_returns (metadata : option (gmap string value)) :
  is_ok (normalize_metadata metadata) = authors_field_ok (default ∅ metadata).
Proof.
  unfold normalize_metadata, authors_field_ok, _split_authors.
  destruct (por (get (default ∅ metadata) "author") (get (default ∅ metadata) "authors"))
    as [|[]|z|s|l]; try reflexivity.
  - destruct z; reflexivity.
  - destruct s; reflexivity.
Qed.

(** C8, as stated, fails for [title]: a record without a title comes back
    with the empty string as its title. *)
Lemma normalize_metadata_title_defaulted :
  (∅ : gmap string value) !! "title" = None
  /\ field (normalize_metadata (Some ∅)) "title" = Some (VStr "")
  /\ field (normalize_metadata None) "title" = Some (VStr "").
Proof. repeat split; vm_compute; reflexivity. Qed.

(** C8, amended. [normalize_metadata] returns (unless the author field is
    a number or a truth value), and in the record it returns [year],
    [journal], [publisher], [volume], [issue], [url], [raw_text] and
    [source_type] are what [get] reads in the input, so an absent field
    stays [None]; [title] is the input's value when the input has the key
    and the empty string when it has not. *)
Theorem normalize_metadata_passthrough (metadata : option (gmap string value)) :
  authors_field_ok (default ∅ metadata) = true ->
  exists r, normalize_metadata metadata = Ok r
    /\ (forall k, In k copied_fields -> r !! k = Some (get (default ∅ metadata) k))
    /\ r !! "title" = Some (match default ∅ metadata !! "title" with
                            | Some v => v
                            | None => VStr ""
                            end).
Proof.
  intros Hok. rewrite <- normalize_metadata_returns in Hok.
  destruct (normalize_metadata metadata) as [r|e] eqn:Hr; [|discriminate Hok].
  exists r. split; [reflexivity|].
  destruct (normalize_metadata_inv _ _ Hr) as [authors ->].
  split.
  - intros k Hk. unfold copied_fields in Hk. cbn [In] in Hk.
    repeat (destruct Hk as [<-|Hk]; [lookup_in_record; reflexivity|]).
    destruct Hk.
  - lookup_in_record. unfold get_default.
    now destruct (default ∅ metadata !! "title").
Qed.

Lemma normalize_metadata_passthrough_witness :
  exists r, normalize_metadata (Some ({[ "year" := VInt 2020 ]} : gmap string value)) = Ok r
    /\ (forall k, In k copied_fields ->
          r !! k = Some (get (default ∅ (Some ({[ "year" := VInt 2020 ]} : gmap string value))) k))
    /\ r !! "title" = Some (match default ∅ (Some ({[ "year" := VInt 2020 ]} : gmap string value)) !! "title" with
                            | Some v => v
                            | None => VStr ""
                            end).
Proof.
  apply (normalize_metadata_passthrough (Some ({[ "year" := VInt 2020 ]} : gmap string value))).
  vm_compute. reflexivity.
Defined.

(** *** Splitting an author string *)

Section Split.
Variable cls : ascii -> bool.

Lemma re_split_class_not_nil (s : string) : re_split_class cls s <> [].
Proof.
  destruct s as [|c r]; simpl; [discriminate|].
  destruct (cls c); [discriminate|].
  destruct (re_split_class cls r); discriminate.
Qed.

(** One more segment than there are separators. *)
Lemma re_split_class_length (s : string) :
  length (re_split_class cls s) = S (count cls s).
Proof.
  induction s as [|c r IH]; simpl; [reflexivity|].
  destruct (cls c); simpl; [now rewrite IH|].
  destruct (re_split_class cls r) eqn:E; [now apply re_split_class_not_nil in E|].
  exact IH.
Qed.

(** No segment holds a separator. *)
Lemma re_split_class_no_sep (s : string) :
  Forall (fun p => existsb_str cls p = false) (re_split_class cls s).
Proof.
  induction s as [|c r IH]; simpl; [now constructor|].
  destruct (cls c) eqn:Ec; [now constructor|].
  destruct (re_split_class cls r) as [|p ps]; [repeat constructor; simpl; now rewrite Ec|].
  inversion IH as [|? ? Hp Hps]; subst.
  constructor; [simpl; now rewrite Ec|exact Hps].
Qed.

(** The segments, put end to end, are the text without its separators. *)
Lemma re_split_class_concat (s : string) :
  concat_str (re_split_class cls s) = keep (fun c => negb (cls c)) s.
Proof.
  induction s as [|c r IH]; simpl; [reflexivity|].
  destruct (cls c); simpl; [exact IH|].
  destruct (re_split_class cls r) as [|p ps] eqn:E; [now apply re_split_class_not_nil in E|].
  rewrite <- IH. reflexivity.
Qed.

Lemma lstrip_by_no_sep (ws : ascii -> bool) (s : string) :
  existsb_str cls s = false -> existsb_str cls (lstrip_by ws s) = false.
Proof.
  induction s as [|c r IH]; simpl; [reflexivity|].
  intros H. apply orb_false_iff in H as [Hc Hr].
  destruct (ws c); [now apply IH|]. simpl. now rewrite Hc, Hr.
Qed.

Lemma rstrip_by_no_sep (ws : ascii -> bool) (s : string) :
  existsb_str cls s = false -> existsb_str cls (rstrip_by ws s) = false.
Proof.
  induction s as [|c r IH]; simpl; [reflexivity|].
  intros H. apply orb_false_iff in H as [Hc Hr]. specialize (IH Hr).
  destruct (rstrip_by ws r).
  - destruct (ws c); simpl; [reflexivity|now rewrite Hc].
  - change (existsb_str cls (String c (String a s)))
      with (cls c || existsb_str cls (String a s)).
    now rewrite Hc, IH.
Qed.
End Split.

Lemma filter_strip_comm (l : list string) :
  map strip (List.filter (fun p => nonempty (strip p)) l)
  = List.filter nonempty (map strip l).
Proof.
  induction l as [|p l IH]; simpl; [reflexivity|].
  destruct (nonempty (strip p)); simpl; now rewrite IH.
Qed.

(** Every author segment is non-empty, trimmed and free of separators. *)
Lemma author_segments_clean (s : string) :
  Forall (fun p => p <> "" /\ strip p = p /\ existsb_str author_sep p = false)
         (author_segments s).
Proof.
  unfold author_segments.
  pose proof (re_split_class_no_sep author_sep s) as H.
  induction H as [|q l Hq Hl IH]; simpl; [constructor|].
  destruct (nonempty (strip q)) eqn:E; [|exact IH].
  constructor; [|exact IH].
  split; [now apply nonempty_true|]. split; [apply strip_idem|].
  unfold strip, strip_by. now apply rstrip_by_no_sep, lstrip_by_no_sep.
Qed.

Lemma por_text (s : string) (v : value) : s <> "" -> por (VStr s) v = VStr s.
Proof. destruct s; [now intros []|reflexivity]. Qed.

Lemma _split_authors_text (s : string) :
  s <> "" ->
  _split_authors (VStr s)
  = Ok (match author_segments s with [] => [strip s] | segs => segs end).
Proof.
  intros Hs. unfold _split_authors.
  apply nonempty_true in Hs. cbn [truthy]. fold (nonempty s). rewrite Hs. cbn [negb].
  rewrite filter_strip_comm. fold (author_segments s).
  now destruct (author_segments s).
Qed.

(** C7, as stated, fails on a string made of separators: it has no
    non-empty segment, yet one author comes back, the string itself. *)
Lemma normalize_metadata_author_separators_only :
  author_segments ";" = []
  /\ field (normalize_metadata (Some {[ "author" := VStr ";" ]})) "authors"
     = Some (VList [VStr ";"]).
Proof. split; vm_compute; reflexivity. Qed.

(** C7, amended. For a non-empty string in [author], the authors returned
    are the trimmed non-empty segments of the split on [;] and [,], in
    order and hence as many, provided there is at least one; when every
    segment is blank, the single author returned is the trimmed string. *)
Theorem normalize_metadata_author_string (md : gmap string value) (s : string) :
  get md "author" = VStr s ->
  s <> "" ->
  exists r authors,
    normalize_metadata (Some md) = Ok r
    /\ r !! "authors" = Some (VList (map VStr authors))
    /\ (author_segments s <> [] ->
        authors = author_segments s /\ length authors = length (author_segments s))
    /\ (author_segments s = [] -> authors = [strip s]).
Proof.
  intros Ha Hs.
  exists (list_to_map [
      ("title", get_default md "title" (VStr ""));
      ("authors", VList (map VStr (match author_segments s with
                                   | [] => [strip s]
                                   | segs => segs
                                   end)));
      ("year", get md "year");
      ("journal", get md "journal");
      ("publisher", get md "publisher");
      ("volume", get md "volume");
      ("issue", get md "issue");
      ("pages", match get md "pages" with
                | VStr pages =>
                    if nonempty pages then VStr (sub_dashes false "" (strip pages))
                    else get md "pages"
                | _ => get md "pages"
                end);
      ("doi", doi_field (get md "doi"));
      ("url", get md "url");
      ("raw_text", get md "raw_text");
      ("source_type", get md "source_type")
    ]).
  exists (match author_segments s with [] => [strip s] | segs => segs end).
  split; [|split; [|split]].
  - unfold normalize_metadata. cbn [default from_option]. unfold id.
    rewrite Ha. rewrite !por_text by exact Hs. cbv beta iota.
    rewrite (_split_authors_text s Hs). cbn [mbind result_bind bind].
    unfold doi_field. destruct (get md "doi"); reflexivity.
  - lookup_in_record. reflexivity.
  - intros Hne. destruct (author_segments s); [now contradict Hne|]. now split.
  - now intros ->.
Qed.

Lemma normalize_metadata_author_string_witness :
  exists r authors,
    normalize_metadata (Some {[ "author" := VStr "Ada Lovelace; Turing, Alan ;" ]}) = Ok r
    /\ r !! "authors" = Some (VList (map VStr authors))
    /\ (author_segments "Ada Lovelace; Turing, Alan ;" <> [] ->
        authors = author_segments "Ada Lovelace; Turing, Alan ;"
        /\ length authors = length (author_segments "Ada Lovelace; Turing, Alan ;"))
    /\ (author_segments "Ada Lovelace; Turing, Alan ;" = [] ->
        authors = [strip "Ada Lovelace; Turing, Alan ;"]).
Proof.
  apply (normalize_metadata_author_string
           {[ "author" := VStr "Ada Lovelace; Turing, Alan ;" ]}
           "Ada Lovelace; Turing, Alan ;").
  - reflexivity.
  - discriminate.
Defined.

Example author_segments_example :
  author_segments "Ada Lovelace; Turing, Alan ;" = ["Ada Lovelace"; "Turing"; "Alan"].
Proof. vm_compute. reflexivity. Qed.

(** ** Renderer *)

Lemma format_with_csl_without_engine (e : env) (style : option string)
    (item : gmap string value) (source_type : option string) (include_doi : bool) :
  CITEPROC_AVAILABLE e = false ->
  format_with_csl e style item source_type include_doi
  = Raise (RuntimeError "citeproc-py not installed").
Proof. intros H. unfold format_with_csl. now rewrite H. Qed.

Lemma format_with_csl_without_style_file (e : env) (style : option string)
    (item : gmap string value) (source_type : option string) (include_doi : bool) :
  CITEPROC_AVAILABLE e = true ->
  path_exists e (_style_path e style) = false ->
  format_with_csl e style item source_type include_doi
  = Raise (FileNotFoundError ("CSL style file not found: " +:+ _style_path e style)).
Proof. intros H1 H2. unfold format_with_csl. now rewrite H1, H2. Qed.

(** C2, as stated, fails: without [citeproc] the call raises and returns
    no string at all. *)
Lemma format_with_csl_raises_without_engine :
  format_with_csl env_without_engine (Some "APA") record_X None true
  = Raise (RuntimeError "citeproc-py not installed").
Proof. reflexivity. Qed.

(** C2, amended. For the record [{title: X, year: 2020, authors: [A B]}]
    and style APA: when [citeproc] is importable and the style file is on
    disk but rendering raises, [format_with_csl] returns the manual
    concatenation "A B. 2020. X", a non-empty string that contains "2020"
    and "X". *)
Theorem format_with_csl_fallback (e : env) (source_type : option string) (include_doi : bool) :
  CITEPROC_AVAILABLE e = true ->
  path_exists e (_style_path e (Some "APA")) = true ->
  is_ok (citeproc_render e (_style_path e (Some "APA")) record_X source_type include_doi) = false ->
  exists s,
    format_with_csl e (Some "APA") record_X source_type include_doi = Ok s
    /\ s = "A B. 2020. X"
    /\ nonempty s = true /\ contains "2020" s = true /\ contains "X" s = true.
Proof.
  intros Ha Hp Hr. exists "A B. 2020. X".
  split; [|repeat split; vm_compute; reflexivity].
  unfold format_with_csl. rewrite Ha, Hp. cbn [negb].
  destruct (citeproc_render e (_style_path e (Some "APA")) record_X source_type include_doi);
    [discriminate Hr|].
  vm_compute. reflexivity.
Qed.

Lemma format_with_csl_fallback_witness :
  exists s,
    format_with_csl env_failing_engine (Some "APA") record_X None true = Ok s
    /\ s = "A B. 2020. X"
    /\ nonempty s = true /\ contains "2020" s = true /\ contains "X" s = true.
Proof.
  apply (format_with_csl_fallback env_failing_engine None true); reflexivity.
Defined.

(** ** Validator *)

Lemma In_when (b : bool) (x y : string) : In y (when b x) <-> b = true /\ x = y.
Proof.
  destruct b; simpl; split.
  - intros [H|[]]. now split.
  - intros [_ H]. now left.
  - intros [].
  - intros [H _]. discriminate H.
Qed.

(** [validate] raises exactly when the title is a number, a truth value or
    a list that is not falsy. *)
Lemma validate_returns (item : gmap string value) (source_type style : option string) :
  is_ok (validate item source_type style) = title_is_text item.
Proof.
  unfold validate, title_is_text.
  destruct (get item "title") as [|[]|z|s|l]; try reflexivity.
  - destruct z; reflexivity.
  - destruct s; reflexivity.
  - destruct l; reflexivity.
Qed.

(** The error list, in the order the checks append to it. *)
Lemma validate_errors (item : gmap string value) (source_type style : option string)
    (errors suggestions : list string) (confidence : Q) :
  validate item source_type style = Ok (errors, suggestions, confidence) ->
  errors =
    when (negb (truthy (get item "title"))) "Missing required field: title"
    ++ when (negb (truthy (get item "year"))) "Missing required field: year"
    ++ when (truthy (get item "doi")
             && negb (doi_syntax_is_valid (strip (str (por (get item "doi") (VStr ""))))))
         "Invalid DOI syntax."
    ++ when (truthy (get item "url")
             && negb (match_prefix url_scheme (strip (str (por (get item "url") (VStr ""))))))
         "URL must start with http:// or https://"
    ++ year_errors item.
Proof.
  unfold validate. intros H.
  destruct (vstrip (por (get item "title") (VStr ""))) as [title|e]; [|discriminate H].
  cbn [mbind result_bind bind] in H. injection H as <- _ _.
  cbn [flat_map]. rewrite app_nil_r, <- !app_assoc. reflexivity.
Qed.

Lemma In_year_errors (item : gmap string value) (x : string) :
  In x (year_errors item) ->
  x = "Year looks out of plausible range (1500–2100)." \/ x = "Year must be numeric.".
Proof.
  unfold year_errors. destruct (truthy (get item "year")); [|intros []].
  destruct (int (get item "year")) as [y|e].
  - intros H. apply In_when in H as [_ <-]. now left.
  - intros [<-|[]]. now right.
Qed.

(** C5. Whenever [validate] returns, its error list holds
    "Missing required field: title" if and only if the title is absent or
    falsy, whatever the source type, the style and the other fields; and
    it returns unless the title is a truth value, number or list that is
    not falsy. *)
Theorem validate_missing_title (item : gmap string value) (source_type style : option string) :
  match validate item source_type style with
  | Ok (errors, _, _) =>
      In "Missing required field: title" errors <-> truthy (get item "title") = false
  | Raise _ => title_is_text item = false
  end.
Proof.
  pose proof (validate_returns item source_type style) as Hret.
  destruct (validate item source_type style) as [[[errors suggestions] confidence]|e] eqn:Hv;
    [|now rewrite <- Hret].
  rewrite (validate_errors _ _ _ _ _ _ Hv).
  rewrite !in_app_iff, !In_when. split.
  - intros [[Ht _]|[[_ H]|[[_ H]|[[_ H]|H]]]]; try discriminate H.
    + now apply negb_true_iff.
    + apply In_year_errors in H as [H|H]; discriminate H.
  - intros Ht. left. split; [now rewrite Ht|reflexivity].
Qed.

Lemma doi_syntax_is_valid_regex (s : string) :
  doi_syntax_is_valid s = DOI_REGEX_match (drop_doi_url (strip s)).
Proof.
  unfold doi_syntax_is_valid, drop_doi_url.
  destruct s; reflexivity.
Qed.

(** C6, as stated, fails: a doi in URL form does not match the pattern,
    and yet [validate] raises no error about it. *)
Lemma validate_accepts_doi_url :
  DOI_REGEX_match "https://doi.org/10.1000/xyz123" = false
  /\ errors_of (validate (list_to_map [("title", VStr "x"); ("year", VInt 2020);
                                        ("doi", VStr "https://doi.org/10.1000/xyz123")])
                         None None) = Some [].
Proof. split; vm_compute; reflexivity. Qed.

(** C6, amended. For a record with a truthy doi, whenever [validate]
    returns, "Invalid DOI syntax." is among the errors exactly when
    [doi_syntax_is_valid] rejects the trimmed text of the doi, that is when
    the trimmed doi, cut after its first [doi.org/] if it starts with
    [http://doi.org/] or [https://doi.org/], does not match the pattern;
    "10.1000/xyz123" is accepted and "not-a-doi" is rejected. *)
Theorem validate_doi_syntax (item : gmap string value) (source_type style : option string) :
  truthy (get item "doi") = true ->
  match validate item source_type style with
  | Ok (errors, _, _) =>
      (In "Invalid DOI syntax." errors
       <-> doi_syntax_is_valid (strip (str (get item "doi"))) = false)
      /\ (In "Invalid DOI syntax." errors
          <-> DOI_REGEX_match (drop_doi_url (strip (str (get item "doi")))) = false)
  | Raise _ => title_is_text item = false
  end
  /\ doi_syntax_is_valid "10.1000/xyz123" = true
  /\ doi_syntax_is_valid "not-a-doi" = false.
Proof.
  intros Hd. split; [|split; vm_compute; reflexivity].
  pose proof (validate_returns item source_type style) as Hret.
  destruct (validate item source_type style) as [[[errors suggestions] confidence]|e] eqn:Hv;
    [|now rewrite <- Hret].
  assert (Hin : In "Invalid DOI syntax." errors
                <-> doi_syntax_is_valid (strip (str (get item "doi"))) = false).
  { rewrite (validate_errors _ _ _ _ _ _ Hv).
    rewrite !in_app_iff, !In_when. unfold por. rewrite Hd. cbn [andb].
    split.
    - intros [[_ H]|[[_ H]|[[H _]|[[_ H]|H]]]]; try discriminate H.
      + now apply negb_true_iff.
      + apply In_year_errors in H as [H|H]; discriminate H.
    - intros H. right. right. left. split; [now rewrite H|reflexivity]. }
  split; [exact Hin|].
  rewrite Hin, doi_syntax_is_valid_regex, strip_idem. reflexivity.
Qed.

Lemma validate_doi_syntax_witness :
  match validate {[ "doi" := VStr "not-a-doi" ]} None None with
  | Ok (errors, _, _) =>
      (In "Invalid DOI syntax." errors
       <-> doi_syntax_is_valid (strip (str (get {[ "doi" := VStr "not-a-doi" ]} "doi"))) = false)
      /\ (In "Invalid DOI syntax." errors
          <-> DOI_REGEX_match
                (drop_doi_url (strip (str (get {[ "doi" := VStr "not-a-doi" ]} "doi")))) = false)
  | Raise _ => title_is_text {[ "doi" := VStr "not-a-doi" ]} = false
  end
  /\ doi_syntax_is_valid "10.1000/xyz123" = true
  /\ doi_syntax_is_valid "not-a-doi" = false.
Proof.
  apply (validate_doi_syntax {[ "doi" := VStr "not-a-doi" ]} None None).
  reflexivity.
Defined.

Example validate_rejects_not_a_doi :
  errors_of (validate {[ "doi" := VStr "not-a-doi" ]} None None)
  = Some ["Missing required field: title"; "Missing required field: year";
          "Invalid DOI syntax."].
Proof. vm_compute. reflexivity. Qed.

(** ** Duplicate detection *)

Ltac by_cases_on_title it :=
  destruct (get it "title") as [|[]|[]|[]|[]]; reflexivity.

Lemma dup_key_returns (it : gmap string value) :
  is_ok (dup_key it) = key_fields_text it.
Proof.
  unfold dup_key, key_fields_text, title_is_text.
  destruct (get it "doi") as [|[]|[]|[]|[]]; try reflexivity; by_cases_on_title it.
Qed.

Lemma title_key_keyless (it : gmap string value) (b : string) :
  vstrip (por (get it "title") (VStr "")) = Ok b ->
  nonempty (lower b)
  = negb match get it "title" with
         | VStr t => negb (nonempty (strip t))
         | v => negb (truthy v)
         end.
Proof.
  rewrite nonempty_lower.
  destruct (get it "title") as [|[]|[]|[|c t]|[]]; cbn [por truthy vstrip];
    try discriminate; try (intros [= <-]; reflexivity).
  unfold por. cbn [truthy String.eqb negb vstrip]. intros [= <-].
  now rewrite negb_involutive.
Qed.

Lemma dup_key_keyless (it : gmap string value) (key : string) :
  dup_key it = Ok key -> nonempty key = negb (keyless it).
Proof.
  unfold dup_key, keyless.
  destruct (get it "doi") as [|[]|[]|[|c d]|[]]; cbn [por truthy vlower negb andb];
    try discriminate;
    try (cbn [mbind result_bind bind lower nonempty String.eqb negb];
         destruct (vstrip (por (get it "title") (VStr ""))) as [b|] eqn:Hb; [|discriminate];
         intros [= <-]; now apply title_key_keyless).
  unfold por. cbn [truthy String.eqb negb vlower mbind result_bind bind].
  cbn [lower nonempty String.eqb negb]. intros [= <-]. reflexivity.
Qed.

Lemma filter_app_single (f : gmap string value -> bool) (out : list (gmap string value))
    (it : gmap string value) :
  List.filter f (out ++ [it]) = List.filter f out ++ (if f it then [it] else []).
Proof. rewrite List.filter_app. simpl. now destruct (f it). Qed.

(** The loop keeps every keyless item, in place; it raises only on an item
    whose key cannot be computed. *)
Lemma detect_loop_keyless (items : list (gmap string value)) :
  forall (seen : gset string) (out : list (gmap string value)),
    match detect_loop items seen out with
    | Ok o => List.filter keyless o = List.filter keyless out ++ List.filter keyless items
    | Raise _ => forallb key_fields_text items = false
    end.
Proof.
  induction items as [|it rest IH]; intros seen out.
  - simpl. now rewrite app_nil_r.
  - cbn [detect_loop forallb List.filter].
    pose proof (dup_key_returns it) as Hret.
    destruct (dup_key it) as [key|e] eqn:Hkey; cbn [mbind result_bind bind].
    + cbn [is_ok] in Hret. rewrite <- Hret. cbn [andb].
      pose proof (dup_key_keyless it key Hkey) as Hk.
      destruct (nonempty key); cbn [negb];
        apply (f_equal negb) in Hk; rewrite negb_involutive in Hk; cbn [negb] in Hk;
        rewrite <- Hk.
      * destruct (decide (key ∈ seen)).
        -- exact (IH seen out).
        -- specialize (IH ({[key]} ∪ seen) (out ++ [it])).
           destruct (detect_loop rest ({[key]} ∪ seen) (out ++ [it])); [|exact IH].
           rewrite IH, filter_app_single, <- Hk. now rewrite app_nil_r.
      * specialize (IH seen (out ++ [it])).
        destruct (detect_loop rest seen (out ++ [it])); [|exact IH].
        rewrite IH, filter_app_single, <- Hk, <- app_assoc. reflexivity.
    + cbn [is_ok] in Hret. now rewrite <- Hret.
Qed.

(** C10. [detect_duplicates] returns unless some item has a doi or title
    that is a non-falsy number, truth value or list; and the items without
    a doi and without a non-blank title come out exactly as they went in,
    same order and same number of copies, so each of them is in the
    output.  Two equal keyless items both stay. *)
Theorem detect_duplicates_keeps_keyless (items : list (gmap string value)) :
  match detect_duplicates items with
  | Ok out =>
      List.filter keyless out = List.filter keyless items
      /\ (forall it, In it items -> keyless it = true -> In it out)
  | Raise _ => forallb key_fields_text items = false
  end
  /\ detect_duplicates [∅; ∅] = Ok [∅; ∅].
Proof.
  split; [|vm_compute; reflexivity].
  unfold detect_duplicates.
  pose proof (detect_loop_keyless items ∅ []) as H.
  destruct (detect_loop items ∅ []) as [out|e]; [|exact H].
  simpl in H. split; [exact H|].
  intros it Hin Hk.
  assert (Hf : In it (List.filter keyless items)) by (apply List.filter_In; now split).
  rewrite <- H in Hf. now apply List.filter_In in Hf.
Qed.

(** The example of the specification: the second doi differs from the
    first in case only and is dropped, the title is kept. *)
Example detect_duplicates_example :
  detect_duplicates [ {[ "doi" := VStr "10.1/a" ]}; {[ "doi" := VStr "10.1/A" ]};
                      {[ "title" := VStr "Y" ]} ]
  = Ok [ {[ "doi" := VStr "10.1/a" ]}; {[ "title" := VStr "Y" ]} ].
Proof. vm_compute. reflexivity. Qed.

(** ** Store *)

(** A record without content is not saved. *)
Lemma save_to_ltm_without_content (e : env) (db : store) (item : gmap string value)
    (style user_id : option string) (force_save : bool) :
  has_content item = false ->
  save_to_ltm e db item style user_id force_save = Ok db.
Proof. intros H. unfold save_to_ltm. now rewrite H. Qed.

Lemma has_content_false (item : gmap string value) :
  truthy (get item "title") = false -> truthy (get item "doi") = false ->
  truthy (get item "url") = false -> truthy (get item "raw_text") = false ->
  has_content item = false.
Proof. intros Ht Hd Hu Hr. unfold has_content. now rewrite Ht, Hd, Hu, Hr. Qed.

(** Title, doi, url and raw text all absent or empty: the table is
    returned as it was, row for row. *)
Lemma save_to_ltm_empty_record (e : env) (db : store) (item : gmap string value)
    (style user_id : option string) (force_save : bool) :
  truthy (get item "title") = false -> truthy (get item "doi") = false ->
  truthy (get item "url") = false -> truthy (get item "raw_text") = false ->
  save_to_ltm e db item style user_id force_save = Ok db.
Proof.
  intros Ht Hd Hu Hr. apply save_to_ltm_without_content. now apply has_content_false.
Qed.

(** Without [force_save], a record the lookup finds is not saved. *)
Lemma save_to_ltm_duplicate_found (e : env) (db : store) (item : gmap string value)
    (style user_id : option string) :
  found_duplicate db item = true ->
  save_to_ltm e db item style user_id false = Ok db.
Proof.
  intros H. unfold save_to_ltm. rewrite H.
  now destruct (has_content item).
Qed.

(** A call that returns leaves the table as it was or adds one row at its
    end, and adds one only for a record with content that is forced or
    not found by the lookup. *)
Lemma save_to_ltm_rows (e : env) (db db' : store) (item : gmap string value)
    (style user_id : option string) (force_save : bool) :
  save_to_ltm e db item style user_id force_save = Ok db' ->
  db' = db
  \/ (exists r, db' = db ++ [r]
                /\ row_metadata r = item
                /\ has_content item = true
                /\ (force_save = true \/ found_duplicate db item = false)).
Proof.
  unfold save_to_ltm.
  destruct (has_content item) eqn:Hc; cbn [negb]; [|intros [= <-]; now left].
  destruct (negb force_save && found_duplicate db item) eqn:Hd; [intros [= <-]; now left|].
  unfold save_citation.
  destruct (sql_text (get item "doi")) as [doi|]; [|discriminate].
  destruct (sql_text (get item "title")) as [title|]; [|discriminate].
  cbn [mbind result_bind bind]. intros [= <-]. right.
  eexists. split; [reflexivity|]. split; [reflexivity|]. split; [reflexivity|].
  destruct force_save; [now left|right]. exact Hd.
Qed.

(** A raised exception leaves the table alone; a returned table has the
    old number of rows or one more. *)
Lemma save_to_ltm_length (e : env) (db db' : store) (item : gmap string value)
    (style user_id : option string) (force_save : bool) :
  save_to_ltm e db item style user_id force_save = Ok db' ->
  length db' = length db \/ length db' = S (length db).
Proof.
  intros H. apply save_to_ltm_rows in H as [->|(r & -> & _)]; [now left|right].
  rewrite length_app. simpl. lia.
Qed.

Section SqlAgreement.

Lemma strip_by_ext (f g : ascii -> bool) (s : string) :
  forallb_str (fun c => Bool.eqb (f c) (g c)) s = true ->
  strip_by f s = strip_by g s.
Proof.
  intros H. unfold strip_by.
  assert (Hl : lstrip_by f s = lstrip_by g s
               /\ forallb_str (fun c => Bool.eqb (f c) (g c)) (lstrip_by g s) = true).
  { induction s as [|c r IH]; [now split|].
    pose proof H as H0.
    cbn [forallb_str] in H. apply andb_true_iff in H as [Hc Hr].
    apply eqb_prop in Hc. cbn [lstrip_by]. rewrite Hc.
    destruct (g c); [now apply IH|]. now split. }
  destruct Hl as [-> Hl]. revert Hl. generalize (lstrip_by g s). clear.
  induction s as [|c r IH]; [reflexivity|].
  cbn [forallb_str]. intros H. apply andb_true_iff in H as [Hc Hr].
  apply eqb_prop in Hc. cbn [rstrip_by]. rewrite (IH Hr), Hc. reflexivity.
Qed.

Lemma forallb_str_impl (p q : ascii -> bool) (s : string) :
  (forall c, p c = true -> q c = true) ->
  forallb_str p s = true -> forallb_str q s = true.
Proof.
  intros Hpq. induction s as [|c r IH]; [reflexivity|].
  cbn [forallb_str]. intros H. apply andb_true_iff in H as [Hc Hr].
  now rewrite (Hpq _ Hc), IH.
Qed.

Lemma plain_char_space (c : ascii) :
  plain_char c = true -> Bool.eqb (Ascii.eqb " " c) (isspace c) = true.
Proof. destruct c as [[] [] [] [] [] [] [] []]; vm_compute; intros H; congruence. Qed.

Lemma plain_char_lower (c : ascii) :
  plain_char c = true -> sql_char_lower c = char_lower c.
Proof. destruct c as [[] [] [] [] [] [] [] []]; vm_compute; intros H; congruence. Qed.

Lemma sql_lower_plain (s : string) :
  forallb_str plain_char s = true -> sql_lower s = lower s.
Proof.
  induction s as [|c r IH]; [reflexivity|].
  cbn [forallb_str]. intros H. apply andb_true_iff in H as [Hc Hr].
  cbn [sql_lower lower]. now rewrite (plain_char_lower c Hc), IH.
Qed.

Lemma sql_trim_plain (s : string) :
  forallb_str plain_char s = true -> sql_trim s = strip s.
Proof.
  intros H. unfold sql_trim, strip. apply strip_by_ext.
  revert H. apply forallb_str_impl, plain_char_space.
Qed.

Lemma forallb_str_lstrip (p ws : ascii -> bool) (s : string) :
  forallb_str p s = true -> forallb_str p (lstrip_by ws s) = true.
Proof.
  induction s as [|c r IH]; [reflexivity|].
  intros H. cbn [lstrip_by]. destruct (ws c); [|exact H].
  cbn [forallb_str] in H. apply andb_true_iff in H as [_ Hr]. now apply IH.
Qed.

Lemma forallb_str_rstrip (p ws : ascii -> bool) (s : string) :
  forallb_str p s = true -> forallb_str p (rstrip_by ws s) = true.
Proof.
  induction s as [|c r IH]; [reflexivity|].
  cbn [forallb_str]. intros H. apply andb_true_iff in H as [Hc Hr].
  specialize (IH Hr). cbn [rstrip_by].
  destruct (rstrip_by ws r) as [|d t].
  - destruct (ws c); [reflexivity|]. cbn [forallb_str]. now rewrite Hc.
  - change (p c && forallb_str p (String d t) = true). now rewrite Hc, IH.
Qed.

(** On plain text the two sides of the query compare like with like. *)
Lemma sql_lower_trim_plain (s : string) :
  forallb_str plain_char s = true -> sql_lower (sql_trim s) = lower (strip s).
Proof.
  intros H. rewrite (sql_trim_plain s H). apply sql_lower_plain.
  unfold strip, strip_by. now apply forallb_str_rstrip, forallb_str_lstrip.
Qed.

End SqlAgreement.

Lemma select_lower_trim_In (col : row -> option string) (norm x : string) (db : store)
    (r : row) :
  In r db -> col r = Some x -> sql_lower (sql_trim x) = norm ->
  select_lower_trim col norm db = true.
Proof.
  intros Hin Hc Hx. unfold select_lower_trim. apply existsb_exists.
  exists r. split; [exact Hin|]. rewrite Hc, Hx. apply String.eqb_refl.
Qed.

(** The lookup does find a stored title that is plain text and equal to
    the new title up to letter case and surrounding white space. *)
Lemma found_duplicate_plain_title (db : store) (item : gmap string value) (r : row)
    (t t0 : string) :
  truthy (get item "doi") = false ->
  get item "title" = VStr t -> t <> "" ->
  In r db -> row_title r = Some t0 ->
  forallb_str plain_char t0 = true ->
  lower (strip t0) = lower (strip t) ->
  found_duplicate db item = true.
Proof.
  intros Hd Ht Hne Hin Hr Hplain Heq.
  assert (Hpd : por (get item "doi") VNone = VNone) by (unfold por; now rewrite Hd).
  assert (Htt : truthy (VStr t) = true) by now apply nonempty_true.
  unfold found_duplicate, exists_duplicate.
  rewrite Hpd, Ht, !(por_text t) by exact Hne. rewrite Htt.
  cbn [truthy vstrip mbind result_bind bind].
  rewrite (select_lower_trim_In row_title (lower (strip t)) t0 db r Hin Hr); [reflexivity|].
  now rewrite sql_lower_trim_plain.
Qed.

(** C9. The same record saved twice without [force_save]: the second call
    looks the title up, SQLite's [TRIM] leaves the final line feed (and
    its [LOWER] leaves the capital U with diaeresis) in the stored title
    while Python's [strip] and [lower] changed the one it is compared with,
    no match is found and a second, equal row is written. *)
Theorem save_to_ltm_saves_same_title_twice :
  (exists r,
     save_to_ltm env_without_engine [] {[ "title" := VStr title_with_newline ]}
                 (Some "APA") None false = Ok [r]
     /\ row_title r = Some title_with_newline
     /\ save_to_ltm env_without_engine [r] {[ "title" := VStr title_with_newline ]}
                    (Some "APA") None false = Ok [r; r])
  /\ (exists r,
        save_to_ltm env_without_engine [] {[ "title" := VStr title_with_umlaut ]}
                    (Some "APA") None false = Ok [r]
        /\ row_title r = Some title_with_umlaut
        /\ save_to_ltm env_without_engine [r] {[ "title" := VStr title_with_umlaut ]}
                       (Some "APA") None false = Ok [r; r]).
Proof.
  split; eexists; (split; [vm_compute; reflexivity|]); split; vm_compute; reflexivity.
Qed.

(** With a plain title the second call is skipped, as intended. *)
Example save_to_ltm_plain_title_twice :
  forall r,
    save_to_ltm env_without_engine [] {[ "title" := VStr "Deep Learning" ]}
                (Some "APA") None false = Ok [r] ->
    save_to_ltm env_without_engine [r] {[ "title" := VStr " deep LEARNING " ]}
                (Some "APA") None false = Ok [r].
Proof. intros r H. vm_compute in H. injection H as <-. vm_compute. reflexivity. Qed.

(** * Further properties of the modelled code *)

(** ** Merger: gap filling and layering *)

Lemma merge_metadata_get (base incoming : gmap string value) (k : string) :
  get (merge_metadata base incoming) k =
    if truthy (get base k) then get base k
    else if truthy (get incoming k) then get incoming k
    else get base k.
Proof.
  unfold get at 1. rewrite merge_metadata_lookup.
  destruct (truthy (get base k)); [reflexivity|].
  destruct (truthy (get incoming k)); reflexivity.
Qed.

Lemma merge_metadata_truthy (base incoming : gmap string value) (k : string) :
  truthy (get (merge_metadata base incoming) k)
  = truthy (get base k) || truthy (get incoming k).
Proof.
  rewrite merge_metadata_get.
  destruct (truthy (get base k)) eqn:Hb; [now rewrite Hb|].
  destruct (truthy (get incoming k)) eqn:Hi; [now rewrite Hi|now rewrite Hb].
Qed.



(** X2. Layering is associative: merging a third source onto the merge of
    two gives the same record as merging the first onto the merge of the
    other two, so the order of trust alone decides the result. *)
Theorem merge_metadata_assoc (a b c : gmap string value) :
  merge_metadata (merge_metadata a b) c = merge_metadata a (merge_metadata b c).
Proof.
  apply map_eq. intros k.
  repeat (rewrite merge_metadata_lookup || rewrite merge_metadata_truthy).
  destruct (truthy (get a k)); [reflexivity|].
  destruct (truthy (get b k)); [reflexivity|].
  destruct (truthy (get c k)); reflexivity.
Qed.

(** X3. Merging the same source a second time changes nothing, and
    merging an empty source changes nothing. *)
Theorem merge_metadata_idempotent (base incoming : gmap string value) :
  merge_metadata (merge_metadata base incoming) incoming = merge_metadata base incoming
  /\ merge_metadata base ∅ = base.
Proof.
  split.
  - apply map_eq. intros k.
    rewrite (merge_metadata_lookup (merge_metadata base incoming)).
    rewrite merge_metadata_truthy, merge_metadata_lookup.
    destruct (truthy (get base k)); [reflexivity|].
    destruct (truthy (get incoming k)); reflexivity.
  - apply map_eq. intros k. rewrite merge_metadata_lookup.
    destruct (truthy (get base k)); reflexivity.
Qed.

Import MoreNotions CslJson.

(** ** Normalizer: the shape of the returned record *)


(** X5. A doi that [normalize_metadata] returns as text is trimmed and in
    lower case. *)
Theorem normalize_metadata_doi_clean (metadata : option (gmap string value))
    (r : gmap string value) (d : string) :
  normalize_metadata metadata = Ok r ->
  r !! "doi" = Some (VStr d) ->
  strip d = d /\ lower d = d.
Proof.
  intros Hr Hd. rewrite (normalize_metadata_doi _ _ Hr) in Hd.
  injection Hd as Hd. unfold doi_field in Hd.
  destruct (get (default ∅ metadata) "doi") as [| | |s|]; try discriminate Hd.
  destruct (nonempty s) eqn:Es.
  - injection Hd as <-. split; [apply normalize_doi_trimmed|apply normalize_doi_lowered].
  - injection Hd as <-. apply nonempty_false in Es as ->. now split.
Qed.

Lemma normalize_metadata_doi_clean_witness :
  strip "10.1000/xyz123" = "10.1000/xyz123" /\ lower "10.1000/xyz123" = "10.1000/xyz123".
Proof.
  eapply (normalize_metadata_doi_clean (Some {[ "doi" := VStr " DOI:10.1000/XYZ123 " ]})).
  - vm_compute. reflexivity.
  - vm_compute. reflexivity.
Defined.

(** ** Normalizer: page ranges *)

Lemma app_cons (c : ascii) (a b : string) : String c a +:+ b = String c (a +:+ b).
Proof. reflexivity. Qed.

Lemma forallb_str_app (p : ascii -> bool) (a b : string) :
  forallb_str p (a +:+ b) = forallb_str p a && forallb_str p b.
Proof.
  induction a as [|c a IH]; [reflexivity|].
  rewrite app_cons. cbn [forallb_str]. now rewrite IH, andb_assoc.
Qed.

Lemma app_empty_r (s : string) : s +:+ "" = s.
Proof. induction s as [|c s IH]; [reflexivity|]. now rewrite app_cons, IH. Qed.

Lemma app_assoc_str (a b c : string) : (a +:+ b) +:+ c = a +:+ (b +:+ c).
Proof. induction a as [|x a IH]; [reflexivity|]. now rewrite !app_cons, IH. Qed.

Lemma tidy_dashes_cons (c d : ascii) (r : string) :
  tidy_dashes (String c (String d r))
  = negb (isspace c && Ascii.eqb d "-") && negb (Ascii.eqb c "-" && isspace d)
    && tidy_dashes (String d r).
Proof. reflexivity. Qed.

Lemma isspace_not_dash (c : ascii) : isspace c = true -> Ascii.eqb c "-" = false.
Proof. destruct (Ascii.eqb_spec c "-") as [->|]; [discriminate|reflexivity]. Qed.

(** White space in front of a character that is neither white space nor a
    hyphen does not matter for tidiness. *)
Lemma tidy_dashes_pending (pending : string) (c : ascii) (r : string) :
  forallb_str isspace pending = true ->
  Ascii.eqb c "-" = false ->
  tidy_dashes (pending +:+ String c r) = tidy_dashes (String c r).
Proof.
  intros Hp Hd. induction pending as [|w pending IH]; [reflexivity|].
  cbn [forallb_str] in Hp. apply andb_true_iff in Hp as [Hw Hp].
  specialize (IH Hp). rewrite app_cons.
  pose proof (isspace_not_dash w Hw) as Hwd.
  destruct pending as [|w' pending'].
  - change ("" +:+ String c r) with (String c r) in *.
    rewrite tidy_dashes_cons, Hd, Hwd, andb_false_r. reflexivity.
  - rewrite app_cons in *.
    cbn [forallb_str] in Hp. apply andb_true_iff in Hp as [Hw' _].
    rewrite tidy_dashes_cons, IH, Hwd, (isspace_not_dash w' Hw'), andb_false_r.
    reflexivity.
Qed.

Lemma tidy_dashes_spaces (s : string) :
  forallb_str isspace s = true -> tidy_dashes s = true.
Proof.
  induction s as [|c r IH]; [reflexivity|].
  cbn [forallb_str]. intros H. apply andb_true_iff in H as [Hc Hr].
  destruct r as [|d r']; [reflexivity|].
  pose proof Hr as Hr'. cbn [forallb_str] in Hr'. apply andb_true_iff in Hr' as [Hd _].
  rewrite tidy_dashes_cons, (IH Hr), (isspace_not_dash c Hc), (isspace_not_dash d Hd).
  now rewrite andb_false_r.
Qed.

(** The output of [sub_dashes] is tidy, and does not begin with white
    space when a hyphen was just written. *)
Lemma sub_dashes_tidy (p : string) :
  forall (after_dash : bool) (pending : string),
    forallb_str isspace pending = true ->
    (after_dash = true -> pending = "") ->
    tidy_dashes (sub_dashes after_dash pending p) = true
    /\ (after_dash = true -> clean_start isspace (sub_dashes after_dash pending p)).
Proof.
  induction p as [|c r IH]; intros after_dash pending Hp Ha.
  - cbn [sub_dashes]. split; [now apply tidy_dashes_spaces|].
    intros E. now rewrite (Ha E).
  - cbn [sub_dashes]. destruct (isspace c) eqn:Hc.
    + destruct after_dash.
      * apply (IH true ""); reflexivity.
      * destruct (IH false (pending +:+ String c "")) as [Ht _].
        -- rewrite forallb_str_app, Hp. cbn [forallb_str]. now rewrite Hc.
        -- discriminate.
        -- split; [exact Ht|discriminate].
    + destruct (Ascii.eqb c "-") eqn:Hd.
      * destruct (IH true "" eq_refl (fun _ => eq_refl)) as [Ht Hs].
        specialize (Hs eq_refl). split; [|intros _; reflexivity].
        destruct (sub_dashes true "" r) as [|d r'] eqn:E; [reflexivity|].
        cbn [clean_start] in Hs.
        rewrite tidy_dashes_cons, Ht, Hs. reflexivity.
      * destruct (IH false "" eq_refl (fun H => eq_refl)) as [Ht _].
        split.
        -- rewrite tidy_dashes_pending by assumption.
           destruct (sub_dashes false "" r) as [|d r'] eqn:E; [reflexivity|].
           rewrite tidy_dashes_cons, Ht, Hc, Hd. reflexivity.
        -- intros E. rewrite (Ha E). exact Hc.
Qed.

(** X6. Once normalised, a page range has no white space on either side
    of a hyphen. *)
Theorem normalize_metadata_pages_tidy (metadata : option (gmap string value)) (p : string) :
  authors_field_ok (default ∅ metadata) = true ->
  get (default ∅ metadata) "pages" = VStr p ->
  exists r q, normalize_metadata metadata = Ok r
              /\ r !! "pages" = Some (VStr q) /\ tidy_dashes q = true.
Proof.
  intros Hok Hp. rewrite <- normalize_metadata_returns in Hok.
  destruct (normalize_metadata metadata) as [r|e] eqn:Hr; [|discriminate Hok].
  exists r. destruct (normalize_metadata_inv _ _ Hr) as [authors ->].
  cbv zeta. rewrite Hp. lookup_in_record.
  destruct (nonempty p) eqn:E.
  - eexists. split; [reflexivity|]. split; [reflexivity|].
    now apply (sub_dashes_tidy (strip p) false "").
  - exists p. split; [reflexivity|]. split; [reflexivity|].
    apply nonempty_false in E as ->. reflexivity.
Qed.

Lemma normalize_metadata_pages_tidy_witness :
  exists r q, normalize_metadata (Some {[ "pages" := VStr " 12 - 34" ]}) = Ok r
              /\ r !! "pages" = Some (VStr q) /\ tidy_dashes q = true.
Proof.
  apply (normalize_metadata_pages_tidy (Some {[ "pages" := VStr " 12 - 34" ]}) " 12 - 34");
    reflexivity.
Defined.

Lemma starts_with_dash_false_ws (pending : string) (c : ascii) (q : string) :
  tidy_dashes (String c q) = true -> isspace c = true ->
  match q with String d _ => Ascii.eqb d "-" = false | "" => True end.
Proof.
  destruct q as [|d q']; [intros _ _; exact I|].
  rewrite tidy_dashes_cons. intros H Hc. rewrite Hc in H.
  destruct (Ascii.eqb d "-"); [discriminate H|reflexivity].
Qed.

Lemma tidy_dashes_tail (c : ascii) (q : string) :
  tidy_dashes (String c q) = true -> tidy_dashes q = true.
Proof.
  destruct q as [|d q']; [reflexivity|].
  rewrite tidy_dashes_cons. intros H. now apply andb_true_iff in H as [_ H].
Qed.

(** A tidy text passes through [sub_dashes] unchanged. *)
Lemma sub_dashes_fixed (q : string) :
  forall (after_dash : bool) (pending : string),
    tidy_dashes q = true ->
    (after_dash = true -> pending = "" /\ clean_start isspace q) ->
    (pending <> "" -> match q with String d _ => Ascii.eqb d "-" = false | "" => True end) ->
    sub_dashes after_dash pending q = pending +:+ q.
Proof.
  induction q as [|c r IH]; intros after_dash pending Ht Ha Hp.
  - cbn [sub_dashes]. now rewrite app_empty_r.
  - cbn [sub_dashes]. destruct (isspace c) eqn:Hc.
    + destruct after_dash.
      * destruct (Ha eq_refl) as [_ Hs]. cbn [clean_start] in Hs. congruence.
      * rewrite (IH false (pending +:+ String c "")).
        -- now rewrite app_assoc_str.
        -- now apply tidy_dashes_tail in Ht.
        -- discriminate.
        -- intros _. now apply (starts_with_dash_false_ws pending c r).
    + destruct (Ascii.eqb c "-") eqn:Hd.
      * assert (pending = "") as ->.
        { destruct pending as [|w pending']; [reflexivity|].
          specialize (Hp ltac:(discriminate)). congruence. }
        apply Ascii.eqb_eq in Hd as ->.
        rewrite (IH true ""); [reflexivity|now apply tidy_dashes_tail in Ht| |now intros []].
        intros _. split; [reflexivity|].
        destruct r as [|d r']; [exact I|].
        rewrite tidy_dashes_cons in Ht. cbn [clean_start].
        destruct (isspace d); [|reflexivity].
        cbn in Ht. rewrite andb_false_r in Ht. discriminate Ht.
      * rewrite (IH false ""); [reflexivity|now apply tidy_dashes_tail in Ht| |now intros []].
        discriminate.
Qed.

Lemma rstrip_by_app_keep (ws : ascii -> bool) (a b : string) :
  rstrip_by ws b <> "" -> rstrip_by ws (a +:+ b) = a +:+ rstrip_by ws b.
Proof.
  intros Hb. induction a as [|x a IH]; [reflexivity|].
  rewrite !app_cons. cbn [rstrip_by]. rewrite IH.
  destruct (a +:+ rstrip_by ws b) as [|y t] eqn:E; [|reflexivity].
  destruct a; [now contradict Hb|discriminate E].
Qed.

Lemma rstrip_by_fixed_inv (ws : ascii -> bool) (c : ascii) (r : string) :
  rstrip_by ws (String c r) = String c r ->
  (r = "" /\ ws c = false) \/ (r <> "" /\ rstrip_by ws r = r).
Proof.
  cbn [rstrip_by]. destruct (rstrip_by ws r) as [|d t] eqn:E.
  - destruct (ws c) eqn:Hc; [discriminate|]. intros [= <-]. now left.
  - intros [= <-]. right. split; [discriminate|reflexivity].
Qed.

(** [sub_dashes] leaves no white space at the end of a text that had
    none. *)
Lemma sub_dashes_clean_end (t : string) :
  forall (after_dash : bool) (pending : string),
    rstrip_by isspace t = t ->
    (t = "" -> pending = "") ->
    rstrip_by isspace (sub_dashes after_dash pending t) = sub_dashes after_dash pending t.
Proof.
  induction t as [|c r IH]; intros after_dash pending Ht Hp.
  - cbn [sub_dashes]. now rewrite (Hp eq_refl).
  - apply rstrip_by_fixed_inv in Ht. cbn [sub_dashes].
    destruct (isspace c) eqn:Hc.
    + destruct Ht as [[_ Hc']|[Hr Ht]]; [congruence|].
      destruct after_dash; apply IH; try assumption; intros E; now contradict Hr.
    + assert (Hr : rstrip_by isspace (sub_dashes (Ascii.eqb c "-") "" r)
                    = sub_dashes (Ascii.eqb c "-") "" r).
      { destruct Ht as [[-> _]|[Hr Ht]]; [now destruct (Ascii.eqb c "-")|].
        apply IH; [exact Ht|reflexivity]. }
      destruct (Ascii.eqb c "-") eqn:Hd.
      * rewrite rstrip_by_cons_keep by reflexivity. now rewrite Hr.
      * rewrite rstrip_by_app_keep; rewrite rstrip_by_cons_keep by exact Hc;
          [now rewrite Hr|discriminate].
Qed.

Lemma sub_dashes_clean_start (t : string) :
  clean_start isspace t -> clean_start isspace (sub_dashes false "" t).
Proof.
  destruct t as [|c r]; [intros _; exact I|].
  cbn [clean_start sub_dashes]. intros Hc. rewrite Hc.
  destruct (Ascii.eqb c "-"); [reflexivity|exact Hc].
Qed.

Lemma strip_fixed (s : string) :
  clean_start isspace s -> rstrip_by isspace s = s -> strip s = s.
Proof.
  intros Hs He. unfold strip, strip_by. now rewrite lstrip_by_fixed, He.
Qed.

(** Normalising a normalised page text returns it. *)
Lemma pages_text_fixed (p : string) :
  let q := sub_dashes false "" (strip p) in
  sub_dashes false "" (strip q) = q.
Proof.
  intros q.
  assert (Hq : strip q = q).
  { apply strip_fixed.
    - apply sub_dashes_clean_start. unfold strip, strip_by.
      apply rstrip_by_clean, lstrip_by_clean.
    - apply sub_dashes_clean_end; [|discriminate || (intros _; reflexivity)].
      unfold strip, strip_by. apply rstrip_by_idem. }
  rewrite Hq. apply (sub_dashes_fixed q false "").
  - now apply (sub_dashes_tidy (strip p) false "").
  - discriminate.
  - now intros [].
Qed.

Lemma normalize_metadata_single (k : string) (v : value) :
  k <> "author" -> k <> "authors" ->
  exists r, normalize_metadata (Some {[ k := v ]}) = Ok r.
Proof.
  intros H1 H2.
  assert (Hok : authors_field_ok (default ∅ (Some ({[ k := v ]} : gmap string value))) = true).
  { cbn [default from_option]. unfold id, authors_field_ok, get.
    now rewrite !lookup_singleton_ne by assumption. }
  rewrite <- normalize_metadata_returns in Hok.
  destruct (normalize_metadata (Some {[ k := v ]})) as [r|e]; [now exists r|discriminate Hok].
Qed.

Lemma normalize_metadata_pages (metadata : option (gmap string value)) (r : gmap string value) :
  normalize_metadata metadata = Ok r ->
  get r "pages" = pages_field (get (default ∅ metadata) "pages").
Proof.
  intros Hr. destruct (normalize_metadata_inv _ _ Hr) as [authors ->].
  unfold get at 1. lookup_in_record. cbn [default from_option id].
  unfold pages_field. now destruct (get (default ∅ metadata) "pages").
Qed.

Lemma pages_field_fixed (v : value) : pages_field (pages_field v) = pages_field v.
Proof.
  destruct v as [| | |p|]; try reflexivity.
  cbn [pages_field]. destruct (nonempty p) eqn:E; cbn [pages_field].
  - destruct (nonempty (sub_dashes false "" (strip p))); [|reflexivity].
    f_equal. apply pages_text_fixed.
  - now rewrite E.
Qed.

(** X7. Page normalisation is idempotent: feeding the pages of a
    normalised record through [normalize_metadata] again returns them
    unchanged (unlike the doi, whose second pass can strip a further
    prefix). *)
Theorem normalize_metadata_pages_idempotent (metadata : option (gmap string value)) :
  authors_field_ok (default ∅ metadata) = true ->
  exists r r',
    normalize_metadata metadata = Ok r
    /\ normalize_metadata (Some {[ "pages" := get r "pages" ]}) = Ok r'
    /\ get r' "pages" = get r "pages".
Proof.
  intros Hok. rewrite <- normalize_metadata_returns in Hok.
  destruct (normalize_metadata metadata) as [r|e] eqn:Hr; [|discriminate Hok].
  destruct (normalize_metadata_single "pages" (get r "pages")) as [r' Hr'];
    [discriminate|discriminate|].
  exists r, r'. split; [reflexivity|]. split; [exact Hr'|].
  rewrite (normalize_metadata_pages _ _ Hr'). cbn [default from_option]. unfold id.
  unfold get at 1. rewrite lookup_singleton_eq. cbn [default from_option id].
  rewrite (normalize_metadata_pages _ _ Hr). apply pages_field_fixed.
Qed.

Lemma normalize_metadata_pages_idempotent_witness :
  exists r r',
    normalize_metadata (Some {[ "pages" := VStr "12 - 34" ]}) = Ok r
    /\ normalize_metadata (Some {[ "pages" := get r "pages" ]}) = Ok r'
    /\ get r' "pages" = get r "pages".
Proof.
  apply (normalize_metadata_pages_idempotent (Some {[ "pages" := VStr "12 - 34" ]})).
  reflexivity.
Defined.

(** ** Validator: confidence and year *)

Lemma validate_confidence (item : gmap string value) (source_type style : option string)
    (errors suggestions : list string) (confidence : Q) :
  validate item source_type style = Ok (errors, suggestions, confidence) ->
  confidence
  = Qmake (Z.of_nat (length (List.filter (fun k => truthy (get item k)) keys_for_conf))) 10.
Proof.
  unfold validate. intros H.
  destruct (vstrip (por (get item "title") (VStr ""))) as [title|e]; [|discriminate H].
  cbn [mbind result_bind bind] in H. now injection H as _ _ <-.
Qed.

Lemma filter_length_le {A} (f : A -> bool) (l : list A) :
  length (List.filter f l) <= length l.
Proof. induction l as [|x l IH]; simpl; [lia|]. destruct (f x); simpl; lia. Qed.

Lemma filter_length_all {A} (f : A -> bool) (l : list A) :
  length (List.filter f l) = length l <-> forallb f l = true.
Proof.
  induction l as [|x l IH]; simpl; [tauto|].
  pose proof (filter_length_le f l). destruct (f x); simpl.
  - rewrite <- IH. split; lia.
  - split; [lia|discriminate].
Qed.

(** X8. The confidence [validate] returns lies between 0 and 1, and is 1
    exactly when all ten tracked fields are truthy. *)
Theorem validate_confidence_range (item : gmap string value) (source_type style : option string)
    (errors suggestions : list string) (confidence : Q) :
  validate item source_type style = Ok (errors, suggestions, confidence) ->
  (0 <= confidence)%Q /\ (confidence <= 1)%Q
  /\ ((confidence == 1)%Q <-> forallb (fun k => truthy (get item k)) keys_for_conf = true).
Proof.
  intros H. rewrite (validate_confidence _ _ _ _ _ _ H).
  set (f := fun k => truthy (get item k)).
  pose proof (filter_length_le f keys_for_conf) as Hle.
  change (length keys_for_conf) with 10%nat in Hle.
  rewrite <- filter_length_all. change (length keys_for_conf) with 10%nat.
  unfold Qle, Qeq. cbn [Qnum Qden]. repeat split; try lia.
Qed.

Lemma validate_confidence_range_witness :
  (0 <= 3 # 10)%Q /\ (3 # 10 <= 1)%Q
  /\ ((3 # 10 == 1)%Q
      <-> forallb (fun k => truthy (get (list_to_map [("title", VStr "x"); ("year", VInt 2020);
                                                      ("doi", VStr "10.1000/xyz123")]) k))
                  keys_for_conf = true).
Proof.
  eapply (validate_confidence_range
            (list_to_map [("title", VStr "x"); ("year", VInt 2020);
                          ("doi", VStr "10.1000/xyz123")]) None None).
  vm_compute. reflexivity.
Defined.

(** X9. For a year given as an integer, [validate] reports the year
    missing exactly when it is 0, reports it out of range exactly when it
    is not 0 and lies outside 1500..2100, and never reports it as not
    numeric. *)
Theorem validate_integer_year (item : gmap string value) (source_type style : option string)
    (errors suggestions : list string) (confidence : Q) (y : Z) :
  validate item source_type style = Ok (errors, suggestions, confidence) ->
  get item "year" = VInt y ->
  (In "Missing required field: year" errors <-> y = 0%Z)
  /\ (In "Year looks out of plausible range (1500–2100)." errors
      <-> y <> 0%Z /\ (y < 1500 \/ 2100 < y)%Z)
  /\ ~ In "Year must be numeric." errors.
Proof.
  intros H Hy. rewrite (validate_errors _ _ _ _ _ _ H).
  unfold year_errors. rewrite Hy. cbn [truthy int].
  destruct (Z.eqb_spec y 0) as [->|Hne]; cbn [negb]; cbv iota;
    rewrite !in_app_iff, !In_when.
  - split; [|split].
    + split; [reflexivity|]. intros _. right. left. now split.
    + split; [|now intros [[] _]].
      intros [[_ E]|[[_ E]|[[_ E]|[[_ E]|[]]]]]; discriminate E.
    + intros [[_ E]|[[_ E]|[[_ E]|[[_ E]|[]]]]]; discriminate E.
  - split; [|split].
    + split; [|contradiction].
      intros [[_ E]|[[E _]|[[_ E]|[[_ E]|[_ E]]]]]; discriminate E.
    + split.
      * intros [[_ E]|[[_ E]|[[_ E]|[[_ E]|[E _]]]]]; try discriminate E.
        split; [exact Hne|]. apply orb_true_iff in E as [E|E]; apply Z.ltb_lt in E; lia.
      * intros [_ Hr]. do 4 right. split; [|reflexivity].
        apply orb_true_iff. destruct Hr as [Hr|Hr]; [left|right]; now apply Z.ltb_lt.
    + intros [[_ E]|[[_ E]|[[_ E]|[[_ E]|[_ E]]]]]; discriminate E.
Qed.

Lemma validate_integer_year_witness :
  (In "Missing required field: year" ["Year looks out of plausible range (1500–2100)."]
   <-> 1200%Z = 0%Z)
  /\ (In "Year looks out of plausible range (1500–2100)."
         ["Year looks out of plausible range (1500–2100)."]
      <-> 1200%Z <> 0%Z /\ (1200 < 1500 \/ 2100 < 1200)%Z)
  /\ ~ In "Year must be numeric." ["Year looks out of plausible range (1500–2100)."].
Proof.
  eapply (validate_integer_year
            (list_to_map [("title", VStr "x"); ("year", VInt 1200);
                          ("doi", VStr "10.1000/xyz123")]) None None).
  - vm_compute. reflexivity.
  - reflexivity.
Defined.

(** ** Regular expressions: what [fullmatch] accepts *)

Lemma fullmatch_Void (s : string) : fullmatch Void s = false.
Proof. induction s as [|c s IH]; [reflexivity|exact IH]. Qed.

Lemma fullmatch_Eps (s : string) : fullmatch Eps s = negb (nonempty s).
Proof. destruct s as [|c s]; [reflexivity|]. apply fullmatch_Void. Qed.

Lemma fullmatch_Alt (a b : regex) (s : string) :
  fullmatch (Alt a b) s = fullmatch a s || fullmatch b s.
Proof.
  revert a b. induction s as [|c s IH]; intros a b; [reflexivity|].
  cbn [fullmatch deriv]. apply IH.
Qed.

Lemma fullmatch_Seq_Void (r : regex) (s : string) : fullmatch (Seq Void r) s = false.
Proof. induction s as [|c s IH]; [reflexivity|exact IH]. Qed.

Lemma fullmatch_Seq_Eps (r : regex) (s : string) : fullmatch (Seq Eps r) s = fullmatch r s.
Proof.
  destruct s as [|c s]; [reflexivity|].
  cbn [fullmatch deriv nullable]. now rewrite fullmatch_Alt, fullmatch_Seq_Void.
Qed.

Lemma fullmatch_Seq_Cls (p : ascii -> bool) (r : regex) (s : string) :
  fullmatch (Seq (Cls p) r) s
  = match s with
    | String c t => p c && fullmatch r t
    | "" => false
    end.
Proof.
  destruct s as [|c t]; [reflexivity|].
  cbn [fullmatch deriv nullable]. destruct (p c).
  - apply fullmatch_Seq_Eps.
  - apply fullmatch_Seq_Void.
Qed.


(** A concatenation matches exactly the texts that split into a match of
    each part. *)
Lemma fullmatch_Seq_intro (a b : regex) (t1 t2 : string) :
  fullmatch a t1 = true -> fullmatch b t2 = true -> fullmatch (Seq a b) (t1 +:+ t2) = true.
Proof.
  revert a. induction t1 as [|c t1 IH]; intros a Ha Hb.
  - change ("" +:+ t2) with t2. cbn [fullmatch] in Ha.
    destruct t2 as [|d t2].
    + cbn [fullmatch nullable]. cbn [fullmatch] in Hb. now rewrite Ha, Hb.
    + cbn [fullmatch deriv]. rewrite Ha, fullmatch_Alt.
      cbn [fullmatch] in Hb. rewrite Hb. apply orb_true_r.
  - rewrite app_cons. cbn [fullmatch deriv]. cbn [fullmatch] in Ha.
    destruct (nullable a).
    + rewrite fullmatch_Alt, (IH _ Ha Hb). reflexivity.
    + now apply IH.
Qed.

Lemma fullmatch_Seq_elim (a b : regex) (s : string) :
  fullmatch (Seq a b) s = true ->
  exists t1 t2, s = t1 +:+ t2 /\ fullmatch a t1 = true /\ fullmatch b t2 = true.
Proof.
  revert a. induction s as [|c s IH]; intros a H.
  - cbn [fullmatch nullable] in H. apply andb_true_iff in H as [Ha Hb].
    exists "", "". now repeat split.
  - cbn [fullmatch deriv] in H. destruct (nullable a) eqn:Hn.
    + rewrite fullmatch_Alt in H. apply orb_true_iff in H as [H|H].
      * destruct (IH _ H) as (t1 & t2 & -> & H1 & H2).
        exists (String c t1), t2. now repeat split.
      * exists "", (String c s). now repeat split.
    + destruct (IH _ H) as (t1 & t2 & -> & H1 & H2).
      exists (String c t1), t2. now repeat split.
Qed.

Lemma fullmatch_Seq_iff (a b : regex) (s : string) :
  fullmatch (Seq a b) s = true
  <-> exists t1 t2, s = t1 +:+ t2 /\ fullmatch a t1 = true /\ fullmatch b t2 = true.
Proof.
  split; [apply fullmatch_Seq_elim|].
  intros (t1 & t2 & -> & H1 & H2). now apply fullmatch_Seq_intro.
Qed.

Lemma bool_eq_iff (x y : bool) : (x = true <-> y = true) -> x = y.
Proof. destruct x, y; intros [H1 H2]; try reflexivity; [now rewrite H1|now rewrite H2]. Qed.

Lemma fullmatch_Seq_assoc (a b c : regex) (s : string) :
  fullmatch (Seq (Seq a b) c) s = fullmatch (Seq a (Seq b c)) s.
Proof.
  apply bool_eq_iff. rewrite !fullmatch_Seq_iff. split.
  - intros (t12 & t3 & -> & H12 & H3).
    apply fullmatch_Seq_elim in H12 as (t1 & t2 & -> & H1 & H2).
    exists t1, (t2 +:+ t3). rewrite app_assoc_str. repeat split; [exact H1|].
    now apply fullmatch_Seq_intro.
  - intros (t1 & t23 & -> & H1 & H23).
    apply fullmatch_Seq_elim in H23 as (t2 & t3 & -> & H2 & H3).
    exists (t1 +:+ t2), t3. rewrite app_assoc_str. repeat split; [|exact H3].
    now apply fullmatch_Seq_intro.
Qed.

Lemma fullmatch_Seq_Alt (a1 a2 b : regex) (s : string) :
  fullmatch (Seq (Alt a1 a2) b) s = fullmatch (Seq a1 b) s || fullmatch (Seq a2 b) s.
Proof.
  apply bool_eq_iff. rewrite orb_true_iff, !fullmatch_Seq_iff. split.
  - intros (t1 & t2 & -> & H1 & H2). rewrite fullmatch_Alt in H1.
    apply orb_true_iff in H1 as [H1|H1]; [left|right]; now exists t1, t2.
  - intros [(t1 & t2 & -> & H1 & H2)|(t1 & t2 & -> & H1 & H2)];
      exists t1, t2; rewrite fullmatch_Alt, H1; repeat split; try exact H2.
    apply orb_true_r.
Qed.

Lemma fullmatch_Star_Cls (p : ascii -> bool) (s : string) :
  fullmatch (Star (Cls p)) s = forallb_str p s.
Proof.
  induction s as [|c s IH]; [reflexivity|].
  cbn [fullmatch deriv forallb_str]. destruct (p c).
  - now rewrite fullmatch_Seq_Eps.
  - now rewrite fullmatch_Seq_Void.
Qed.

Lemma forallb_str_true (s : string) : forallb_str (fun _ => true) s = true.
Proof. induction s as [|c s IH]; [reflexivity|exact IH]. Qed.

Lemma fullmatch_Star_any (s : string) : fullmatch (Star any) s = true.
Proof. unfold any. rewrite fullmatch_Star_Cls. apply forallb_str_true. Qed.

Lemma fullmatch_Plus_Cls (p : ascii -> bool) (s : string) :
  fullmatch (Plus (Cls p)) s = nonempty s && forallb_str p s.
Proof.
  unfold Plus. rewrite fullmatch_Seq_Cls. destruct s as [|c t]; [reflexivity|].
  now rewrite fullmatch_Star_Cls.
Qed.

(** A case-insensitive literal in front of [r]. *)
Lemma fullmatch_Seq_LitI (l : string) (r : regex) (s : string) :
  fullmatch (Seq (LitI l) r) s
  = startswith (lower l) (lower s) && fullmatch r (drop (String.length l) s).
Proof.
  revert s. induction l as [|c l IH]; intros s.
  - cbn [LitI lower startswith String.length drop]. apply fullmatch_Seq_Eps.
  - cbn [LitI]. rewrite fullmatch_Seq_assoc. unfold ChrI at 1. rewrite fullmatch_Seq_Cls.
    destruct s as [|d s]; [reflexivity|].
    cbn [lower startswith String.length drop]. rewrite IH, andb_assoc.
    now rewrite Ascii.eqb_sym.
Qed.

Lemma startswith_app (a b s : string) :
  startswith (a +:+ b) s = startswith a s && startswith b (drop (String.length a) s).
Proof.
  revert s. induction a as [|c a IH]; intros s; [reflexivity|].
  rewrite app_cons. destruct s as [|d s]; [reflexivity|].
  cbn [startswith String.length drop]. now rewrite IH, andb_assoc.
Qed.

Lemma lower_drop (n : nat) (s : string) : lower (drop n s) = drop n (lower s).
Proof.
  revert s. induction n as [|n IH]; intros s; [reflexivity|].
  destruct s as [|c s]; [reflexivity|]. apply IH.
Qed.

Lemma url_scheme_tail (t : string) :
  fullmatch (Seq (Seq (Opt (ChrI "s")) (LitI "://")) (Star any)) t
  = startswith "://" (lower t) || startswith "s://" (lower t).
Proof.
  rewrite fullmatch_Seq_assoc. unfold Opt.
  rewrite fullmatch_Seq_Alt, fullmatch_Seq_Eps, fullmatch_Seq_LitI, fullmatch_Star_any.
  rewrite andb_true_r. change (lower "://") with "://". f_equal.
  unfold ChrI. rewrite fullmatch_Seq_Cls. destruct t as [|c t]; [reflexivity|].
  rewrite fullmatch_Seq_LitI, fullmatch_Star_any, andb_true_r.
  change (lower "://") with "://". cbn [lower]. change "s://" with (String "s" "://").
  cbn [startswith]. now rewrite Ascii.eqb_sym.
Qed.

(** The URL pattern of [validate] accepts the texts that begin with
    [http://] or [https://] in any letter case. *)
Lemma match_prefix_url_scheme (s : string) :
  match_prefix url_scheme s = has_http_scheme s.
Proof.
  unfold match_prefix, url_scheme, has_http_scheme.
  rewrite fullmatch_Seq_assoc, fullmatch_Seq_LitI, url_scheme_tail.
  change (lower "http") with "http". change (String.length "http") with 4%nat.
  change "http://" with ("http" +:+ "://"). change "https://" with ("http" +:+ "s://").
  rewrite !startswith_app. change (String.length "http") with 4%nat.
  rewrite lower_drop.
  now destruct (startswith "http" (lower s)).
Qed.



(** ** The DOI pattern *)

Lemma fullmatch_Seq_Lit (l : string) (r : regex) (s : string) :
  fullmatch (Seq (Lit l) r) s = startswith l s && fullmatch r (drop (String.length l) s).
Proof.
  revert s. induction l as [|c l IH]; intros s.
  - cbn [Lit startswith String.length drop]. apply fullmatch_Seq_Eps.
  - cbn [Lit]. rewrite fullmatch_Seq_assoc. unfold Chr at 1. rewrite fullmatch_Seq_Cls.
    destruct s as [|d s]; [reflexivity|].
    cbn [startswith String.length drop]. now rewrite IH, andb_assoc.
Qed.

Lemma startswith_split (l s : string) :
  startswith l s = true -> s = l +:+ drop (String.length l) s.
Proof.
  revert s. induction l as [|c l IH]; intros s; [reflexivity|].
  destruct s as [|d s]; [discriminate|].
  cbn [startswith String.length drop]. intros H. apply andb_true_iff in H as [Hc Hl].
  apply Ascii.eqb_eq in Hc as ->. rewrite app_cons. f_equal. now apply IH.
Qed.

Lemma startswith_app_self (l s : string) : startswith l (l +:+ s) = true.
Proof.
  induction l as [|c l IH]; [reflexivity|].
  rewrite app_cons. cbn [startswith]. now rewrite Ascii.eqb_refl, IH.
Qed.

Lemma drop_app_self (l s : string) : drop (String.length l) (l +:+ s) = s.
Proof. induction l as [|c l IH]; [reflexivity|]. rewrite app_cons. exact IH. Qed.

Lemma fullmatch_Repeat_Opt_Cls (p : ascii -> bool) (k : nat) (d : string) :
  fullmatch (Repeat k (Opt (Cls p))) d = (String.length d <=? k)%nat && forallb_str p d.
Proof.
  revert d. induction k as [|k IH]; intros d.
  - cbn [Repeat]. rewrite fullmatch_Eps. now destruct d.
  - cbn [Repeat]. unfold Opt at 1.
    rewrite fullmatch_Seq_Alt, fullmatch_Seq_Eps, fullmatch_Seq_Cls, IH.
    destruct d as [|c t]; [reflexivity|]. rewrite IH.
    cbn [String.length forallb_str].
    destruct (p c); cbn [andb]; [|now rewrite !andb_false_r].
    change (S (String.length t) <=? S k)%nat with (String.length t <=? k)%nat.
    destruct (forallb_str p t); [|now rewrite !andb_false_r].
    rewrite !andb_true_r.
    destruct (Nat.leb_spec (S (String.length t)) k), (Nat.leb_spec (String.length t) k);
      try reflexivity; lia.
Qed.

Lemma fullmatch_Range_Cls (p : ascii -> bool) (lo hi : nat) (d : string) :
  lo <= hi ->
  fullmatch (Range lo hi (Cls p)) d
  = (lo <=? String.length d)%nat && (String.length d <=? hi)%nat && forallb_str p d.
Proof.
  revert hi d. induction lo as [|lo IH]; intros hi d Hle.
  - unfold Range. cbn [Repeat]. rewrite fullmatch_Seq_Eps, Nat.sub_0_r.
    apply fullmatch_Repeat_Opt_Cls.
  - destruct hi as [|hi]; [lia|].
    unfold Range. cbn [Repeat]. rewrite fullmatch_Seq_assoc, fullmatch_Seq_Cls.
    destruct d as [|c t]; [reflexivity|].
    change (S hi - S lo) with (hi - lo).
    change (Seq (Repeat lo (Cls p)) (Repeat (hi - lo) (Opt (Cls p))))
      with (Range lo hi (Cls p)).
    rewrite IH by lia. cbn [String.length forallb_str].
    change (S lo <=? S (String.length t))%nat with (lo <=? String.length t)%nat.
    change (S (String.length t) <=? S hi)%nat with (String.length t <=? hi)%nat.
    destruct (p c); [reflexivity|]. now rewrite !andb_false_r.
Qed.

(** The pattern [DOI_REGEX], from its [^] to its [$] taken as the end of
    the text, accepts exactly the texts of the DOI shape. *)
Lemma fullmatch_DOI_REGEX (s : string) : fullmatch DOI_REGEX s = true <-> doi_shape s.
Proof.
  unfold DOI_REGEX, doi_shape. rewrite fullmatch_Seq_Lit.
  rewrite andb_true_iff, fullmatch_Seq_iff. split.
  - intros (H10 & digits & rest & Hd & Hdig & Hrest).
    rewrite fullmatch_Range_Cls in Hdig by lia.
    apply andb_true_iff in Hdig as [Hlen Hdig]. apply andb_true_iff in Hlen as [Hlo Hhi].
    apply Nat.leb_le in Hlo, Hhi.
    unfold Chr in Hrest. rewrite fullmatch_Seq_Cls in Hrest.
    destruct rest as [|c suffix]; [discriminate Hrest|].
    apply andb_true_iff in Hrest as [Hc Hsuf]. apply Ascii.eqb_eq in Hc as <-.
    rewrite fullmatch_Plus_Cls in Hsuf. apply andb_true_iff in Hsuf as [Hne Hsuf].
    exists digits, suffix. split.
    + rewrite (startswith_split _ _ H10). f_equal. exact Hd.
    + repeat split; try assumption. now apply nonempty_true.
  - intros (digits & suffix & -> & [Hlo Hhi] & Hdig & Hne & Hsuf).
    split; [apply startswith_app_self|].
    rewrite drop_app_self. exists digits, ("/" +:+ suffix). split; [reflexivity|]. split.
    + rewrite fullmatch_Range_Cls by lia. rewrite Hdig.
      apply Nat.leb_le in Hlo, Hhi. now rewrite Hlo, Hhi.
    + unfold Chr. rewrite fullmatch_Seq_Cls. change ("/" +:+ suffix) with (String "/" suffix).
      cbn [Ascii.eqb]. rewrite fullmatch_Plus_Cls, Hsuf.
      apply nonempty_true in Hne. now rewrite Hne.
Qed.






(** ** Duplicate detection: what is kept *)

Lemma keys_of_app (l1 l2 : list (gmap string value)) :
  keys_of (l1 ++ l2) = keys_of l1 ++ keys_of l2.
Proof. apply omap_app. Qed.

Lemma keys_of_single_keyed (it : gmap string value) (k : string) :
  dup_key it = Ok k -> nonempty k = true -> keys_of [it] = [k].
Proof. intros Hk Hn. unfold keys_of. cbn [omap list_omap]. unfold item_key. now rewrite Hk, Hn. Qed.

Lemma keys_of_single_keyless (it : gmap string value) (k : string) :
  dup_key it = Ok k -> nonempty k = false -> keys_of [it] = [].
Proof. intros Hk Hn. unfold keys_of. cbn [omap list_omap]. unfold item_key. now rewrite Hk, Hn. Qed.

(** The invariant of the loop: [seen] holds the keys of [out], and these
    are pairwise distinct. *)
Lemma detect_loop_invariant (items : list (gmap string value)) :
  forall (seen : gset string) (out o : list (gmap string value)),
    seen = list_to_set (keys_of out) ->
    NoDup (keys_of out) ->
    detect_loop items seen out = Ok o ->
    NoDup (keys_of o)
    /\ (forall k, k ∈ keys_of o <-> k ∈ keys_of out \/ k ∈ keys_of items)
    /\ (exists kept, o = out ++ kept /\ sublist kept items)
    /\ Forall (fun it => is_ok (dup_key it) = true) items.
Proof.
  induction items as [|it rest IH]; intros seen out o Hseen Hnd Hrun.
  - cbn [detect_loop] in Hrun. injection Hrun as <-.
    split; [exact Hnd|]. split; [|split; [|constructor]].
    + intros k. cbn. rewrite elem_of_nil. tauto.
    + exists []. now rewrite app_nil_r.
  - cbn [detect_loop] in Hrun.
    destruct (dup_key it) as [key|e] eqn:Hkey; [|discriminate Hrun].
    cbn [mbind result_bind bind] in Hrun.
    change (it :: rest) with ([it] ++ rest).
    destruct (nonempty key) eqn:Hne; cbn [negb] in Hrun.
    + pose proof (keys_of_single_keyed it key Hkey Hne) as Hk1.
      destruct (decide (key ∈ seen)) as [Hin|Hnin].
      * destruct (IH seen out o Hseen Hnd Hrun) as (H1 & H2 & (kept & -> & Hsub) & H4).
        split; [exact H1|]. split; [|split].
        -- intros k. rewrite H2, keys_of_app, Hk1, elem_of_app, list_elem_of_singleton.
           split; [tauto|]. intros [H|[->|H]]; [tauto| |tauto].
           left. rewrite Hseen in Hin. now apply elem_of_list_to_set in Hin.
        -- exists kept. split; [reflexivity|]. now apply sublist_cons.
        -- constructor; [now rewrite Hkey|exact H4].
      * assert (Hnot : key ∉ keys_of out).
        { intros H. apply Hnin. rewrite Hseen. now apply elem_of_list_to_set. }
        destruct (IH ({[key]} ∪ seen) (out ++ [it]) o) as (H1 & H2 & (kept & -> & Hsub) & H4).
        -- rewrite keys_of_app, Hk1, list_to_set_app_L, Hseen.
           change (list_to_set [key] : gset string) with ({[key]} ∪ ∅ : gset string).
           rewrite union_empty_r_L. apply (comm_L (∪)).
        -- rewrite keys_of_app, Hk1. apply NoDup_app. split; [exact Hnd|].
           split; [|apply NoDup_singleton].
           intros x Hx Hx'. apply list_elem_of_singleton in Hx' as ->. contradiction.
        -- exact Hrun.
        -- split; [exact H1|]. split; [|split].
           ++ intros k. rewrite H2, !keys_of_app, Hk1, !elem_of_app. tauto.
           ++ exists (it :: kept). split; [now rewrite <- app_assoc|].
              now apply sublist_skip.
           ++ constructor; [now rewrite Hkey|exact H4].
    + pose proof (keys_of_single_keyless it key Hkey Hne) as Hk0.
      destruct (IH seen (out ++ [it]) o) as (H1 & H2 & (kept & -> & Hsub) & H4).
      * now rewrite keys_of_app, Hk0, app_nil_r.
      * now rewrite keys_of_app, Hk0, app_nil_r.
      * exact Hrun.
      * split; [exact H1|]. split; [|split].
        -- intros k. rewrite H2, !keys_of_app, Hk0, app_nil_r. cbn. tauto.
        -- exists (it :: kept). split; [now rewrite <- app_assoc|].
           now apply sublist_skip.
        -- constructor; [now rewrite Hkey|exact H4].
Qed.

(** X12. The list [detect_duplicates] returns is the input with some
    items left out, in the same order; the keys of its items are pairwise
    distinct; and every key of the input is still the key of some item. *)
Theorem detect_duplicates_distinct_keys (items out : list (gmap string value)) :
  detect_duplicates items = Ok out ->
  sublist out items
  /\ NoDup (keys_of out)
  /\ (forall k, k ∈ keys_of out <-> k ∈ keys_of items).
Proof.
  unfold detect_duplicates. intros H.
  destruct (detect_loop_invariant items ∅ [] out) as (H1 & H2 & (kept & -> & Hsub) & _);
    [reflexivity|constructor|exact H|].
  split; [exact Hsub|]. split; [exact H1|].
  intros k. rewrite H2. cbn. rewrite elem_of_nil. tauto.
Qed.

Lemma detect_duplicates_distinct_keys_witness :
  sublist [ ({[ "doi" := VStr "10.1/a" ]} : gmap string value); {[ "title" := VStr "Y" ]} ]
          [ {[ "doi" := VStr "10.1/a" ]}; {[ "doi" := VStr "10.1/A" ]};
            {[ "title" := VStr "Y" ]} ]
  /\ NoDup (keys_of [ {[ "doi" := VStr "10.1/a" ]}; {[ "title" := VStr "Y" ]} ])
  /\ (forall k, k ∈ keys_of [ {[ "doi" := VStr "10.1/a" ]}; {[ "title" := VStr "Y" ]} ]
                <-> k ∈ keys_of [ {[ "doi" := VStr "10.1/a" ]}; {[ "doi" := VStr "10.1/A" ]};
                                  {[ "title" := VStr "Y" ]} ]).
Proof.
  apply (detect_duplicates_distinct_keys
           [ {[ "doi" := VStr "10.1/a" ]}; {[ "doi" := VStr "10.1/A" ]};
             {[ "title" := VStr "Y" ]} ]).
  vm_compute. reflexivity.
Defined.

Lemma detect_loop_distinct (l : list (gmap string value)) :
  forall (seen : gset string) (out : list (gmap string value)),
    Forall (fun it => is_ok (dup_key it) = true) l ->
    NoDup (keys_of l) ->
    (forall k, k ∈ keys_of l -> k ∉ seen) ->
    detect_loop l seen out = Ok (out ++ l).
Proof.
  induction l as [|it rest IH]; intros seen out Hok Hnd Hfresh.
  - cbn [detect_loop]. now rewrite app_nil_r.
  - inversion Hok as [|? ? Hit Hrest]; subst. cbn [detect_loop].
    destruct (dup_key it) as [key|e] eqn:Hkey; [|discriminate Hit].
    cbn [mbind result_bind bind].
    change (it :: rest) with ([it] ++ rest) in Hnd, Hfresh.
    rewrite keys_of_app in Hnd, Hfresh.
    destruct (nonempty key) eqn:Hne; cbn [negb].
    + rewrite (keys_of_single_keyed it key Hkey Hne) in Hnd, Hfresh.
      apply NoDup_cons in Hnd as [Hnotin Hnd].
      destruct (decide (key ∈ seen)) as [Hin|Hnin].
      * exfalso. apply (Hfresh key); [now left|exact Hin].
      * rewrite IH; [now rewrite <- app_assoc|exact Hrest|exact Hnd|].
        intros k Hk Hks. apply elem_of_union in Hks as [Hks|Hks].
        -- apply elem_of_singleton in Hks as ->. contradiction.
        -- apply (Hfresh k); [now right|exact Hks].
    + rewrite (keys_of_single_keyless it key Hkey Hne) in Hnd, Hfresh.
      rewrite IH; [now rewrite <- app_assoc|exact Hrest|exact Hnd|exact Hfresh].
Qed.

(** X13. [detect_duplicates] is idempotent: run on its own output it
    returns that output. *)
Theorem detect_duplicates_idempotent (items out : list (gmap string value)) :
  detect_duplicates items = Ok out -> detect_duplicates out = Ok out.
Proof.
  unfold detect_duplicates. intros H.
  destruct (detect_loop_invariant items ∅ [] out) as (H1 & _ & (kept & -> & Hsub) & H4);
    [reflexivity|constructor|exact H|].
  cbn [app]. rewrite detect_loop_distinct; [reflexivity| |exact H1|].
  - apply list.Forall_forall. intros x Hx.
    apply (proj1 (list.Forall_forall _ _) H4 x). now apply (sublist_subseteq _ _ Hsub).
  - intros k _. apply not_elem_of_empty.
Qed.

Lemma detect_duplicates_idempotent_witness :
  detect_duplicates [ {[ "doi" := VStr "10.1/a" ]}; {[ "title" := VStr "Y" ]} ]
  = Ok [ {[ "doi" := VStr "10.1/a" ]}; {[ "title" := VStr "Y" ]} ].
Proof.
  apply (detect_duplicates_idempotent
           [ {[ "doi" := VStr "10.1/a" ]}; {[ "doi" := VStr "10.1/A" ]};
             {[ "title" := VStr "Y" ]} ]).
  vm_compute. reflexivity.
Defined.

Lemma detect_loop_app (l1 l2 : list (gmap string value)) :
  forall (seen : gset string) (out out1 : list (gmap string value)),
    detect_loop l1 seen out = Ok out1 ->
    detect_loop (l1 ++ l2) seen out
    = detect_loop l2 (list_to_set (keys_of l1) ∪ seen) out1.
Proof.
  induction l1 as [|it rest IH]; intros seen out out1 H.
  - cbn [detect_loop] in H. injection H as <-. cbn [app keys_of omap list_omap list_to_set].
    now rewrite union_empty_l_L.
  - cbn [detect_loop app] in *.
    destruct (dup_key it) as [key|e] eqn:Hkey; [|discriminate H].
    cbn [mbind result_bind bind] in *.
    change (it :: rest) with ([it] ++ rest). rewrite keys_of_app, list_to_set_app_L.
    destruct (nonempty key) eqn:Hne; cbn [negb] in *.
    + rewrite (keys_of_single_keyed it key Hkey Hne).
      change (list_to_set [key] : gset string) with ({[key]} ∪ ∅ : gset string).
      rewrite union_empty_r_L.
      destruct (decide (key ∈ seen)) as [Hin|Hnin].
      * rewrite (IH _ _ _ H).
        assert (E : ({[key]} ∪ list_to_set (keys_of rest)) ∪ seen
                    = list_to_set (keys_of rest) ∪ seen).
        { rewrite <- (assoc_L (∪)). apply subseteq_union_1_L.
          apply singleton_subseteq_l. now apply elem_of_union_r. }
        now rewrite E.
      * rewrite (IH _ _ _ H).
        assert (E : ({[key]} ∪ list_to_set (keys_of rest)) ∪ seen
                    = list_to_set (keys_of rest) ∪ ({[key]} ∪ seen)).
        { now rewrite (comm_L (∪) {[key]}), <- (assoc_L (∪)). }
        now rewrite E.
    + rewrite (keys_of_single_keyless it key Hkey Hne).
      change (list_to_set [] : gset string) with (∅ : gset string).
      rewrite union_empty_l_L. apply (IH _ _ _ H).
Qed.

(** X14. The first item with a given key wins.  When a further item is
    appended to a list, it is dropped if it has a key that an earlier
    item has, and kept (at the end) if it has no key or a new one. *)
Theorem detect_duplicates_first_wins (l out : list (gmap string value))
    (it : gmap string value) (k : string) :
  detect_duplicates l = Ok out ->
  dup_key it = Ok k ->
  (k <> "" /\ k ∈ keys_of l -> detect_duplicates (l ++ [it]) = Ok out)
  /\ (k = "" \/ k ∉ keys_of l -> detect_duplicates (l ++ [it]) = Ok (out ++ [it])).
Proof.
  unfold detect_duplicates. intros Hl Hk.
  rewrite (detect_loop_app l [it] ∅ [] out Hl), union_empty_r_L.
  cbn [detect_loop]. rewrite Hk. cbn [mbind result_bind bind].
  split.
  - intros [Hne Hin]. apply nonempty_true in Hne. rewrite Hne. cbn [negb].
    destruct (decide (k ∈ (list_to_set (keys_of l) : gset string))) as [_|Hn]; [reflexivity|].
    exfalso. apply Hn. now apply elem_of_list_to_set.
  - intros [->|Hnin]; [reflexivity|].
    destruct (nonempty k); cbn [negb]; [|reflexivity].
    destruct (decide (k ∈ (list_to_set (keys_of l) : gset string))) as [Hin|_]; [|reflexivity].
    exfalso. apply Hnin. now apply elem_of_list_to_set in Hin.
Qed.

Lemma detect_duplicates_first_wins_witness :
  ("10.1/a" <> "" /\ "10.1/a" ∈ keys_of [ {[ "doi" := VStr "10.1/a"; "title" := VStr "T" ]} ] ->
   detect_duplicates ([ {[ "doi" := VStr "10.1/a"; "title" := VStr "T" ]} ]
                      ++ [ {[ "doi" := VStr "10.1/A" ]} ])
   = Ok [ {[ "doi" := VStr "10.1/a"; "title" := VStr "T" ]} ])
  /\ ("10.1/a" = "" \/ "10.1/a" ∉ keys_of [ {[ "doi" := VStr "10.1/a"; "title" := VStr "T" ]} ] ->
      detect_duplicates ([ {[ "doi" := VStr "10.1/a"; "title" := VStr "T" ]} ]
                         ++ [ {[ "doi" := VStr "10.1/A" ]} ])
      = Ok ([ {[ "doi" := VStr "10.1/a"; "title" := VStr "T" ]} ]
            ++ [ {[ "doi" := VStr "10.1/A" ]} ])).
Proof.
  apply (detect_duplicates_first_wins
           [ {[ "doi" := VStr "10.1/a"; "title" := VStr "T" ]} ]
           [ {[ "doi" := VStr "10.1/a"; "title" := VStr "T" ]} ]
           {[ "doi" := VStr "10.1/A" ]} "10.1/a");
    vm_compute; reflexivity.
Defined.

(** ** Store: what a save does to the table *)

Lemma save_to_ltm_saves (e : env) (db : store) (item : gmap string value)
    (style user_id : option string) (force_save : bool) :
  has_content item = true ->
  force_save = true \/ found_duplicate db item = false ->
  save_to_ltm e db item style user_id force_save
  = (doi ← sql_text (get item "doi");
     title ← sql_text (get item "title");
     Ok (db ++ [ {| row_doi := doi; row_title := title;
                    row_authors := por (get item "authors") (VList []);
                    row_style := sor style "APA";
                    row_formatted :=
                      (let formatted :=
                         match format_with_csl e (Some (sor style "APA")) item None true with
                         | Ok s => s
                         | Raise _ => ""
                         end in
                       if negb (nonempty (strip formatted)) then fallback_formatted item
                       else formatted);
                    row_metadata := item; row_user_id := user_id |} ])).
Proof.
  intros Hc Hd. unfold save_to_ltm. rewrite Hc. cbn [negb].
  assert (E : negb force_save && found_duplicate db item = false).
  { destruct Hd as [->| ->]; [reflexivity|apply andb_false_r]. }
  rewrite E. reflexivity.
Qed.

(** The three ways a call of [save_to_ltm] can return. *)
Lemma save_to_ltm_cases (e : env) (db db' : store) (item : gmap string value)
    (style user_id : option string) (force_save : bool) :
  save_to_ltm e db item style user_id force_save = Ok db' ->
  (db' = db /\ has_content item = false)
  \/ (db' = db /\ force_save = false /\ found_duplicate db item = true)
  \/ (exists r, db' = db ++ [r]
                /\ row_metadata r = item
                /\ sql_text (get item "doi") = Ok (row_doi r)
                /\ sql_text (get item "title") = Ok (row_title r)
                /\ row_user_id r = user_id).
Proof.
  intros H. destruct (has_content item) eqn:Hc;
    [|rewrite save_to_ltm_without_content in H by exact Hc; injection H as <-; now left].
  destruct (negb force_save && found_duplicate db item) eqn:Hd.
  - apply andb_true_iff in Hd as [Hf Hd]. apply negb_true_iff in Hf. subst force_save.
    rewrite save_to_ltm_duplicate_found in H by exact Hd. injection H as <-.
    right. left. now repeat split.
  - rewrite save_to_ltm_saves in H; [|exact Hc|].
    + destruct (sql_text (get item "doi")) as [doi|]; [|discriminate H].
      destruct (sql_text (get item "title")) as [title|]; [|discriminate H].
      cbn [mbind result_bind bind] in H. injection H as <-. right. right.
      eexists. repeat split.
    + apply andb_false_iff in Hd as [Hd|Hd]; [left|right; exact Hd].
      now apply negb_false_iff.
Qed.



(** X16. With [force_save], a record with content whose doi and title
    SQLite can store is always written, one new row at the end, whether
    or not the table already holds it. *)
Theorem save_to_ltm_forced (e : env) (db : store) (item : gmap string value)
    (style user_id : option string) :
  has_content item = true ->
  is_ok (sql_text (get item "doi")) = true ->
  is_ok (sql_text (get item "title")) = true ->
  exists r, save_to_ltm e db item style user_id true = Ok (db ++ [r])
            /\ row_metadata r = item.
Proof.
  intros Hc Hd Ht. rewrite save_to_ltm_saves; [|exact Hc|now left].
  destruct (sql_text (get item "doi")) as [doi|]; [|discriminate Hd].
  destruct (sql_text (get item "title")) as [title|]; [|discriminate Ht].
  cbn [mbind result_bind bind]. eexists. split; reflexivity.
Qed.

Lemma save_to_ltm_forced_witness :
  exists r, save_to_ltm env_without_engine [] {[ "title" := VStr "Deep Learning" ]}
                        None None true
            = Ok ([] ++ [r])
            /\ row_metadata r = {[ "title" := VStr "Deep Learning" ]}.
Proof.
  apply (save_to_ltm_forced env_without_engine [] {[ "title" := VStr "Deep Learning" ]});
    reflexivity.
Defined.

Lemma found_duplicate_plain_doi (db : store) (item : gmap string value) (r : row)
    (d d0 : string) :
  get item "doi" = VStr d -> d <> "" ->
  In r db -> row_doi r = Some d0 ->
  forallb_str plain_char d0 = true ->
  lower (strip d0) = lower (strip d) ->
  found_duplicate db item = true.
Proof.
  intros Hd Hne Hin Hr Hplain Heq.
  assert (Htt : truthy (VStr d) = true) by now apply nonempty_true.
  unfold found_duplicate, exists_duplicate.
  rewrite Hd, !(por_text d) by exact Hne. rewrite Htt.
  cbn [vstrip mbind result_bind bind].
  rewrite (select_lower_trim_In row_doi (lower (strip d)) d0 db r Hin Hr); [reflexivity|].
  now rewrite sql_lower_trim_plain.
Qed.

Lemma found_duplicate_app (db : store) (item : gmap string value) (r : row) :
  found_duplicate db item = true -> found_duplicate (db ++ [r]) item = true.
Proof.
  unfold found_duplicate, exists_duplicate, select_lower_trim.
  destruct (truthy (por (get item "doi") VNone)).
  - destruct (vstrip (por (por (get item "doi") VNone) (VStr ""))) as [dn|]; [|discriminate].
    cbn [mbind result_bind bind]. rewrite existsb_app.
    destruct (existsb _ db); [reflexivity|]. cbn [orb].
    destruct (existsb _ [r]); [reflexivity|].
    destruct (truthy (por (get item "title") VNone)); [|discriminate].
    destruct (vstrip (por (por (get item "title") VNone) (VStr ""))) as [tn|]; [|discriminate].
    cbn [mbind result_bind bind]. rewrite existsb_app.
    destruct (existsb _ db); [reflexivity|discriminate].
  - cbn [mbind result_bind bind].
    destruct (truthy (por (get item "title") VNone)); [|discriminate].
    destruct (vstrip (por (por (get item "title") VNone) (VStr ""))) as [tn|]; [|discriminate].
    cbn [mbind result_bind bind]. rewrite existsb_app.
    destruct (existsb _ db); [reflexivity|discriminate].
Qed.

Lemma plainly_keyed_content (item : gmap string value) :
  plainly_keyed item = true -> has_content item = true.
Proof.
  unfold plainly_keyed, has_content.
  assert (Htitle : match get item "title" with
                   | VStr t => nonempty (strip t) && forallb_str plain_char t
                   | _ => false
                   end = true ->
                   truthy (get item "title") && nonempty (strip (str (get item "title")))
                   = true).
  { destruct (get item "title") as [| | |t|]; try discriminate.
    intros H. apply andb_true_iff in H as [H _]. cbn [str]. rewrite H.
    destruct t; [discriminate H|reflexivity]. }
  destruct (get item "doi") as [|[]|z|d|l]; cbn [truthy negb andb];
    try discriminate; try (intros H; now rewrite (Htitle H)).
  - intros H. apply andb_true_iff in H as [_ H]. now rewrite (Htitle H).
  - fold (nonempty d). destruct (nonempty d); [intros _; now rewrite orb_true_r|].
    intros H. now rewrite (Htitle H).
  - destruct l; [|discriminate]. intros H. now rewrite (Htitle H).
Qed.

Lemma strip_nonempty (t : string) : nonempty (strip t) = true -> t <> "".
Proof. intros H ->. discriminate H. Qed.

(** A row that carries the doi and title of a plainly keyed item makes the
    lookup find the item. *)
Lemma found_duplicate_own_row (db : store) (item : gmap string value) (r : row) :
  plainly_keyed item = true ->
  In r db ->
  sql_text (get item "doi") = Ok (row_doi r) ->
  sql_text (get item "title") = Ok (row_title r) ->
  found_duplicate db item = true.
Proof.
  unfold plainly_keyed. intros Hk Hin Hd Ht.
  assert (Htitle : truthy (get item "doi") = false ->
                   match get item "title" with
                   | VStr t => nonempty (strip t) && forallb_str plain_char t
                   | _ => false
                   end = true -> found_duplicate db item = true).
  { intros Hf Hk'. destruct (get item "title") as [| | |t|] eqn:Et; try discriminate Hk'.
    apply andb_true_iff in Hk' as [Hne Hp]. cbn [sql_text] in Ht. injection Ht as Ht.
    apply (found_duplicate_plain_title db item r t t);
      [exact Hf|exact Et|now apply strip_nonempty|exact Hin|now symmetry|exact Hp|reflexivity]. }
  destruct (get item "doi") as [|[]|z|d|l] eqn:Ed; cbn [truthy negb andb] in Hk;
    try discriminate Hk; try (now apply Htitle).
  - apply andb_true_iff in Hk as [Hz Hk]. apply Htitle; [|exact Hk].
    cbn [truthy]. now apply negb_true_iff in Hz.
  - destruct (nonempty d) eqn:Hne.
    + cbn [sql_text] in Hd. injection Hd as Hd.
      apply (found_duplicate_plain_doi db item r d d);
        [exact Ed|now apply nonempty_true|exact Hin|now symmetry|exact Hk|reflexivity].
    + apply nonempty_false in Hne as ->. now apply Htitle.
Qed.

(** X17. Saving is idempotent for a plainly keyed record: once
    [save_to_ltm] has returned, the duplicate lookup finds the record, and
    saving it again without [force_save] leaves the table as it is. *)
Theorem save_to_ltm_twice (e e' : env) (db db' : store) (item : gmap string value)
    (style style' user_id user_id' : option string) (force_save : bool) :
  plainly_keyed item = true ->
  save_to_ltm e db item style user_id force_save = Ok db' ->
  found_duplicate db' item = true
  /\ save_to_ltm e' db' item style' user_id' false = Ok db'.
Proof.
  intros Hk H.
  assert (Hfound : found_duplicate db' item = true).
  { apply save_to_ltm_cases in H as [[_ Hc]|[[-> [_ Hf]]|(r & -> & _ & Hd & Ht & _)]].
    - rewrite (plainly_keyed_content item Hk) in Hc. discriminate Hc.
    - exact Hf.
    - apply (found_duplicate_own_row _ item r Hk); [|exact Hd|exact Ht].
      apply in_or_app. right. now left. }
  split; [exact Hfound|]. now apply save_to_ltm_duplicate_found.
Qed.

Lemma save_to_ltm_twice_witness :
  exists db',
    save_to_ltm env_without_engine [] {[ "doi" := VStr "10.1000/xyz123" ]} None None false
    = Ok db'
    /\ found_duplicate db' {[ "doi" := VStr "10.1000/xyz123" ]} = true
    /\ save_to_ltm env_failing_engine db' {[ "doi" := VStr "10.1000/xyz123" ]}
                    (Some "MLA") None false = Ok db'.
Proof.
  eexists. split; [vm_compute; reflexivity|].
  apply (save_to_ltm_twice env_without_engine env_failing_engine [] _
           {[ "doi" := VStr "10.1000/xyz123" ]} None (Some "MLA") None None false);
    vm_compute; reflexivity.
Defined.



(** ** Renderer: the manual concatenation *)

Lemma partition_complete (sub a b : string) : partition sub (a +:+ sub +:+ b) <> None.
Proof.
  induction a as [|c a IH].
  - change ("" +:+ sub +:+ b) with (sub +:+ b).
    destruct (sub +:+ b) eqn:E; cbn [partition]; rewrite <- E, startswith_app_self;
      discriminate.
  - rewrite app_cons. cbn [partition].
    destruct (startswith sub (String c (a +:+ sub +:+ b))); [discriminate|].
    destruct (partition sub (a +:+ sub +:+ b)) as [[x y]|]; [discriminate|].
    now contradict IH.
Qed.

Lemma contains_app (sub a b : string) : contains sub (a +:+ sub +:+ b) = true.
Proof.
  unfold contains. pose proof (partition_complete sub a b).
  now destruct (partition sub (a +:+ sub +:+ b)).
Qed.

Lemma join_In (sep x : string) (l : list string) :
  In x l -> exists a b, join sep l = a +:+ x +:+ b.
Proof.
  induction l as [|y l IH]; [intros []|].
  intros [->|Hin].
  - destruct l as [|z l].
    + exists "", "". cbn [join]. now rewrite app_empty_r.
    + exists "", (sep +:+ join sep (z :: l)). reflexivity.
  - destruct (IH Hin) as (a & b & E). destruct l as [|z l]; [destruct Hin|].
    exists (y +:+ sep +:+ a), b. cbn [join]. cbn [join] in E. rewrite E.
    now rewrite !app_assoc_str.
Qed.

Lemma join_contains (sep x : string) (l : list string) :
  In x l -> contains x (join sep l) = true.
Proof. intros H. destruct (join_In sep x l H) as (a & b & ->). apply contains_app. Qed.

Lemma app_nonempty_l (a b : string) : a <> "" -> a +:+ b <> "".
Proof. destruct a; [now intros []|discriminate]. Qed.

Lemma app_nonempty_r (a b : string) : b <> "" -> a +:+ b <> "".
Proof. destruct a; [now intros H|discriminate]. Qed.

Lemma join_nonempty (sep x : string) (l : list string) :
  In x l -> x <> "" -> join sep l <> "".
Proof.
  intros Hin Hx. destruct (join_In sep x l Hin) as (a & b & ->).
  apply app_nonempty_r. now apply app_nonempty_l.
Qed.

Lemma pretty_N_go_nonempty (x : N) (s : string) : s <> "" -> pretty_N_go x s <> "".
Proof.
  revert s. induction (N.lt_wf_0 x) as [x _ IH]; intros s Hs.
  assert (x = 0 \/ 0 < x)%N as [->|Hx] by lia.
  - now rewrite pretty_N_go_0.
  - rewrite pretty_N_go_step by exact Hx. apply IH; [now apply N.div_lt|discriminate].
Qed.

Lemma pretty_Z_nonempty (z : Z) : pretty z <> "".
Proof.
  assert (Hp : forall p, pretty (Npos p) <> "").
  { intros p. unfold pretty, pretty_N. cbn [decide]. 
    destruct (decide (N.pos p = 0%N)); [discriminate|].
    rewrite pretty_N_go_step by lia. apply pretty_N_go_nonempty. discriminate. }
  destruct z as [|p|p]; [discriminate|apply Hp|].
  unfold pretty, pretty_Z. apply app_nonempty_l. discriminate.
Qed.

(** The text of a truthy value is not empty. *)
Lemma str_truthy (v : value) : truthy v = true -> str v <> "".
Proof.
  destruct v as [|[]|z|s|l]; cbn [truthy str repr]; try discriminate.
  - intros _. apply pretty_Z_nonempty.
  - intros H. now apply nonempty_true.
Qed.

Lemma all_str_texts (l : list value) :
  forallb is_text l = true -> exists l', all_str l = Ok l' /\ l = map VStr l'.
Proof.
  induction l as [|v l IH]; [intros _; now exists []|].
  cbn [forallb]. intros H. apply andb_true_iff in H as [Hv Hl].
  destruct v as [| | |s|]; try discriminate Hv.
  destruct (IH Hl) as (l' & E & ->). exists (s :: l'). cbn [all_str]. rewrite E.
  now split.
Qed.

Lemma all_str_map (l : list string) : all_str (map VStr l) = Ok l.
Proof. induction l as [|s l IH]; [reflexivity|]. cbn [map all_str]. now rewrite IH. Qed.

Lemma vstrip_title (item : gmap string value) :
  title_is_text item = true ->
  exists t, vstrip (por (get item "title") (VStr "")) = Ok t.
Proof.
  unfold title_is_text.
  destruct (get item "title") as [|[]|z|s|l]; cbn [truthy negb]; try discriminate;
    try (intros _; now exists "").
  - destruct z; try discriminate. intros _. now exists "".
  - intros _. unfold por. destruct (truthy (VStr s)); eexists; reflexivity.
  - destruct l; try discriminate. intros _. now exists "".
Qed.

Lemma vstrip_text (v : value) : is_text v = true -> exists t, vstrip v = Ok t.
Proof. destruct v; try discriminate. intros _. eexists. reflexivity. Qed.

Lemma por_truthy (a b : value) : truthy b = true -> truthy (por a b) = true.
Proof. intros Hb. unfold por. destruct (truthy a) eqn:E; [exact E|exact Hb]. Qed.

Lemma filter_nonempty_In (x : string) (l : list string) :
  In x l -> x <> "" -> In x (List.filter nonempty l).
Proof. intros Hin Hx. apply List.filter_In. split; [exact Hin|now apply nonempty_true]. Qed.

Lemma manual_format_returns (item : gmap string value) :
  renderable item = true ->
  exists s, manual_format item = Ok s
            /\ s <> ""
            /\ contains (str (por (get item "year") (VStr "n.d."))) s = true.
Proof.
  unfold renderable. intros H.
  apply andb_true_iff in H as [H Hu]. apply andb_true_iff in H as [H Hj].
  apply andb_true_iff in H as [Ha Ht].
  unfold manual_format.
  assert (Hy : str (por (get item "year") (VStr "n.d.")) <> "")
    by (apply str_truthy, por_truthy; reflexivity).
  generalize dependent (str (por (get item "year") (VStr "n.d."))). intros y Hy.
  generalize (strip (str (por (get item "volume") (VStr "")))). intros vol.
  generalize (strip (str (por (get item "issue") (VStr "")))). intros iss.
  generalize (strip (str (por (get item "pages") (VStr "")))). intros pg.
  match goal with
  | |- context [mbind _ ?A] =>
      assert (Hau : exists a, A = Ok a);
      [|destruct Hau as [a ->]]
  end.
  { destruct (por (get item "authors") _) as [|[]|z|s|l]; cbn [truthy negb] in *;
      try discriminate Ha; try (now exists "Unknown").
    - destruct z; try discriminate Ha. now exists "Unknown".
    - destruct (negb (s =? "")); eexists; reflexivity.
    - destruct l as [|v l]; [now exists "Unknown"|].
      destruct (all_str_texts _ Ha) as (l' & E & _). unfold join_value. rewrite E.
      eexists. reflexivity. }
  cbn [mbind result_bind bind].
  destruct (vstrip_title item Ht) as [t ->]. cbn [mbind result_bind bind].
  destruct (vstrip_text _ Hj) as [j ->]. cbn [mbind result_bind bind].
  assert (Htail : exists tl,
             (if truthy (get item "doi")
              then VStr ("https://doi.org/"
                         +:+ strip (replace_all "https://doi.org/" "" (str (get item "doi"))))
              else por (get item "url") (VStr "")) = VStr tl).
  { destruct (truthy (get item "doi")); [eexists; reflexivity|].
    cbn [orb] in Hu. destruct (por (get item "url") (VStr "")); try discriminate Hu.
    eexists. reflexivity. }
  destruct Htail as [tl ->].
  set (vi := (if negb (vol =? "") then vol else "")
             +:+ (if negb (iss =? "") then "(" +:+ iss +:+ ")" else "")).
  match goal with
  | |- context [List.filter truthy ?B] =>
      assert (E : List.filter truthy B
                  = map VStr (List.filter nonempty [a; y; t; j; vi; pg; tl]))
  end.
  { subst vi. destruct a, y, t, j, vol, iss, pg, tl; reflexivity. }
  rewrite E. unfold join_value. rewrite all_str_map. cbn [mbind result_bind bind].
  assert (Hin : In y (List.filter nonempty [a; y; t; j; vi; pg; tl])).
  { apply filter_nonempty_In; [right; now left|exact Hy]. }
  eexists. split; [reflexivity|]. split.
  - now apply (join_nonempty ". " y).
  - now apply join_contains.
Qed.

(** X19. With [citeproc] importable and the style file on disk,
    [format_with_csl] never raises on a record whose fields have the
    expected types: whatever the engine does, a text comes back.  When
    the engine raises, that text is the manual concatenation, which is
    never empty and always contains the year (or "n.d." when there is
    none). *)
Theorem format_with_csl_total (e : env) (style : option string) (item : gmap string value)
    (source_type : option string) (include_doi : bool) :
  CITEPROC_AVAILABLE e = true ->
  path_exists e (_style_path e style) = true ->
  renderable item = true ->
  exists s,
    format_with_csl e style item source_type include_doi = Ok s
    /\ (is_ok (citeproc_render e (_style_path e style) item source_type include_doi) = false ->
        manual_format item = Ok s
        /\ s <> ""
        /\ contains (str (por (get item "year") (VStr "n.d."))) s = true).
Proof.
  intros Ha Hp Hr. unfold format_with_csl. rewrite Ha, Hp. cbn [negb].
  destruct (citeproc_render e (_style_path e style) item source_type include_doi) as [s|x].
  - exists s. split; [reflexivity|discriminate].
  - cbn [catch]. destruct (manual_format_returns item Hr) as (s & Hs & Hne & Hy).
    exists s. split; [exact Hs|]. intros _. now repeat split.
Qed.

Lemma format_with_csl_total_witness :
  exists s,
    format_with_csl env_failing_engine (Some "MLA") record_X (Some "book") false = Ok s
    /\ (is_ok (citeproc_render env_failing_engine
                 (_style_path env_failing_engine (Some "MLA")) record_X (Some "book") false)
        = false ->
        manual_format record_X = Ok s
        /\ s <> ""
        /\ contains (str (por (get record_X "year") (VStr "n.d."))) s = true).
Proof.
  apply (format_with_csl_total env_failing_engine (Some "MLA") record_X (Some "book") false);
    reflexivity.
Defined.

(** ** Normalizer: the names an author string gives *)

Lemma lstrip_by_empty (ws : ascii -> bool) (s : string) :
  lstrip_by ws s = "" -> forallb_str ws s = true.
Proof.
  induction s as [|c s IH]; [reflexivity|].
  cbn [lstrip_by forallb_str]. destruct (ws c); [exact IH|discriminate].
Qed.

Lemma rstrip_by_empty_clean (ws : ascii -> bool) (s : string) :
  clean_start ws s -> rstrip_by ws s = "" -> s = "".
Proof.
  destruct s as [|c r]; [reflexivity|].
  cbn [clean_start]. intros Hc. rewrite rstrip_by_cons_keep by exact Hc. discriminate.
Qed.

Lemma strip_empty_spaces (s : string) : strip s = "" -> forallb_str isspace s = true.
Proof.
  unfold strip, strip_by. intros H. apply lstrip_by_empty.
  apply (rstrip_by_empty_clean isspace); [apply lstrip_by_clean|exact H].
Qed.

Lemma re_split_class_none (cls : ascii -> bool) (s : string) :
  existsb_str cls s = false -> re_split_class cls s = [s].
Proof.
  induction s as [|c s IH]; [reflexivity|].
  cbn [existsb_str re_split_class]. intros H. apply orb_false_iff in H as [Hc Hs].
  now rewrite Hc, (IH Hs).
Qed.

Lemma spaces_no_sep (s : string) :
  forallb_str isspace s = true -> existsb_str author_sep s = false.
Proof.
  induction s as [|c s IH]; [reflexivity|].
  cbn [forallb_str existsb_str]. intros H. apply andb_true_iff in H as [Hc Hs].
  rewrite (IH Hs), orb_false_r. unfold author_sep.
  destruct (Ascii.eqb_spec c ";") as [->|]; [discriminate Hc|].
  destruct (Ascii.eqb_spec c ",") as [->|]; [discriminate Hc|reflexivity].
Qed.

(** X20. A non-empty author string always gives at least one name, and
    every name is trimmed.  When some segment between separators is not
    blank, no name is empty or holds a separator; when the whole string is
    white space, the one name returned is the empty string. *)
Theorem split_authors_names (s : string) :
  s <> "" ->
  exists l, _split_authors (VStr s) = Ok l
            /\ l <> []
            /\ Forall (fun p => strip p = p) l
            /\ (author_segments s <> [] ->
                Forall (fun p => p <> "" /\ existsb_str author_sep p = false) l)
            /\ (strip s = "" -> l = [""]).
Proof.
  intros Hs. rewrite (_split_authors_text s Hs). eexists. split; [reflexivity|].
  pose proof (author_segments_clean s) as Hclean.
  destruct (author_segments s) as [|p segs] eqn:E.
  - split; [discriminate|]. split; [repeat constructor; apply strip_idem|].
    split; [now intros []|]. now intros ->.
  - split; [discriminate|]. split; [|split].
    + eapply Forall_impl; [exact Hclean|]. now intros x (_ & H & _).
    + intros _. eapply Forall_impl; [exact Hclean|]. now intros x (H1 & _ & H2).
    + intros Hblank. exfalso.
      pose proof (strip_empty_spaces s Hblank) as Hsp.
      unfold author_segments in E.
      rewrite (re_split_class_none author_sep s (spaces_no_sep s Hsp)) in E.
      cbn [map List.filter] in E. rewrite Hblank in E. discriminate E.
Qed.

Lemma split_authors_names_witness :
  exists l, _split_authors (VStr "Ada Lovelace; Turing, Alan ;") = Ok l
            /\ l <> []
            /\ Forall (fun p => strip p = p) l
            /\ (author_segments "Ada Lovelace; Turing, Alan ;" <> [] ->
                Forall (fun p => p <> "" /\ existsb_str author_sep p = false) l)
            /\ (strip "Ada Lovelace; Turing, Alan ;" = "" -> l = [""]).
Proof. apply (split_authors_names "Ada Lovelace; Turing, Alan ;"). discriminate. Defined.

(** ** Style files *)

Lemma length_app_str (a b : string) :
  String.length (a +:+ b) = String.length a + String.length b.
Proof. induction a as [|c a IH]; [reflexivity|]. rewrite app_cons. cbn. now rewrite IH. Qed.

Lemma drop_app_plus (a n : string) (k : nat) :
  drop (String.length a + k) (a +:+ n) = drop k n.
Proof. induction a as [|c a IH]; [reflexivity|]. rewrite app_cons. exact IH. Qed.

Lemma endswith_app (suffix a n : string) :
  StylePath.endswith suffix n = true -> StylePath.endswith suffix (a +:+ n) = true.
Proof.
  unfold StylePath.endswith. intros H. apply andb_true_iff in H as [Hl Hd].
  apply Nat.leb_le in Hl. rewrite length_app_str.
  apply andb_true_iff. split; [apply Nat.leb_le; lia|].
  replace (String.length a + String.length n - String.length suffix)
    with (String.length a + (String.length n - String.length suffix)) by lia.
  now rewrite drop_app_plus.
Qed.

Lemma os_path_join_endswith (suffix d n : string) :
  StylePath.endswith suffix n = true ->
  StylePath.endswith suffix (StylePath.os_path_join d n) = true.
Proof.
  intros H. unfold StylePath.os_path_join.
  destruct (startswith "/" n); [exact H|].
  destruct ((d =? "") || StylePath.endswith "/" d).
  - now apply endswith_app.
  - rewrite <- app_assoc_str. now apply endswith_app.
Qed.

Lemma STYLE_FILE_MAP_csl (style_key : string) :
  Forall (fun n => StylePath.endswith ".csl" n = true) (StylePath.STYLE_FILE_MAP style_key)
  /\ StylePath.STYLE_FILE_MAP style_key <> [].
Proof.
  unfold StylePath.STYLE_FILE_MAP.
  repeat match goal with
         | |- context [if ?b then _ else _] =>
             destruct b; [split; [repeat constructor|discriminate]|]
         end.
  split; [|discriminate]. repeat constructor. now apply endswith_app.
Qed.

Lemma first_existing_endswith (os : StylePath.os_state) (d p : string) (names : list string) :
  Forall (fun n => StylePath.endswith ".csl" n = true) names ->
  StylePath.first_existing os d names = Some p -> StylePath.endswith ".csl" p = true.
Proof.
  induction names as [|n names IH]; [discriminate|].
  intros HF. inversion HF as [|? ? Hn Hrest]; subst. cbn [StylePath.first_existing].
  destruct (StylePath.os_path_exists os (StylePath.os_path_join d n)).
  - intros [= <-]. now apply os_path_join_endswith.
  - now apply IH.
Qed.

Lemma first_by_token_endswith (d p : string) (tokens names : list string) :
  Forall (fun n => StylePath.endswith ".csl" n = true) names ->
  StylePath.first_by_token d tokens names = Some p -> StylePath.endswith ".csl" p = true.
Proof.
  induction names as [|n names IH]; [discriminate|].
  intros HF. inversion HF as [|? ? Hn Hrest]; subst. cbn [StylePath.first_by_token].
  destruct (existsb _ tokens).
  - intros [= <-]. now apply os_path_join_endswith.
  - now apply IH.
Qed.

Lemma resolve_in_dir_endswith (os : StylePath.os_state) (style_key d p : string) :
  StylePath.found (StylePath.resolve_in_dir os style_key d) = Some p ->
  StylePath.endswith ".csl" p = true.
Proof.
  unfold StylePath.found, StylePath.resolve_in_dir.
  destruct (StylePath.first_existing os d (StylePath.STYLE_FILE_MAP style_key)) as [q|] eqn:E.
  - destruct (q =? ""); [discriminate|]. intros [= <-].
    eapply first_existing_endswith; [|exact E]. apply STYLE_FILE_MAP_csl.
  - destruct (StylePath.os_listdir os d) as [listed|]; [|discriminate].
    destruct (StylePath.first_by_token d _ _) as [q|] eqn:E2; [|discriminate].
    destruct (q =? ""); [discriminate|]. intros [= <-].
    eapply first_by_token_endswith; [|exact E2].
    apply list.Forall_forall. intros x Hx. apply list_elem_of_In in Hx.
    now apply List.filter_In in Hx as [_ Hx].
Qed.

(** X21. Whatever the style name and whatever is on disk, the path
    [_style_path] returns ends in [.csl]. *)
Theorem style_path_ends_in_csl (os : StylePath.os_state) (style : option string) :
  StylePath.endswith ".csl" (StylePath._style_path os style) = true.
Proof.
  unfold StylePath._style_path.
  set (key := lower (strip _)).
  assert (Hdefault : forall d, StylePath.endswith ".csl"
                        (StylePath.os_path_join d (hd "" (StylePath.STYLE_FILE_MAP key))) = true).
  { intros d. apply os_path_join_endswith.
    destruct (STYLE_FILE_MAP_csl key) as [HF Hne].
    destruct (StylePath.STYLE_FILE_MAP key) as [|c cs]; [now contradict Hne|].
    now inversion HF. }
  assert (Hlocal : StylePath.endswith ".csl"
            match StylePath.found (StylePath.resolve_in_dir os key
                    (StylePath.os_path_join (StylePath.module_dirname os) "csl")) with
            | Some p => p
            | None => StylePath.os_path_join
                        (StylePath.os_path_join (StylePath.module_dirname os) "csl")
                        (hd "" (StylePath.STYLE_FILE_MAP key))
            end = true).
  { destruct (StylePath.found _) as [p|] eqn:E; [|apply Hdefault].
    now apply resolve_in_dir_endswith in E. }
  destruct (StylePath.environ_CSL_STYLE_DIR os) as [d|]; [|exact Hlocal].
  destruct (d =? ""); [exact Hlocal|].
  destruct (StylePath.found (StylePath.resolve_in_dir os key d)) as [p|] eqn:E; [|exact Hlocal].
  now apply resolve_in_dir_endswith in E.
Qed.





Example style_path_unknown_style :
  StylePath._style_path
    {| StylePath.environ_CSL_STYLE_DIR := Some "/srv/styles";
       StylePath.module_dirname := "/app/agents/citation_manager";
       StylePath.os_path_exists := fun _ => false;
       StylePath.os_listdir := fun _ => None |}
    (Some " Vancouver ")
  = "/app/agents/citation_manager/csl/vancouver.csl".
Proof. vm_compute. reflexivity. Qed.

(** ** CSL-JSON *)

Section Words.
Variable cls : ascii -> bool.

Lemma words_by_cons_keep (c : ascii) (r : string) :
  cls c = false ->
  exists w ws, words_by cls (String c r) = String c w :: ws.
Proof.
  intros Hc. cbn [words_by]. rewrite Hc. destruct r as [|d r']; [now exists "", []|].
  destruct (cls d); [now exists "", (words_by cls (String d r'))|].
  destruct (words_by cls (String d r')) as [|w ws]; [now exists "", []|].
  now exists w, ws.
Qed.

(** Every word is non-empty and free of separating characters. *)
Lemma words_by_clean (s : string) :
  Forall (fun w => w <> "" /\ existsb_str cls w = false) (words_by cls s).
Proof.
  induction s as [|c r IH]; [constructor|].
  cbn [words_by]. destruct (cls c) eqn:Hc; [exact IH|].
  destruct r as [|d r']; [repeat constructor; [discriminate|cbn; now rewrite Hc]|].
  destruct (cls d) eqn:Hd.
  - constructor; [|exact IH]. split; [discriminate|]. cbn. now rewrite Hc.
  - destruct (words_by cls (String d r')) as [|w ws].
    + repeat constructor; [discriminate|cbn; now rewrite Hc].
    + inversion IH as [|? ? [_ Hw] Hws]; subst. constructor; [|exact Hws].
      split; [discriminate|]. cbn [existsb_str]. now rewrite Hc, Hw.
Qed.

Lemma words_by_lstrip (s : string) : words_by cls (lstrip_by cls s) = words_by cls s.
Proof.
  induction s as [|c r IH]; [reflexivity|].
  cbn [lstrip_by]. destruct (cls c) eqn:Hc; [|reflexivity].
  rewrite IH. cbn [words_by]. now rewrite Hc.
Qed.

Lemma words_by_spaces (s : string) : forallb_str cls s = true -> words_by cls s = [].
Proof.
  induction s as [|c r IH]; [reflexivity|].
  cbn [forallb_str words_by]. intros H. apply andb_true_iff in H as [Hc Hr].
  rewrite Hc. now apply IH.
Qed.

Lemma rstrip_by_spaces (s : string) : rstrip_by cls s = "" -> forallb_str cls s = true.
Proof.
  induction s as [|c r IH]; [reflexivity|].
  cbn [rstrip_by forallb_str]. destruct (rstrip_by cls r) eqn:E; [|discriminate].
  destruct (cls c); [intros _; now apply IH|discriminate].
Qed.

Lemma rstrip_by_head (r : string) (d : ascii) (t : string) :
  rstrip_by cls r = String d t -> exists r0, r = String d r0.
Proof.
  destruct r as [|c r0]; [discriminate|]. cbn [rstrip_by].
  destruct (rstrip_by cls r0); [destruct (cls c); [discriminate|]|];
    intros [= <- _]; now exists r0.
Qed.

Lemma words_by_rstrip (s : string) : words_by cls (rstrip_by cls s) = words_by cls s.
Proof.
  induction s as [|c r IH]; [reflexivity|].
  cbn [rstrip_by]. destruct (rstrip_by cls r) as [|d t] eqn:E.
  - pose proof (rstrip_by_spaces r E) as Hsp.
    pose proof (words_by_spaces r Hsp) as Hw.
    destruct (cls c) eqn:Hc.
    + cbn [words_by]. now rewrite Hc, Hw.
    + cbn [words_by]. rewrite Hc. destruct r as [|d r']; [reflexivity|].
      cbn [forallb_str] in Hsp. apply andb_true_iff in Hsp as [Hd _]. now rewrite Hd, Hw.
  - destruct (rstrip_by_head r d t E) as [r0 ->].
    change (words_by cls (String c (String d t)))
      with (if cls c then words_by cls (String d t)
            else if cls d then String c "" :: words_by cls (String d t)
                 else match words_by cls (String d t) with
                      | w :: ws => String c w :: ws
                      | [] => [String c ""]
                      end).
    change (words_by cls (String c (String d r0)))
      with (if cls c then words_by cls (String d r0)
            else if cls d then String c "" :: words_by cls (String d r0)
                 else match words_by cls (String d r0) with
                      | w :: ws => String c w :: ws
                      | [] => [String c ""]
                      end).
    now rewrite IH.
Qed.

Lemma words_by_strip (s : string) : words_by cls (strip_by cls s) = words_by cls s.
Proof. unfold strip_by. now rewrite words_by_rstrip, words_by_lstrip. Qed.

End Words.

Lemma join_removelast_last (sep : string) (l : list string) :
  2 <= length l ->
  join sep l = join sep (List.removelast l) +:+ sep +:+ List.last l "".
Proof.
  induction l as [|x l IH]; [cbn; lia|].
  destruct l as [|y l]; [cbn; lia|]. intros _.
  destruct l as [|z l]; [reflexivity|].
  change (join sep (x :: y :: z :: l)) with (x +:+ sep +:+ join sep (y :: z :: l)).
  rewrite IH by (cbn; lia).
  change (List.removelast (x :: y :: z :: l)) with (x :: List.removelast (y :: z :: l)).
  change (List.last (x :: y :: z :: l) "") with (List.last (y :: z :: l) "").
  destruct (List.removelast (y :: z :: l)) as [|a rest] eqn:E; [discriminate E|].
  change (join sep (x :: a :: rest)) with (x +:+ sep +:+ join sep (a :: rest)).
  now rewrite !app_assoc_str.
Qed.

Lemma last_In (l : list string) : l <> [] -> In (List.last l "") l.
Proof.
  induction l as [|x l IH]; [now intros []|]. intros _.
  destruct l as [|y l]; [now left|]. right. apply IH. discriminate.
Qed.

(** X23. A name given as text is split on white space: no word gives a
    literal name (the text itself), one word gives a family name, and
    several give a given name and a family name that, joined by one
    space, are the words of the name joined by single spaces; the family
    name is the last word, so it is not empty and holds no white space. *)
Theorem split_name_words (s : string) :
  exists n, _split_name (VStr s) = Ok n
    /\ match n with
       | NameLiteral l => words_by isspace s = [] /\ l = s
       | NameFamily f => words_by isspace s = [f]
       | NameGivenFamily g f =>
           2 <= length (words_by isspace s)
           /\ g +:+ " " +:+ f = join " " (words_by isspace s)
           /\ f <> "" /\ existsb_str isspace f = false
       end.
Proof.
  unfold _split_name.
  assert (Hs : vstrip (por (VStr s) (VStr "")) = Ok (strip s)
               /\ str (por (VStr s) (VStr "")) = s).
  { destruct s; now split. }
  destruct Hs as [-> Hstr]. cbn [mbind result_bind bind].
  unfold strip. rewrite words_by_strip.
  pose proof (words_by_clean isspace s) as Hclean.
  destruct (words_by isspace s) as [|p [|q rest]] eqn:E.
  - eexists. split; [reflexivity|]. now split.
  - eexists. split; reflexivity.
  - eexists. split; [reflexivity|]. unfold init_last. cbn [fst snd].
    split; [cbn; lia|]. split; [symmetry; apply join_removelast_last; cbn; lia|].
    assert (Hin : In (List.last (p :: q :: rest) "") (p :: q :: rest))
      by (apply last_In; discriminate).
    apply list_elem_of_In in Hin.
    exact (proj1 (list.Forall_forall _ _) Hclean _ Hin).
Qed.

Lemma split_name_text (s : string) : exists n, _split_name (VStr s) = Ok n.
Proof.
  unfold _split_name.
  assert (Hs : vstrip (por (VStr s) (VStr "")) = Ok (strip s)) by now destruct s.
  rewrite Hs. cbn [mbind result_bind bind].
  destruct (words_by isspace (strip s)) as [|p [|q rest]]; eexists; reflexivity.
Qed.

Lemma map_result_split_name (l : list value) :
  forallb is_text l = true ->
  exists names, map_result _split_name l = Ok names /\ length names = length l.
Proof.
  induction l as [|a l IH]; [now exists []|].
  cbn [forallb]. intros H. apply andb_true_iff in H as [Ha Hl].
  destruct a as [| | |s|]; try discriminate Ha.
  destruct (split_name_text s) as [n Hn]. destruct (IH Hl) as (names & Hnames & Hlen).
  exists (n :: names). cbn [map_result]. rewrite Hn, Hnames. cbn. now rewrite Hlen.
Qed.

Lemma typemap_cases (key : string) :
  In (typemap key) ["article-journal"; "book"; "webpage"].
Proof.
  unfold typemap.
  destruct (key =? "article"); [now left|].
  destruct (key =? "book"); [right; now left|].
  destruct (key =? "web"); [right; right; now left|now left].
Qed.

Lemma por_default_truthy (v d : value) : truthy d = true -> truthy (por v d) = true.
Proof. intros Hd. unfold por. now destruct (truthy v) eqn:E. Qed.

(** X24. For a record whose authors (the list under [authors], or else
    the one value under [author]) are texts, [map_to_csl_json] returns an
    item with one CSL name per author, or the single literal name
    [Unknown] when there is none, so its author list is never empty.
    The item's id is never falsy, its type is one of [article-journal],
    [book] and [webpage], and it carries a DOI exactly when one is asked
    for and the record has a truthy doi. *)
Theorem map_to_csl_json_item (item : gmap string value) (source_type : option string)
    (include_doi : bool) (l : list value) :
  author_values item = VList l ->
  forallb is_text l = true ->
  exists c, map_to_csl_json item source_type include_doi = Ok c
    /\ (l = [] -> csl_author c = [NameLiteral "Unknown"])
    /\ (l <> [] -> map_result _split_name l = Ok (csl_author c))
    /\ length (csl_author c) = Nat.max 1 (length l)
    /\ truthy (csl_id c) = true
    /\ In (csl_type c) ["article-journal"; "book"; "webpage"]
    /\ (csl_DOI c <> None <-> include_doi = true /\ truthy (get item "doi") = true).
Proof.
  intros Ha Hl. unfold author_values in Ha. unfold map_to_csl_json. rewrite Ha.
  cbn [iterate mbind result_bind bind].
  destruct (map_result_split_name l Hl) as (names & Hnames & Hlen).
  rewrite Hnames. cbn [mbind result_bind bind]. eexists. split; [reflexivity|].
  cbn [csl_author csl_id csl_type csl_DOI].
  split; [|split; [|split; [|split; [|split]]]].
  - intros ->. now destruct names.
  - intros Hne. destruct names; [destruct l; [now destruct Hne|discriminate Hlen]|reflexivity].
  - destruct names as [|n names]; [destruct l; [reflexivity|discriminate Hlen]|].
    rewrite Hlen. destruct l; [discriminate Hlen|]. cbn [length]. lia.
  - now apply por_default_truthy.
  - apply typemap_cases.
  - destruct include_doi, (truthy (get item "doi")); cbn [andb];
      split; try discriminate; try (intros [? ?]; discriminate); try now intros [].
    + now intros _.
Qed.

Lemma map_to_csl_json_item_witness :
  exists c, map_to_csl_json
              {[ "authors" := VList [VStr "Ada King Lovelace"; VStr "Turing"];
                 "doi" := VStr "https://doi.org/10.1000/abc" ]} (Some "Book") true = Ok c
    /\ ([VStr "Ada King Lovelace"; VStr "Turing"] = [] -> csl_author c = [NameLiteral "Unknown"])
    /\ ([VStr "Ada King Lovelace"; VStr "Turing"] <> [] ->
        map_result _split_name [VStr "Ada King Lovelace"; VStr "Turing"] = Ok (csl_author c))
    /\ length (csl_author c) = Nat.max 1 (length [VStr "Ada King Lovelace"; VStr "Turing"])
    /\ truthy (csl_id c) = true
    /\ In (csl_type c) ["article-journal"; "book"; "webpage"]
    /\ (csl_DOI c <> None
        <-> true = true
            /\ truthy (get ({[ "authors" := VList [VStr "Ada King Lovelace"; VStr "Turing"];
                               "doi" := VStr "https://doi.org/10.1000/abc" ]}
                            : gmap string value) "doi") = true).
Proof.
  apply (map_to_csl_json_item
           {[ "authors" := VList [VStr "Ada King Lovelace"; VStr "Turing"];
              "doi" := VStr "https://doi.org/10.1000/abc" ]} (Some "Book") true
           [VStr "Ada King Lovelace"; VStr "Turing"]); reflexivity.
Defined.

(** ** Searching: what a match tells *)

Import Search RawText.

Lemma app_empty_l (s : string) : "" +:+ s = s.
Proof. reflexivity. Qed.

Lemma substring_prefix (w t : string) : substring 0 (String.length w) (w +:+ t) = w.
Proof.
  induction w as [|c w IH]; [now destruct t|].
  rewrite app_cons. cbn [String.length substring]. now rewrite IH.
Qed.

Lemma consumed_app (x y : pos) (w : string) :
  after x = w +:+ after y -> consumed x y = w.
Proof.
  intros H. unfold consumed. rewrite H, length_app_str.
  replace (String.length w + String.length (after y) - String.length (after y))
    with (String.length w) by lia.
  apply substring_prefix.
Qed.

Section Run.
Context {R : Type}.
Implicit Types (k : pos -> caps -> option R) (x y : pos) (g : caps) (r : R).

Lemma run_PCls_inv (c : ascii -> bool) x g k r :
  run (PCls c) x g k = Some r ->
  exists a y, after x = String a (after y) /\ c a = true /\ k y g = Some r.
Proof.
  cbn [run]. destruct (after x) as [|a t] eqn:E; [discriminate|].
  destruct (c a) eqn:Hc; [|discriminate]. intros H.
  now exists a, {| before := Some a; after := t |}.
Qed.

Lemma run_PLit_inv (l : string) x g k r :
  run (PLit l) x g k = Some r ->
  exists y, after x = l +:+ after y /\ k y g = Some r.
Proof.
  revert x k. induction l as [|c l IH]; intros x k.
  - intros H. now exists x.
  - cbn [PLit run]. fold (run (R := R) (PCls (Ascii.eqb c))). intros H.
    apply run_PCls_inv in H as (a & y & Hx & Hc & H).
    apply Ascii.eqb_eq in Hc as <-.
    apply IH in H as (z & Hy & H). exists z. split; [|exact H].
    now rewrite Hx, Hy, app_cons.
Qed.

Lemma loop_PCls_inv (c : ascii -> bool) k (fuel : nat) :
  forall (lo : nat) (hi : option nat) x g r,
    loop (run (PCls c)) k fuel lo hi x g = Some r ->
    exists w y, after x = w +:+ after y
                /\ forallb_str c w = true
                /\ lo <= String.length w
                /\ (forall h, hi = Some h -> String.length w <= h)
                /\ k y g = Some r.
Proof.
  assert (Hstop : forall (lo : nat) (hi : option nat) x g r,
             (if (lo =? 0)%nat then k x g else None) = Some r ->
             exists w y, after x = w +:+ after y /\ forallb_str c w = true
                         /\ lo <= String.length w
                         /\ (forall h, hi = Some h -> String.length w <= h)
                         /\ k y g = Some r).
  { intros lo hi x g r H. destruct (Nat.eqb_spec lo 0) as [->|]; [|discriminate].
    exists "", x. repeat split; [cbn; lia|cbn; lia|exact H]. }
  induction fuel as [|fuel IH]; intros lo hi x g r; cbn [loop]; [apply Hstop|].
  assert (Hmore :
    match run (PCls c) x g (fun y g' =>
            if (String.length (after y) <? String.length (after x))%nat
            then loop (run (PCls c)) k fuel (Nat.pred lo) (Nat.pred <$> hi) y g'
            else None) with
    | Some r' => Some r'
    | None => if (lo =? 0)%nat then k x g else None
    end = Some r ->
    (forall h, hi = Some h -> 0 < h) ->
    exists w y, after x = w +:+ after y /\ forallb_str c w = true
                /\ lo <= String.length w
                /\ (forall h, hi = Some h -> String.length w <= h)
                /\ k y g = Some r).
  { intros H Hhi.
    destruct (run (PCls c) x g _) as [r'|] eqn:E; [|now apply Hstop].
    injection H as ->. apply run_PCls_inv in E as (a & y & Hx & Hc & E).
    destruct (String.length (after y) <? String.length (after x))%nat; [|discriminate].
    apply IH in E as (w & z & Hy & Hw & Hlo & Hup & E).
    exists (String a w), z. rewrite app_cons, <- Hy. cbn [forallb_str String.length].
    rewrite Hc, Hw. repeat split; [exact Hx|lia| |exact E].
    intros h ->. specialize (Hhi _ eq_refl). specialize (Hup (Nat.pred h) eq_refl). lia. }
  destruct hi as [[|h]|].
  - apply Hstop.
  - intros H. apply Hmore; [exact H|]. intros ? [= <-]. lia.
  - intros H. apply Hmore; [exact H|]. discriminate.
Qed.

Lemma run_PRep_PCls_inv (lo : nat) (hi : option nat) (c : ascii -> bool) x g k r :
  run (PRep lo hi (PCls c)) x g k = Some r ->
  exists w y, after x = w +:+ after y
              /\ forallb_str c w = true
              /\ lo <= String.length w
              /\ (forall h, hi = Some h -> String.length w <= h)
              /\ k y g = Some r.
Proof. apply loop_PCls_inv. Qed.

Lemma run_PAlt_inv (a b : pat) x g k r :
  run (PAlt a b) x g k = Some r -> run a x g k = Some r \/ run b x g k = Some r.
Proof. cbn [run]. destruct (run a x g k); [now left|now right]. Qed.

Lemma run_PWordB_inv x g k r : run PWordB x g k = Some r -> k x g = Some r.
Proof. cbn [run]. now destruct (xorb _ _). Qed.

End Run.

(** A match found by searching is a match at some position of the text,
    and the text before it is what was skipped. *)
Lemma search_at_inv (p : pat) (s : string) :
  forall (b : option ascii) (m : found),
    search_at p b s = Some m ->
    exists (b' : option ascii) (s' : string),
      s = pre m +:+ s'
      /\ match_at p {| before := b'; after := s' |}
         = Some {| pre := ""; whole := whole m; groups := groups m; post := post m |}.
Proof.
  induction s as [|a s IH]; intros b m; cbn [search_at].
  - destruct (match_at p _) as [m'|] eqn:E; [|discriminate]. intros [= <-].
    exists b, "". unfold match_at in E |- *.
    destruct (run p _ [] _) as [[y g]|]; [|discriminate]. injection E as <-. now split.
  - destruct (match_at p {| before := b; after := String a s |}) as [m'|] eqn:E.
    + intros [= <-]. exists b, (String a s). unfold match_at in E |- *.
      destruct (run p _ [] _) as [[y g]|]; [|discriminate]. injection E as <-. now split.
    + destruct (search_at p (Some a) s) as [m'|] eqn:E'; [|discriminate].
      intros [= <-]. apply IH in E' as (b' & s' & Hs & Hm).
      exists b', s'. cbn [pre whole groups post]. now rewrite app_cons, <- Hs.
Qed.

Lemma match_at_inv (p : pat) (x : pos) (m : found) :
  match_at p x = Some m ->
  run p x [] (fun y g => Some (y, g)) = Some (post m, groups m)
  /\ whole m = consumed x (post m).
Proof.
  unfold match_at. destruct (run p x [] _) as [[y g]|]; [|discriminate].
  intros [= <-]. now split.
Qed.

Lemma run_PSeq {R : Type} (a b : pat) (x : pos) (g : caps) (k : pos -> caps -> option R) :
  run (PSeq a b) x g k = run a x g (fun y g' => run b y g' k).
Proof. reflexivity. Qed.

Lemma run_PGroup {R : Type} (i : nat) (a : pat) (x : pos) (g : caps)
    (k : pos -> caps -> option R) :
  run (PGroup i a) x g k = run a x g (fun y g' => k y ((i, consumed x y) :: g')).
Proof. reflexivity. Qed.

(** What [doi_pattern] matches has the shape of a DOI. *)
Lemma match_at_doi_pattern (x : pos) (m : found) :
  match_at doi_pattern x = Some m ->
  after x = whole m +:+ after (post m) /\ doi_shape (whole m).
Proof.
  intros H. apply match_at_inv in H as [H Hwhole]. unfold doi_pattern in H.
  rewrite run_PSeq in H. apply run_PLit_inv in H as (y1 & H1 & H).
  rewrite run_PSeq in H. apply run_PRep_PCls_inv in H as (w1 & y2 & H2 & Hw1 & Hlo1 & Hhi1 & H).
  rewrite run_PSeq in H. unfold PChr in H. apply run_PCls_inv in H as (a & y3 & H3 & Ha & H).
  apply Ascii.eqb_eq in Ha as <-.
  unfold PPlus in H. apply run_PRep_PCls_inv in H as (w2 & y4 & H4 & Hw2 & Hlo2 & _ & H).
  injection H as Hpost _. subst y4.
  assert (Hx : after x = ("10." +:+ w1 +:+ "/" +:+ w2) +:+ after (post m)).
  { rewrite H1, H2, H3, H4. rewrite !app_assoc_str. reflexivity. }
  rewrite (consumed_app _ _ _ Hx) in Hwhole. rewrite Hwhole. split; [exact Hx|].
  exists w1, w2. repeat split; [exact Hlo1|now apply Hhi1|exact Hw1| |exact Hw2].
  intros ->. cbn in Hlo2. lia.
Qed.

(** ** The extractor *)

Ltac extract_branches :=
  destruct (search year_pattern _) as [?my|];
  (destruct (search title_pattern _) as [?mt|];
   [destruct (first_group _)|
    unfold guess_title_authors;
    destruct (scan_segments _) as [?segs [?t|]];
    [destruct (Engine.nonempty _)|];
    destruct (List.filter _ _)]).

Lemma extract_doi (raw : string) :
  extract_from_raw_text raw !! "doi"
  = if raw =? "" then None else Some (group_value (whole <$> search doi_pattern raw)).
Proof.
  unfold extract_from_raw_text. destruct (raw =? ""); [apply lookup_empty|].
  generalize (group_value (whole <$> search doi_pattern raw)).
  generalize (group_value (whole <$> search url_pattern raw)). intros u d.
  extract_branches; lookup_in_record; reflexivity.
Qed.

Lemma extract_url (raw : string) :
  extract_from_raw_text raw !! "url"
  = if raw =? "" then None else Some (group_value (whole <$> search url_pattern raw)).
Proof.
  unfold extract_from_raw_text. destruct (raw =? ""); [apply lookup_empty|].
  generalize (group_value (whole <$> search doi_pattern raw)).
  generalize (group_value (whole <$> search url_pattern raw)). intros u d.
  extract_branches; lookup_in_record; reflexivity.
Qed.

Lemma extract_year (raw : string) :
  extract_from_raw_text raw !! "year"
  = if raw =? "" then None
    else (fun m => por (group_value (group 1 m)) (group_value (group 2 m)))
           <$> search year_pattern raw.
Proof.
  unfold extract_from_raw_text. destruct (raw =? ""); [apply lookup_empty|].
  generalize (group_value (whole <$> search doi_pattern raw)).
  generalize (group_value (whole <$> search url_pattern raw)). intros u d.
  extract_branches; lookup_in_record; reflexivity.
Qed.

(** The title the extractor returns, when it returns one, is a text. *)
Lemma extract_title (raw : string) (v : value) :
  extract_from_raw_text raw !! "title" = Some v -> exists t, v = VStr t.
Proof.
  unfold extract_from_raw_text. destruct (raw =? ""); [now rewrite lookup_empty|].
  generalize (group_value (whole <$> search doi_pattern raw)).
  generalize (group_value (whole <$> search url_pattern raw)). intros u d.
  extract_branches; lookup_in_record; rewrite ?lookup_empty;
    intros [= <-] || discriminate; eexists; reflexivity.
Qed.

(** What [url_pattern] matches: the scheme, and then characters that are
    not white space. *)
Lemma match_at_url_pattern (x : pos) (m : found) :
  match_at url_pattern x = Some m ->
  after x = whole m +:+ after (post m)
  /\ exists o w, whole m = "http" +:+ o +:+ "://" +:+ w
                 /\ (o = "" \/ o = "s")
                 /\ forallb_str (fun c => negb (isspace c)) w = true.
Proof.
  intros H. apply match_at_inv in H as [H Hwhole]. unfold url_pattern in H.
  rewrite run_PSeq in H. apply run_PLit_inv in H as (y1 & H1 & H).
  rewrite run_PSeq in H. unfold POpt, PChr in H.
  apply run_PRep_PCls_inv in H as (o & y2 & H2 & Ho & _ & Hhi & H).
  rewrite run_PSeq in H. apply run_PLit_inv in H as (y3 & H3 & H).
  unfold PPlus in H. apply run_PRep_PCls_inv in H as (w & y4 & H4 & Hw & _ & _ & H).
  injection H as Hpost _. subst y4.
  assert (Hx : after x = ("http" +:+ o +:+ "://" +:+ w) +:+ after (post m)).
  { rewrite H1, H2, H3, H4. rewrite !app_assoc_str. reflexivity. }
  rewrite (consumed_app _ _ _ Hx) in Hwhole. rewrite Hwhole. split; [exact Hx|].
  exists o, w. repeat split; [|exact Hw].
  specialize (Hhi 1 eq_refl). destruct o as [|c [|d o]]; [now left| |cbn in Hhi; lia].
  cbn [forallb_str] in Ho. rewrite andb_true_r in Ho. apply Ascii.eqb_eq in Ho as <-.
  now right.
Qed.

(** What [year_pattern] matches: four digits, in brackets or between
    word boundaries; they are the year the extractor takes. *)
Lemma match_at_year_pattern (x : pos) (m : found) :
  match_at year_pattern x = Some m ->
  exists a y b, after x = a +:+ y +:+ b
                /\ por (group_value (group 1 m)) (group_value (group 2 m)) = VStr y
                /\ String.length y = 4
                /\ forallb_str isdigit y = true.
Proof.
  intros H. apply match_at_inv in H as [H _]. unfold year_pattern, PTimes, PChr in H.
  apply run_PAlt_inv in H as [H|H].
  - rewrite run_PSeq in H. apply run_PCls_inv in H as (c & y1 & H1 & Hc & H).
    rewrite run_PSeq, run_PGroup in H.
    apply run_PRep_PCls_inv in H as (y & y2 & H2 & Hy & Hlo & Hhi & H).
    apply run_PCls_inv in H as (c' & y3 & H3 & Hc' & H).
    injection H as _ Hg. specialize (Hhi 4 eq_refl).
    rewrite (consumed_app _ _ _ H2) in Hg.
    exists (String c ""), y, (after y2). repeat split; [|  |lia|exact Hy].
    + now rewrite H1, H2.
    + unfold group. rewrite <- Hg. cbn [group_in Nat.eqb group_value].
      unfold por. cbn [truthy]. destruct y; [cbn in Hlo; lia|reflexivity].
  - rewrite run_PSeq in H. apply run_PWordB_inv in H.
    rewrite run_PSeq, run_PGroup in H.
    apply run_PRep_PCls_inv in H as (y & y2 & H2 & Hy & Hlo & Hhi & H).
    apply run_PWordB_inv in H.
    injection H as _ Hg. specialize (Hhi 4 eq_refl).
    rewrite (consumed_app _ _ _ H2) in Hg.
    exists "", y, (after y2). repeat split; [exact H2| |lia|exact Hy].
    unfold group. rewrite <- Hg. reflexivity.
Qed.

Lemma existsb_str_app (p : ascii -> bool) (a b : string) :
  existsb_str p (a +:+ b) = existsb_str p a || existsb_str p b.
Proof.
  induction a as [|c a IH]; [reflexivity|].
  rewrite app_cons. cbn [existsb_str]. now rewrite IH, orb_assoc.
Qed.

Lemma existsb_str_none (p : ascii -> bool) (s : string) :
  forallb_str (fun c => negb (p c)) s = true -> existsb_str p s = false.
Proof.
  induction s as [|c s IH]; [reflexivity|]. cbn [forallb_str existsb_str].
  intros H. apply andb_true_iff in H as [Hc Hs]. apply negb_true_iff in Hc.
  now rewrite Hc, IH.
Qed.

(** The three fields the extractor reads with one pattern each. *)
Lemma extract_fields (raw : string) :
  let item := extract_from_raw_text raw in
  (get item "doi" = VNone
   \/ exists d, get item "doi" = VStr d /\ piece_of d raw /\ doi_shape d)
  /\ (get item "url" = VNone
      \/ exists u, get item "url" = VStr u /\ piece_of u raw
                   /\ startswith "http://" u || startswith "https://" u = true
                   /\ existsb_str isspace u = false)
  /\ (get item "year" = VNone
      \/ exists y, get item "year" = VStr y /\ piece_of y raw
                   /\ String.length y = 4 /\ forallb_str isdigit y = true).
Proof.
  cbv zeta. unfold get. rewrite extract_doi, extract_url, extract_year.
  destruct (raw =? ""); [repeat split; now left|]. split; [|split].
  - destruct (search doi_pattern raw) as [m|] eqn:E; [right|now left].
    apply search_at_inv in E as (b' & s' & Hraw & E).
    apply match_at_doi_pattern in E as [Hs' Hshape]. cbn [after whole post] in Hs', Hshape.
    exists (whole m). repeat split; [|exact Hshape].
    exists (pre m), (after (post m)). now rewrite Hraw, Hs'.
  - destruct (search url_pattern raw) as [m|] eqn:E; [right|now left].
    apply search_at_inv in E as (b' & s' & Hraw & E).
    apply match_at_url_pattern in E as (Hs' & o & w & Hu & Ho & Hw).
    cbn [after whole post] in Hs', Hu.
    exists (whole m). split; [reflexivity|].
    split; [exists (pre m), (after (post m)); now rewrite Hraw, Hs'|].
    rewrite Hu. apply existsb_str_none in Hw.
    destruct Ho as [-> | ->]; rewrite !app_cons, !app_empty_l;
      (split; [reflexivity|]); cbn [existsb_str]; exact Hw.
  - destruct (search year_pattern raw) as [m|] eqn:E; [right|now left].
    apply search_at_inv in E as (b' & s' & Hraw & E).
    apply match_at_year_pattern in E as (a & y & b & Hs' & Hy & Hlen & Hdig).
    cbn [after] in Hs'. unfold group in Hy |- *. cbn [groups] in Hy.
    exists y. cbn [fmap option_fmap option_map default from_option].
    repeat split; [exact Hy| |exact Hlen|exact Hdig].
    exists (pre m +:+ a), b. now rewrite Hraw, Hs', !app_assoc_str.
Qed.



(** ** From the extractor to [validate] *)

Lemma rstrip_by_clean_all (ws : ascii -> bool) (s : string) :
  existsb_str ws s = false -> rstrip_by ws s = s.
Proof.
  induction s as [|c r IH]; [reflexivity|]. cbn [existsb_str rstrip_by].
  intros H. apply orb_false_iff in H as [Hc Hr]. rewrite (IH Hr), Hc. now destruct r.
Qed.

Lemma strip_clean_all (s : string) : existsb_str isspace s = false -> strip s = s.
Proof.
  intros H. apply strip_fixed; [|now apply rstrip_by_clean_all].
  destruct s as [|c r]; [exact I|]. cbn [existsb_str] in H.
  now apply orb_false_iff in H as [Hc _].
Qed.

Lemma lower_app (a b : string) : lower (a +:+ b) = lower a +:+ lower b.
Proof. induction a as [|c a IH]; [reflexivity|]. rewrite app_cons. cbn. now rewrite IH. Qed.

Lemma existsb_str_excluded (p q : ascii -> bool) (s : string) :
  (forall c, p c = true -> q c = false) ->
  forallb_str p s = true -> existsb_str q s = false.
Proof.
  intros Hpq. induction s as [|c r IH]; [reflexivity|]. cbn [forallb_str existsb_str].
  intros H. apply andb_true_iff in H as [Hc Hr]. now rewrite (Hpq _ Hc), IH.
Qed.

Lemma doi_char_not_space (c : ascii) : doi_char c = true -> isspace c = false.
Proof.
  destruct c as [b0 b1 b2 b3 b4 b5 b6 b7].
  destruct b0, b1, b2, b3, b4, b5, b6, b7; intros H; (reflexivity || discriminate H).
Qed.

Lemma isdigit_not_space (c : ascii) : isdigit c = true -> isspace c = false.
Proof.
  destruct c as [b0 b1 b2 b3 b4 b5 b6 b7].
  destruct b0, b1, b2, b3, b4, b5, b6, b7; intros H; (reflexivity || discriminate H).
Qed.

Lemma doi_shape_no_space (d : string) : doi_shape d -> existsb_str isspace d = false.
Proof.
  intros (digits & suffix & -> & _ & Hdig & _ & Hsuf).
  rewrite !existsb_str_app.
  rewrite (existsb_str_excluded _ _ _ isdigit_not_space Hdig).
  rewrite (existsb_str_excluded _ _ _ doi_char_not_space Hsuf).
  reflexivity.
Qed.

(** A text with the shape of a DOI passes [doi_syntax_is_valid]. *)
Lemma doi_shape_valid (d : string) : doi_shape d -> doi_syntax_is_valid d = true.
Proof.
  intros Hshape. rewrite doi_syntax_is_valid_regex.
  rewrite (strip_clean_all _ (doi_shape_no_space _ Hshape)).
  assert (Hdrop : drop_doi_url d = d).
  { destruct Hshape as (digits & suffix & -> & _). rewrite !app_cons. reflexivity. }
  rewrite Hdrop. unfold DOI_REGEX_match, match_dollar. apply fullmatch_Seq_iff.
  exists d, "". rewrite app_empty_r. repeat split. now apply fullmatch_DOI_REGEX.
Qed.

Lemma parse_digits_returns (s : string) :
  forall (acc : Z) (after_digit : bool),
    forallb_str isdigit s = true ->
    s <> "" \/ after_digit = true ->
    exists z, parse_digits acc after_digit s = Some z.
Proof.
  induction s as [|c r IH]; intros acc after_digit Hd Hne.
  - destruct Hne as [Hne| ->]; [now contradict Hne|]. now exists acc.
  - cbn [forallb_str] in Hd. apply andb_true_iff in Hd as [Hc Hr].
    cbn [parse_digits]. rewrite Hc. apply IH; [exact Hr|now right].
Qed.

Lemma parse_int_digits (y : string) :
  y <> "" -> forallb_str isdigit y = true -> exists z, parse_int y = Some z.
Proof.
  intros Hne Hd. unfold parse_int.
  rewrite (strip_clean_all _ (existsb_str_excluded _ _ _ isdigit_not_space Hd)).
  destruct y as [|c r]; [now contradict Hne|].
  assert (Hc : isdigit c = true) by (cbn [forallb_str] in Hd; now apply andb_true_iff in Hd).
  destruct (parse_digits_returns (String c r) 0 false Hd) as [z Hz]; [now left|].
  exists z. rewrite <- Hz.
  destruct c as [b0 b1 b2 b3 b4 b5 b6 b7].
  destruct b0, b1, b2, b3, b4, b5, b6, b7; (reflexivity || discriminate Hc).
Qed.

(** X26. A record read from free text never fails the format checks of
    [validate]: on the extractor's output [validate] always returns, and
    its errors never hold "Invalid DOI syntax.", "URL must start with
    http:// or https://" or "Year must be numeric.". *)
Theorem validate_extracted (raw : string) (source_type style : option string) :
  exists errors suggestions confidence,
    validate (extract_from_raw_text raw) source_type style
    = Ok (errors, suggestions, confidence)
    /\ ~ In "Invalid DOI syntax." errors
    /\ ~ In "URL must start with http:// or https://" errors
    /\ ~ In "Year must be numeric." errors.
Proof.
  set (item := extract_from_raw_text raw).
  destruct (extract_fields raw) as (Hdoi & Hurl & Hyear). cbv zeta in Hdoi, Hurl, Hyear.
  fold item in Hdoi, Hurl, Hyear.
  assert (Htitle : title_is_text item = true).
  { unfold title_is_text, get. destruct (item !! "title") as [v|] eqn:E; [|reflexivity].
    apply extract_title in E as [t ->]. reflexivity. }
  rewrite <- (validate_returns item source_type style) in Htitle.
  destruct (validate item source_type style) as [[[errors suggestions] confidence]|e] eqn:E;
    [|discriminate Htitle].
  exists errors, suggestions, confidence. split; [reflexivity|].
  apply validate_errors in E. rewrite E. clear E.
  rewrite !in_app_iff, !In_when.
  assert (Hd : truthy (get item "doi")
               && negb (doi_syntax_is_valid (strip (str (por (get item "doi") (VStr "")))))
               = false).
  { destruct Hdoi as [Hd | (d & Hd & _ & Hshape)]; rewrite Hd; [reflexivity|].
    unfold por.
    destruct (truthy (VStr d)) eqn:Ht; [|reflexivity]. cbn [str andb].
    rewrite (strip_clean_all _ (doi_shape_no_space _ Hshape)).
    now rewrite (doi_shape_valid _ Hshape). }
  assert (Hu : truthy (get item "url")
               && negb (match_prefix url_scheme (strip (str (por (get item "url") (VStr "")))))
               = false).
  { destruct Hurl as [Hu | (u & Hu & _ & Hscheme & Hsp)]; rewrite Hu; [reflexivity|].
    unfold por.
    destruct (truthy (VStr u)) eqn:Ht; [|reflexivity]. cbn [str andb].
    rewrite (strip_clean_all _ Hsp), match_prefix_url_scheme. unfold has_http_scheme.
    apply orb_true_iff in Hscheme.
    assert (Hlow : forall p, lower p = p -> startswith p u = true ->
                             startswith p (lower u) = true).
    { intros p Hp Hs. apply startswith_split in Hs. rewrite Hs.
      rewrite lower_app, Hp. apply startswith_app_self. }
    destruct Hscheme as [H|H]; apply Hlow in H; try reflexivity; rewrite H;
      rewrite ?orb_true_r; reflexivity. }
  assert (Hy : ~ In "Year must be numeric." (year_errors item)).
  { unfold year_errors.
    destruct Hyear as [Hy | (y & Hy & _ & Hlen & Hdig)]; rewrite Hy; [now intros []|].
    destruct (truthy (VStr y)); [|now intros []].
    destruct (parse_int_digits y) as [z Hz]; [now destruct y|exact Hdig|].
    cbn [int]. rewrite Hz. intros H. apply In_when in H as [_ H]. discriminate H. }
  rewrite Hd, Hu. repeat split.
  - intros [[_ H]|[[_ H]|[[H _]|[[_ H]|H]]]]; try discriminate H.
    apply In_year_errors in H as [H|H]; discriminate H.
  - intros [[_ H]|[[_ H]|[[_ H]|[[H _]|H]]]]; try discriminate H.
    apply In_year_errors in H as [H|H]; discriminate H.
  - intros [[_ H]|[[_ H]|[[H _]|[[H _]|H]]]]; try discriminate H.
    now apply Hy.
Qed.

(** ** Bibliographies *)

Import Bibliography.

Lemma forallb_is_text_map (l : list string) : forallb is_text (map VStr l) = true.
Proof. induction l as [|s l IH]; [reflexivity|exact IH]. Qed.

Lemma renderable_authors (item : gmap string value) :
  renderable item = true ->
  exists l, iterate (author_values item) = Ok l /\ forallb is_text l = true.
Proof.
  unfold renderable. fold (author_values item). intros H.
  apply andb_true_iff in H as [H _]. apply andb_true_iff in H as [H _].
  apply andb_true_iff in H as [H _].
  destruct (author_values item) as [|b|z|s|l] eqn:E; cbn [iterate].
  - unfold author_values, por in E.
    destruct (truthy (get item "authors")) eqn:Ht; [now rewrite E in Ht|].
    now destruct (negb (truthy (get item "author"))).
  - unfold author_values, por in E.
    destruct (truthy (get item "authors")) eqn:Ht;
      [rewrite E in Ht; now rewrite Ht in H|].
    now destruct (negb (truthy (get item "author"))).
  - unfold author_values, por in E.
    destruct (truthy (get item "authors")) eqn:Ht;
      [rewrite E in Ht; now rewrite Ht in H|].
    now destruct (negb (truthy (get item "author"))).
  - exists (map VStr (chars s)). split; [reflexivity|apply forallb_is_text_map].
  - now exists l.
Qed.

Lemma map_to_csl_json_returns (item : gmap string value) (source_type : option string)
    (include_doi : bool) :
  renderable item = true ->
  exists c, map_to_csl_json item source_type include_doi = Ok c.
Proof.
  intros H. destruct (renderable_authors item H) as (l & Hl & Ht).
  unfold map_to_csl_json. fold (author_values item). rewrite Hl.
  cbn [mbind result_bind bind].
  destruct (map_result_split_name l Ht) as (names & -> & _).
  cbn [mbind result_bind bind]. eexists. reflexivity.
Qed.

Lemma map_result_Forall2 {A B : Type} (f : A -> result B) (l : list A) :
  Forall (fun a => exists b, f a = Ok b) l ->
  exists l', map_result f l = Ok l' /\ Forall2 (fun a b => f a = Ok b) l l'.
Proof.
  induction 1 as [|a l [b Hb] _ (l' & Hl' & IH)]; [exists []; now split|].
  exists (b :: l'). cbn [map_result]. rewrite Hb, Hl'. split; [reflexivity|now constructor].
Qed.

(** X27. When [citeproc] fails on the whole list, the bibliography is
    made of the entries [format_with_csl] returns for the items one by
    one when [citeproc] fails on them, in the same order, joined by line
    feeds.  This holds for records whose fields have the expected types
    and whose source type is a text or falsy. *)
Theorem format_bibliography_fallback (e : env)
    (citeproc_bibliography : string -> list csl_item -> result string)
    (style : option string) (items : list (gmap string value)) (include_doi : bool) :
  CITEPROC_AVAILABLE e = true ->
  path_exists e (CslEngine._style_path e style) = true ->
  Forall (fun it => renderable it = true /\ is_ok (source_type_of it) = true) items ->
  (forall p l, is_ok (citeproc_bibliography p l) = false) ->
  (forall p it st i, is_ok (citeproc_render e p it st i) = false) ->
  exists entries,
    format_bibliography_with_csl e citeproc_bibliography style items include_doi
    = Ok (join newline entries)
    /\ Forall2 (fun it entry =>
                  forall source_type,
                    format_with_csl e style it source_type include_doi = Ok entry)
               items entries.
Proof.
  intros Ha Hp Hitems Hbib Hone.
  unfold format_bibliography_with_csl. rewrite Ha, Hp. cbn [negb].
  destruct (map_result_Forall2
              (fun it => source_type ← source_type_of it;
                         map_to_csl_json it source_type include_doi) items)
    as (csl_items & -> & _).
  { eapply Forall_impl; [exact Hitems|]. intros it [Hr Hs]. cbv beta.
    destruct (source_type_of it) as [st|]; [|discriminate Hs].
    cbn [mbind result_bind bind]. now apply map_to_csl_json_returns. }
  cbn [mbind result_bind bind].
  specialize (Hbib (CslEngine._style_path e style) csl_items).
  destruct (citeproc_bibliography _ csl_items); [discriminate Hbib|]. cbn [catch].
  destruct (map_result_Forall2 manual_format items) as (entries & -> & Hentries).
  { eapply Forall_impl; [exact Hitems|]. intros it [Hr _].
    destruct (manual_format_returns it Hr) as (s & Hs & _). now exists s. }
  cbn [mbind result_bind bind]. exists entries. split; [reflexivity|].
  eapply Forall2_impl; [exact Hentries|]. intros it entry Hm source_type. cbv beta in Hm.
  unfold format_with_csl. rewrite Ha, Hp. cbn [negb].
  specialize (Hone (CslEngine._style_path e style) it source_type include_doi).
  destruct (citeproc_render e _ it source_type include_doi); [discriminate Hone|exact Hm].
Qed.

Lemma format_bibliography_fallback_witness :
  exists entries,
    format_bibliography_with_csl env_failing_engine (fun _ _ => Raise EngineError)
      (Some "APA") [record_X; {[ "title" := VStr "Y"; "source_type" := VStr "book" ]}] true
    = Ok (join newline entries)
    /\ Forall2 (fun it entry =>
                  forall source_type,
                    format_with_csl env_failing_engine (Some "APA") it source_type true
                    = Ok entry)
               [record_X; {[ "title" := VStr "Y"; "source_type" := VStr "book" ]}] entries.
Proof.
  apply (format_bibliography_fallback env_failing_engine (fun _ _ => Raise EngineError)
           (Some "APA") [record_X; {[ "title" := VStr "Y"; "source_type" := VStr "book" ]}]
           true).
  - reflexivity.
  - reflexivity.
  - repeat constructor.
  - reflexivity.
  - reflexivity.
Defined.



(** ** Batches *)

Import Batch.

Lemma normalize_metadata_title (raw md : gmap string value) :
  normalize_metadata (Some raw) = Ok md ->
  get md "title" = get_default raw "title" (VStr "").
Proof.
  intros H. destruct (normalize_metadata_inv _ _ H) as [authors ->].
  unfold get. lookup_in_record. reflexivity.
Qed.

Lemma normalize_metadata_empty :
  exists r0, normalize_metadata (Some ∅) = Ok r0 /\ forall k, truthy (get r0 k) = false.
Proof.
  destruct (normalize_metadata (Some ∅)) as [r0|] eqn:E; [|discriminate E].
  exists r0. split; [reflexivity|]. intros k.
  destruct (normalize_metadata_inv _ _ E) as [authors Hr0].
  assert (Ha : r0 !! "authors" = Some (VList [])).
  { unfold normalize_metadata in E. cbn in E. injection E as <-. reflexivity. }
  assert (Hauthors : authors = VList []).
  { rewrite Hr0 in Ha. revert Ha. lookup_in_record. now intros [= ->]. }
  subst authors. clear Ha E.
  assert (Hall : map_Forall (fun _ v => truthy v = false) r0).
  { rewrite Hr0. cbn [default from_option list_to_map foldr fst snd uncurry].
    unfold get, get_default, id. rewrite !lookup_empty. cbn [default from_option].
    repeat (apply map_Forall_insert_2; [reflexivity|]). apply map_Forall_empty. }
  unfold get. destruct (r0 !! k) as [v|] eqn:Ek; [|reflexivity].
  exact (Hall k v Ek).
Qed.

Lemma process_item_record (fetch : value -> option (gmap string value))
    (raw r : gmap string value) :
  process_item fetch (Record raw) = Ok r ->
  exists md extracted,
    normalize_metadata (Some raw) = Ok md
    /\ extract_from_value (por (get raw "raw_text") (VStr "")) = Ok extracted
    /\ (r = merge_metadata md extracted
        \/ (truthy (get (merge_metadata md extracted) "doi") = true
            /\ truthy (get (merge_metadata md extracted) "title") = false
            /\ exists fetched,
                 fetch (get (merge_metadata md extracted) "doi") = Some fetched
                 /\ r = merge_metadata (merge_metadata md extracted) fetched)).
Proof.
  cbn [process_item]. destruct (normalize_metadata (Some raw)) as [md|]; [|discriminate].
  cbn [mbind result_bind bind].
  destruct (extract_from_value _) as [extracted|]; [|discriminate].
  cbn [mbind result_bind bind]. intros H. exists md, extracted. repeat split.
  destruct (truthy (get (merge_metadata md extracted) "doi")); [|left; now injection H].
  destruct (truthy (get (merge_metadata md extracted) "title")); [left; now injection H|].
  cbn [negb andb] in H.
  destruct (fetch _) as [fetched|] eqn:Ef; [|left; now injection H].
  destruct (bool_decide (fetched = ∅)); [left; now injection H|].
  right. repeat split. exists fetched. split; [reflexivity|now injection H].
Qed.

Lemma map_result_inv {A B : Type} (f : A -> result B) (l : list A) (l' : list B) :
  map_result f l = Ok l' -> Forall2 (fun a b => f a = Ok b) l l'.
Proof.
  revert l'. induction l as [|a l IH]; intros l'; cbn [map_result].
  - intros [= <-]. constructor.
  - destruct (f a) as [b|] eqn:Ea; [|discriminate]. cbn [mbind result_bind bind].
    destruct (map_result f l) as [bs|]; [|discriminate]. cbn [mbind result_bind bind].
    intros [= <-]. constructor; [exact Ea|now apply IH].
Qed.

(** X29. The batch returns one record per item, in the order of the
    items.  In the record of a dict item every field that is truthy after
    normalisation keeps its value, whatever the raw text and Crossref say;
    the record of a text item carries every truthy field the extractor
    finds in the text. *)
Theorem process_batch_items_priority (fetch : value -> option (gmap string value))
    (items : list batch_item) (out : list (gmap string value)) :
  process_batch_items fetch items = Ok out ->
  Forall2 (fun it r =>
             match it with
             | Text raw =>
                 forall k, truthy (get (extract_from_raw_text raw) k) = true ->
                           get r k = get (extract_from_raw_text raw) k
             | Record raw =>
                 forall md k, normalize_metadata (Some raw) = Ok md ->
                              truthy (get md k) = true -> get r k = get md k
             end) items out.
Proof.
  intros H. apply map_result_inv in H.
  eapply Forall2_impl; [exact H|]. clear H. intros [raw|raw] r H.
  - cbn [process_item] in H. destruct normalize_metadata_empty as (r0 & Hr0 & Hfalsy).
    rewrite Hr0 in H. cbn [mbind result_bind bind] in H. injection H as <-.
    intros k Hk. now rewrite merge_metadata_get, Hfalsy, Hk.
  - intros md k Hmd Hk.
    apply process_item_record in H as (md' & extracted & Hmd' & _ & Hr).
    rewrite Hmd in Hmd'. injection Hmd' as <-.
    assert (Hm : get (merge_metadata md extracted) k = get md k)
      by now rewrite merge_metadata_get, Hk.
    destruct Hr as [-> | (_ & _ & fetched & _ & ->)]; [exact Hm|].
    now rewrite merge_metadata_get, Hm, Hk.
Qed.

Lemma process_batch_items_priority_witness :
  Forall2 (fun it r =>
             match it with
             | Text raw =>
                 forall k, truthy (get (extract_from_raw_text raw) k) = true ->
                           get r k = get (extract_from_raw_text raw) k
             | Record raw =>
                 forall md k, normalize_metadata (Some raw) = Ok md ->
                              truthy (get md k) = true -> get r k = get md k
             end)
    [Text "see 10.1000/XYZ (1843)"; Record {[ "doi" := VStr "10.1000/XYZ" ]}]
    [merge_metadata batch_blank (extract_from_raw_text "see 10.1000/XYZ (1843)");
     merge_metadata (<[ "doi" := VStr "10.1000/xyz" ]> batch_blank)
       {[ "title" := VStr "Fetched" ]}].
Proof.
  apply (process_batch_items_priority (fun _ => Some {[ "title" := VStr "Fetched" ]})).
  vm_compute. reflexivity.
Defined.

(** X30. Crossref is consulted only for dict items that lack a title:
    on a batch of texts and of dicts that come with a truthy title the
    result does not depend on what a lookup would return. *)
Theorem process_batch_items_offline
    (fetch fetch' : value -> option (gmap string value)) (items : list batch_item) :
  Forall (fun it => match it with
                    | Text _ => True
                    | Record raw => truthy (get raw "title") = true
                    end) items ->
  process_batch_items fetch items = process_batch_items fetch' items.
Proof.
  unfold process_batch_items. induction 1 as [|it items Hit _ IH]; [reflexivity|].
  cbn [map_result]. rewrite IH.
  assert (Hsame : process_item fetch it = process_item fetch' it); [|now rewrite Hsame].
  destruct it as [raw|raw]; [reflexivity|]. cbn [process_item].
  destruct (normalize_metadata (Some raw)) as [md|] eqn:Hmd; [|reflexivity].
  cbn [mbind result_bind bind].
  destruct (extract_from_value _) as [extracted|]; [|reflexivity].
  cbn [mbind result_bind bind].
  assert (Ht : truthy (get (merge_metadata md extracted) "title") = true).
  { rewrite merge_metadata_truthy, (normalize_metadata_title _ _ Hmd).
    unfold get in Hit. unfold get_default.
    destruct (raw !! "title") as [v|]; [|discriminate Hit].
    cbn [default from_option] in Hit |- *. now rewrite Hit. }
  rewrite Ht. now rewrite andb_false_r.
Qed.

Lemma process_batch_items_offline_witness :
  process_batch_items (fun _ => None)
    [Text "see 10.1000/XYZ (1843)"; Record {[ "title" := VStr "Notes"; "doi" := VStr "10.1/x" ]}]
  = process_batch_items (fun _ => Some {[ "year" := VInt 1843 ]})
      [Text "see 10.1000/XYZ (1843)"; Record {[ "title" := VStr "Notes"; "doi" := VStr "10.1/x" ]}].
Proof.
  apply (process_batch_items_offline (fun _ => None) (fun _ => Some {[ "year" := VInt 1843 ]})).
  repeat constructor.
Defined.
